(** * SmartAIMap: the procedural ambient audio engine and the retry wrapper

    A shallow embedding of [src/components/AudioManager.tsx] (the React
    component that owns the Web Audio graph) and of [withRetry] from the
    generative-backend client, followed by the properties stated about
    them.

    Conventions of the embedding.
    - JavaScript numbers are exact rationals [Q]; no rounding is modelled.
    - An [AudioParam] is its intrinsic [value] together with the list of
      automation events scheduled on it, in the order of the calls.
    - Every node is reachable through exactly one React ref, so the store
      is the record of refs; a mutation of a node replaces the content of
      its ref.
    - [window.setInterval] / [clearInterval] act on a table of live
      intervals, a finite map from handles to the scheduled callbacks.
    - React's [useEffect] is modelled by [rerender]: an effect whose
      dependency changed first runs the cleanup it returned last time and
      then its body. *)

From Stdlib Require Import QArith Qround ZArith String Lia Lqa.
From stdpp Require Import base option list gmap.

(** ** Web Audio: parameters and their automation *)

Inductive AutomationEvent : Type :=
| SetValue (v time : Q)                      (* setValueAtTime(v, time) *)
| SetTarget (target startTime timeConstant : Q) (* setTargetAtTime(...) *)
| LinearRamp (v endTime : Q)                 (* linearRampToValueAtTime *)
| ExponentialRamp (v endTime : Q).           (* exponentialRampToValueAtTime *)

Record AudioParam : Type := mkParam {
  value : Q;
  events : list AutomationEvent }.

Definition schedule (e : AutomationEvent) (p : AudioParam) : AudioParam :=
  {| value := value p; events := events p ++ [e] |}.

Definition setValueAtTime (v time : Q) : AudioParam -> AudioParam :=
  schedule (SetValue v time).
Definition setTargetAtTime (target startTime timeConstant : Q)
  : AudioParam -> AudioParam :=
  schedule (SetTarget target startTime timeConstant).
Definition linearRampToValueAtTime (v endTime : Q) : AudioParam -> AudioParam :=
  schedule (LinearRamp v endTime).
Definition exponentialRampToValueAtTime (v endTime : Q)
  : AudioParam -> AudioParam :=
  schedule (ExponentialRamp v endTime).

(** [param.value = v] on a parameter that has no automation yet. *)
Definition newParam (v : Q) : AudioParam := {| value := v; events := [] |}.

Definition evTime (e : AutomationEvent) : Q :=
  match e with
  | SetValue _ t | SetTarget _ t _ | LinearRamp _ t | ExponentialRamp _ t => t
  end.

Definition evValue (e : AutomationEvent) : Q :=
  match e with
  | SetValue v _ | SetTarget v _ _ | LinearRamp v _ | ExponentialRamp v _ => v
  end.

(** The target of the smoothed approach scheduled last, if the last call
    on the parameter was a [setTargetAtTime]. *)
Definition target (p : AudioParam) : option Q :=
  match last (events p) with
  | Some (SetTarget v _ _) => Some v
  | _ => None
  end.

(** The platform keeps the events of a parameter ordered by time, an event
    inserted at the time of older ones going after them.  [finalEvent] is
    the last event of that timeline: the one that governs the parameter
    once every scheduled time has passed. *)
Definition laterEvent (acc : option AutomationEvent) (e : AutomationEvent)
  : option AutomationEvent :=
  match acc with
  | None => Some e
  | Some a => if Qle_bool (evTime a) (evTime e) then Some e else Some a
  end.

Definition finalEvent (l : list AutomationEvent) : option AutomationEvent :=
  fold_left laterEvent l None.

(** The value the parameter settles at: the value of a write or the end of
    a ramp, the target of a smoothed approach. *)
Definition settledValue (p : AudioParam) : Q :=
  match finalEvent (events p) with
  | Some e => evValue e
  | None => value p
  end.

(** An event that moves the parameter over time: a smoothed approach
    with a positive time constant, or a ramp to an end time. *)
Definition isTransition (e : AutomationEvent) : Prop :=
  match e with
  | SetValue _ _ => False
  | SetTarget _ _ tc => (0 < tc)%Q
  | LinearRamp _ _ | ExponentialRamp _ _ => True
  end.

Definition isSmoothedApproach (e : AutomationEvent) : Prop :=
  match e with
  | SetTarget _ _ tc => (0 < tc)%Q
  | _ => False
  end.

(** ** Web Audio: the nodes of the graph *)

Inductive OscillatorType : Type := sine | square | sawtooth | triangle.

Inductive BiquadFilterType : Type :=
| lowpass | highpass | bandpass | lowshelf | highshelf | peaking | notch
| allpass.

Record AudioContext : Type := { currentTime : Q }.
Record GainNode : Type := { gain : AudioParam }.
Record StereoPannerNode : Type := { pan : AudioParam }.
Record OscillatorNode : Type := {
  osc_type : OscillatorType;
  osc_frequency : AudioParam }.
Record BiquadFilterNode : Type := {
  filter_type : BiquadFilterType;
  filter_frequency : AudioParam;
  filter_Q : AudioParam }.

Definition onGain (f : AudioParam -> AudioParam) (g : GainNode) : GainNode :=
  {| gain := f (gain g) |}.
Definition onPan (f : AudioParam -> AudioParam) (n : StereoPannerNode)
  : StereoPannerNode :=
  {| pan := f (pan n) |}.
Definition onOscFrequency (f : AudioParam -> AudioParam) (o : OscillatorNode)
  : OscillatorNode :=
  {| osc_type := osc_type o; osc_frequency := f (osc_frequency o) |}.
Definition setOscType (ty : OscillatorType) (o : OscillatorNode)
  : OscillatorNode :=
  {| osc_type := ty; osc_frequency := osc_frequency o |}.
Definition onFilterFrequency (f : AudioParam -> AudioParam)
  (n : BiquadFilterNode) : BiquadFilterNode :=
  {| filter_type := filter_type n;
     filter_frequency := f (filter_frequency n);
     filter_Q := filter_Q n |}.
Definition onFilterQ (f : AudioParam -> AudioParam) (n : BiquadFilterNode)
  : BiquadFilterNode :=
  {| filter_type := filter_type n;
     filter_frequency := filter_frequency n;
     filter_Q := f (filter_Q n) |}.
Definition setFilterType (ty : BiquadFilterType) (n : BiquadFilterNode)
  : BiquadFilterNode :=
  {| filter_type := ty;
     filter_frequency := filter_frequency n;
     filter_Q := filter_Q n |}.

(** ** The component: props, refs, timers *)

(** [BotLockStatus] of [src/types.ts]. *)
Inductive BotLockStatus : Type := UNLOCKED | SCANNING | LOCKED | OVERRIDE.

Definition BotLockStatus_eqb (a b : BotLockStatus) : bool :=
  match a, b with
  | UNLOCKED, UNLOCKED | SCANNING, SCANNING | LOCKED, LOCKED
  | OVERRIDE, OVERRIDE => true
  | _, _ => false
  end.

(** [AudioManagerProps].  The profile is the string the backend delivered:
    the TypeScript union is erased at run time, so the [switch] of the
    profile effect can meet any string. *)
Record AudioManagerProps : Type := {
  profile : string;
  status : BotLockStatus;
  scrollPos : Q;
  isMuted : bool }.

(** The refs of the component.  [noiseNodeRef] (the script processor that
    fills its buffer with random samples) carries no parameter and is left
    out. *)
Record Refs : Type := {
  audioCtxRef : option AudioContext;
  mainGainRef : option GainNode;
  noiseFilterRef : option BiquadFilterNode;
  noiseGainRef : option GainNode;
  oscBankRef : list OscillatorNode;
  droneGainRef : option GainNode;
  spatialPannerRef : option StereoPannerNode;
  alarmOscRef : option OscillatorNode;
  alarmGainRef : option GainNode }.

(** The closures handed to [setInterval], by the place that creates them. *)
Inductive Routine : Type :=
| AlarmSweep        (* status effect, OVERRIDE *)
| NaturalDrift      (* profile effect, 'Natural' *)
| IndustrialPulse   (* profile effect, 'Industrial' *)
| ElectronicGlitch  (* profile effect, 'Electronic' *)
| HostileJitter.    (* profile effect, 'Hostile' *)

Record Interval : Type := { callback : Routine; delay : Z }.

(** The timers of the window: handles are positive integers handed out in
    increasing order. *)
Record Window : Type := {
  nextHandle : positive;
  intervals : gmap positive Interval }.

Definition setInterval (cb : Routine) (ms : Z) (w : Window)
  : positive * Window :=
  (nextHandle w,
   {| nextHandle := nextHandle w + 1;
      intervals := <[nextHandle w := {| callback := cb; delay := ms |}]>
                     (intervals w) |}).

Definition clearInterval (h : positive) (w : Window) : Window :=
  {| nextHandle := nextHandle w; intervals := delete h (intervals w) |}.

(** What an effect returned for React to call before its next run:
    nothing, or [() => { if (h) clearInterval(h) }]; the status effect's
    [() => clearInterval(interval)] is [ClearInterval (Some interval)]. *)
Inductive Cleanup : Type :=
| NoCleanup
| ClearInterval (h : option positive).

Record Component : Type := {
  props : AudioManagerProps;
  refs : Refs;
  window : Window;
  statusCleanup : Cleanup;
  profileCleanup : Cleanup }.

(** *** Writing through a ref *)

Definition withAudioCtx (x : AudioContext) (r : Refs) : Refs :=
  {| audioCtxRef := Some x; mainGainRef := mainGainRef r;
     noiseFilterRef := noiseFilterRef r; noiseGainRef := noiseGainRef r;
     oscBankRef := oscBankRef r; droneGainRef := droneGainRef r;
     spatialPannerRef := spatialPannerRef r; alarmOscRef := alarmOscRef r;
     alarmGainRef := alarmGainRef r |}.
Definition withMainGain (x : GainNode) (r : Refs) : Refs :=
  {| audioCtxRef := audioCtxRef r; mainGainRef := Some x;
     noiseFilterRef := noiseFilterRef r; noiseGainRef := noiseGainRef r;
     oscBankRef := oscBankRef r; droneGainRef := droneGainRef r;
     spatialPannerRef := spatialPannerRef r; alarmOscRef := alarmOscRef r;
     alarmGainRef := alarmGainRef r |}.
Definition withNoiseFilter (x : BiquadFilterNode) (r : Refs) : Refs :=
  {| audioCtxRef := audioCtxRef r; mainGainRef := mainGainRef r;
     noiseFilterRef := Some x; noiseGainRef := noiseGainRef r;
     oscBankRef := oscBankRef r; droneGainRef := droneGainRef r;
     spatialPannerRef := spatialPannerRef r; alarmOscRef := alarmOscRef r;
     alarmGainRef := alarmGainRef r |}.
Definition withNoiseGain (x : GainNode) (r : Refs) : Refs :=
  {| audioCtxRef := audioCtxRef r; mainGainRef := mainGainRef r;
     noiseFilterRef := noiseFilterRef r; noiseGainRef := Some x;
     oscBankRef := oscBankRef r; droneGainRef := droneGainRef r;
     spatialPannerRef := spatialPannerRef r; alarmOscRef := alarmOscRef r;
     alarmGainRef := alarmGainRef r |}.
Definition withOscBank (x : list OscillatorNode) (r : Refs) : Refs :=
  {| audioCtxRef := audioCtxRef r; mainGainRef := mainGainRef r;
     noiseFilterRef := noiseFilterRef r; noiseGainRef := noiseGainRef r;
     oscBankRef := x; droneGainRef := droneGainRef r;
     spatialPannerRef := spatialPannerRef r; alarmOscRef := alarmOscRef r;
     alarmGainRef := alarmGainRef r |}.
Definition withDroneGain (x : GainNode) (r : Refs) : Refs :=
  {| audioCtxRef := audioCtxRef r; mainGainRef := mainGainRef r;
     noiseFilterRef := noiseFilterRef r; noiseGainRef := noiseGainRef r;
     oscBankRef := oscBankRef r; droneGainRef := Some x;
     spatialPannerRef := spatialPannerRef r; alarmOscRef := alarmOscRef r;
     alarmGainRef := alarmGainRef r |}.
Definition withSpatialPanner (x : StereoPannerNode) (r : Refs) : Refs :=
  {| audioCtxRef := audioCtxRef r; mainGainRef := mainGainRef r;
     noiseFilterRef := noiseFilterRef r; noiseGainRef := noiseGainRef r;
     oscBankRef := oscBankRef r; droneGainRef := droneGainRef r;
     spatialPannerRef := Some x; alarmOscRef := alarmOscRef r;
     alarmGainRef := alarmGainRef r |}.
Definition withAlarmOsc (x : OscillatorNode) (r : Refs) : Refs :=
  {| audioCtxRef := audioCtxRef r; mainGainRef := mainGainRef r;
     noiseFilterRef := noiseFilterRef r; noiseGainRef := noiseGainRef r;
     oscBankRef := oscBankRef r; droneGainRef := droneGainRef r;
     spatialPannerRef := spatialPannerRef r; alarmOscRef := Some x;
     alarmGainRef := alarmGainRef r |}.
Definition withAlarmGain (x : GainNode) (r : Refs) : Refs :=
  {| audioCtxRef := audioCtxRef r; mainGainRef := mainGainRef r;
     noiseFilterRef := noiseFilterRef r; noiseGainRef := noiseGainRef r;
     oscBankRef := oscBankRef r; droneGainRef := droneGainRef r;
     spatialPannerRef := spatialPannerRef r; alarmOscRef := alarmOscRef r;
     alarmGainRef := Some x |}.

Definition withProps (x : AudioManagerProps) (c : Component) : Component :=
  {| props := x; refs := refs c; window := window c;
     statusCleanup := statusCleanup c; profileCleanup := profileCleanup c |}.
Definition withRefs (x : Refs) (c : Component) : Component :=
  {| props := props c; refs := x; window := window c;
     statusCleanup := statusCleanup c; profileCleanup := profileCleanup c |}.
Definition withWindow (x : Window) (c : Component) : Component :=
  {| props := props c; refs := refs c; window := x;
     statusCleanup := statusCleanup c; profileCleanup := profileCleanup c |}.
Definition withStatusCleanup (x : Cleanup) (c : Component) : Component :=
  {| props := props c; refs := refs c; window := window c;
     statusCleanup := x; profileCleanup := profileCleanup c |}.
Definition withProfileCleanup (x : Cleanup) (c : Component) : Component :=
  {| props := props c; refs := refs c; window := window c;
     statusCleanup := statusCleanup c; profileCleanup := x |}.

(** ** The effects of [AudioManager] *)

(** The first effect (dependencies [[]]): build the graph.  The defaults of
    fresh nodes are those of the platform: gain 1, pan 0, oscillator sine
    at 440 Hz, filter lowpass at 350 Hz with Q 1; the context starts at
    time 0. *)
Definition freshOscillator : OscillatorNode :=
  {| osc_type := sine; osc_frequency := newParam 440 |}.

(** What [new C()] does, for a constructor [C] that the window offers. *)
Inductive Construction : Type :=
| Constructs           (* it returns a context with every factory that the
                          effect calls *)
| ConstructsLegacy     (* it returns a context without one of them,
                          [createStereoPanner] on older prefixed
                          implementations: the effect throws at that call *)
| ConstructorThrows.   (* it throws: no audio device, too many contexts *)

(** The two globals that the effect reads; [None] is [undefined]. *)
Record Globals : Type := {
  window_AudioContext : option Construction;
  window_webkitAudioContext : option Construction }.

(** [window.AudioContext || (window as any).webkitAudioContext]. *)
Definition AudioContextClass (g : Globals) : option Construction :=
  match window_AudioContext g with
  | Some C => Some C
  | None => window_webkitAudioContext g
  end.

(** The body of the effect after [new AudioContextClass()] has returned:
    the nodes it creates and stores in the refs. *)
Definition graphOf (p : AudioManagerProps) : Refs :=
  {| audioCtxRef := Some {| currentTime := 0 |};
     mainGainRef :=
       Some {| gain := newParam (if isMuted p then 0 else 0.4) |};
     noiseFilterRef :=
       Some {| filter_type := lowpass;
               filter_frequency := newParam 350;
               filter_Q := newParam 1 |};
     noiseGainRef := Some {| gain := newParam 1 |};
     oscBankRef := [freshOscillator; freshOscillator; freshOscillator];
     droneGainRef := Some {| gain := newParam 0.2 |};
     spatialPannerRef := Some {| pan := newParam 0 |};
     alarmOscRef :=
       Some {| osc_type := sawtooth; osc_frequency := newParam 440 |};
     alarmGainRef := Some {| gain := newParam 0 |} |}.

(** [None]: the effect threw: a TypeError at [new AudioContextClass()]
    where the window has neither global ([undefined] is no constructor),
    whatever the constructor threw, or a TypeError at the call of a factory
    that the context lacks. *)
Definition constructEffect (g : Globals) (p : AudioManagerProps)
  : option Refs :=
  match AudioContextClass g with
  | Some Constructs => Some (graphOf p)
  | Some ConstructsLegacy | Some ConstructorThrows | None => None
  end.

(** Handle Muting (dependencies [[isMuted]]). *)
Definition muteEffect (c : Component) : Component :=
  match mainGainRef (refs c), audioCtxRef (refs c) with
  | Some mainGain, Some ctx =>
      let now := currentTime ctx in
      withRefs
        (withMainGain
           (onGain (setTargetAtTime (if isMuted (props c) then 0 else 0.4)
                      now 0.1) mainGain)
           (refs c)) c
  | _, _ => c
  end.

(** Handle Spatial Panning (dependencies [[scrollPos]]). *)
Definition panEffect (c : Component) : Component :=
  match spatialPannerRef (refs c), audioCtxRef (refs c) with
  | Some panner, Some ctx =>
      let panValue := (scrollPos (props c) / 50 - 1)%Q in
      withRefs
        (withSpatialPanner
           (onPan (setTargetAtTime panValue (currentTime ctx) 0.1) panner)
           (refs c)) c
  | _, _ => c
  end.

(** Handle OVERRIDE status (dependencies [[status]]). *)
Definition statusEffect (c : Component) : Component * Cleanup :=
  match audioCtxRef (refs c), alarmGainRef (refs c), alarmOscRef (refs c) with
  | Some ctx, Some alarmGain, Some _ =>
      let now := currentTime ctx in
      if BotLockStatus_eqb (status (props c)) OVERRIDE then
        let c1 :=
          withRefs
            (withAlarmGain (onGain (setTargetAtTime 0.1 now 0.1) alarmGain)
               (refs c)) c in
        let '(interval, w) := setInterval AlarmSweep 1000 (window c1) in
        (withWindow w c1, ClearInterval (Some interval))
      else
        (withRefs
           (withAlarmGain (onGain (setTargetAtTime 0 now 0.2) alarmGain)
              (refs c)) c,
         NoCleanup)
  | _, _, _ => (c, NoCleanup)
  end.

(** [bank[i].type = ty; bank[i].frequency.setTargetAtTime(f, now, 0.5)];
    [None] is the TypeError of reading a property of [undefined]. *)
Definition bankSet (i : nat) (ty : OscillatorType) (f now : Q)
  (bank : list OscillatorNode) : option (list OscillatorNode) :=
  osc ← bank !! i;
  Some (<[i := onOscFrequency (setTargetAtTime f now 0.5)
                 (setOscType ty osc)]> bank).

(** The end of the profile effect: the nodes it worked on are the ones
    behind the refs. *)
Definition commitProfile (filter : BiquadFilterNode) (nGain : GainNode)
  (bank : list OscillatorNode) (dGain : GainNode) (w : Window)
  (c : Component) : Component :=
  withWindow w
    (withRefs
       (withDroneGain dGain
          (withOscBank bank
             (withNoiseGain nGain (withNoiseFilter filter (refs c))))) c).

(** Core Synthesis logic for Profiles (dependencies [[profile]]).  [None]:
    the effect threw. *)
Definition profileEffect (c : Component) : option (Component * Cleanup) :=
  match audioCtxRef (refs c), noiseFilterRef (refs c),
        noiseGainRef (refs c), droneGainRef (refs c) with
  | Some ctx, Some filter, Some nGain, Some dGain =>
    let bank := oscBankRef (refs c) in
    if (length bank <? 3)%nat then Some (c, NoCleanup) else
    let now := currentTime ctx in
    (* Default transitions *)
    let filter := onFilterQ (setTargetAtTime 1 now 0.5) filter in
    let nGain := onGain (setTargetAtTime 0.5 now 0.5) nGain in
    let dGain := onGain (setTargetAtTime 0.2 now 0.5) dGain in
    let profile := profile (props c) in
    if (profile =? "Natural")%string then
      let filter := setFilterType lowpass filter in
      let filter := onFilterFrequency (setTargetAtTime 400 now 0.5) filter in
      let nGain := onGain (setTargetAtTime 0.6 now 0.5) nGain in
      bank ← bankSet 0 sine 120 now bank;
      bank ← bankSet 1 sine 180 now bank;
      bank ← bankSet 2 sine 60 now bank;
      let '(profileInterval, w) :=
        setInterval NaturalDrift 2000 (window c) in
      Some (commitProfile filter nGain bank dGain w c,
            ClearInterval (Some profileInterval))
    else if (profile =? "Industrial")%string then
      let filter := setFilterType bandpass filter in
      let filter := onFilterFrequency (setTargetAtTime 200 now 0.5) filter in
      let filter := onFilterQ (setTargetAtTime 8 now 0.5) filter in
      let nGain := onGain (setTargetAtTime 0.3 now 0.5) nGain in
      bank ← bankSet 0 square 50 now bank;
      bank ← bankSet 1 triangle 100 now bank;
      bank ← bankSet 2 sine 150 now bank;
      let '(profileInterval, w) :=
        setInterval IndustrialPulse 1000 (window c) in
      Some (commitProfile filter nGain bank dGain w c,
            ClearInterval (Some profileInterval))
    else if (profile =? "Void")%string then
      let filter := setFilterType lowpass filter in
      let filter := onFilterFrequency (setTargetAtTime 60 now 0.5) filter in
      let nGain := onGain (setTargetAtTime 0.1 now 0.5) nGain in
      bank ← bankSet 0 sine 32 now bank;
      bank ← bankSet 1 sine 48 now bank;
      bank ← bankSet 2 sine 24 now bank;
      Some (commitProfile filter nGain bank dGain (window c) c,
            ClearInterval None)
    else if (profile =? "Electronic")%string then
      let filter := setFilterType highpass filter in
      let filter := onFilterFrequency (setTargetAtTime 3000 now 0.5) filter in
      let nGain := onGain (setTargetAtTime 0.4 now 0.5) nGain in
      bank ← bankSet 0 sawtooth 440 now bank;
      bank ← bankSet 1 square 880 now bank;
      bank ← bankSet 2 sine 1760 now bank;
      let '(profileInterval, w) :=
        setInterval ElectronicGlitch 600 (window c) in
      Some (commitProfile filter nGain bank dGain w c,
            ClearInterval (Some profileInterval))
    else if (profile =? "Hostile")%string then
      let filter := setFilterType notch filter in
      let filter := onFilterFrequency (setTargetAtTime 1000 now 0.5) filter in
      let filter := onFilterQ (setTargetAtTime 4 now 0.5) filter in
      let nGain := onGain (setTargetAtTime 0.8 now 0.5) nGain in
      bank ← bankSet 0 sawtooth 40 now bank;
      bank ← bankSet 1 sawtooth 43 now bank;
      bank ← bankSet 2 square 21 now bank;
      let '(profileInterval, w) :=
        setInterval HostileJitter 50 (window c) in
      Some (commitProfile filter nGain bank dGain w c,
            ClearInterval (Some profileInterval))
    else
      Some (commitProfile filter nGain bank dGain (window c) c,
            ClearInterval None)
  | _, _, _, _ => Some (c, NoCleanup)
  end.

(** Calling what an effect returned. *)
Definition runCleanup (k : Cleanup) (c : Component) : Component :=
  match k with
  | ClearInterval (Some h) => withWindow (clearInterval h (window c)) c
  | ClearInterval None | NoCleanup => c
  end.

(** ** React: running the effects *)

Definition runStatusEffect (c : Component) : Component :=
  let '(c', k) := statusEffect c in withStatusCleanup k c'.

Definition runProfileEffect (c : Component) : option Component :=
  '(c', k) ← profileEffect c; Some (withProfileCleanup k c').

(** A render with new props.  Dependencies are compared as [Object.is]
    does; the cleanups of the effects whose dependency changed run first,
    then their bodies, in the order of the source. *)
Definition rerender (p' : AudioManagerProps) (c : Component)
  : option Component :=
  let p := props c in
  let mutedChanged := negb (Bool.eqb (isMuted p) (isMuted p')) in
  let scrollChanged := negb (Qeq_bool (scrollPos p) (scrollPos p')) in
  let statusChanged := negb (BotLockStatus_eqb (status p) (status p')) in
  let profileChanged := negb (String.eqb (profile p) (profile p')) in
  let c := withProps p' c in
  let c := if statusChanged then runCleanup (statusCleanup c) c else c in
  let c := if profileChanged then runCleanup (profileCleanup c) c else c in
  let c := if mutedChanged then muteEffect c else c in
  let c := if scrollChanged then panEffect c else c in
  let c := if statusChanged then runStatusEffect c else c in
  if profileChanged then runProfileEffect c else Some c.

Definition unmounted (p : AudioManagerProps) : Component :=
  {| props := p;
     refs := {| audioCtxRef := None; mainGainRef := None;
                noiseFilterRef := None; noiseGainRef := None;
                oscBankRef := []; droneGainRef := None;
                spatialPannerRef := None; alarmOscRef := None;
                alarmGainRef := None |};
     window := {| nextHandle := 1; intervals := ∅ |};
     statusCleanup := NoCleanup;
     profileCleanup := NoCleanup |}.

(** The first render: every effect runs, in the order of the source.  An
    effect that throws ends the render: React takes the component down
    and the effects after it do not run. *)
Definition mount (g : Globals) (p : AudioManagerProps) : option Component :=
  r ← constructEffect g p;
  let c := withRefs r (unmounted p) in
  let c := muteEffect c in
  let c := panEffect c in
  let c := runStatusEffect c in
  runProfileEffect c.

(** The control surface: a render that changes one prop. *)
Definition setProfile (x : string) (c : Component) : option Component :=
  rerender {| profile := x; status := status (props c);
              scrollPos := scrollPos (props c);
              isMuted := isMuted (props c) |} c.
Definition setStatus (x : BotLockStatus) (c : Component) : option Component :=
  rerender {| profile := profile (props c); status := x;
              scrollPos := scrollPos (props c);
              isMuted := isMuted (props c) |} c.
Definition setScrollPosition (x : Q) (c : Component) : option Component :=
  rerender {| profile := profile (props c); status := status (props c);
              scrollPos := x; isMuted := isMuted (props c) |} c.
Definition setMuted (x : bool) (c : Component) : option Component :=
  rerender {| profile := profile (props c); status := status (props c);
              scrollPos := scrollPos (props c); isMuted := x |} c.

(** The clock of the audio context only moves forward. *)
Definition elapse (dt : Q) (c : Component) : Component :=
  match audioCtxRef (refs c) with
  | Some ctx =>
      if Qle_bool 0 dt then
        withRefs
          (withAudioCtx {| currentTime := (currentTime ctx + dt)%Q |} (refs c))
          c
      else c
  | None => c
  end.

(** ** The periodic routines *)

Section Routines.

(** The getter [param.value]: the value the platform computes for the
    parameter, from its intrinsic value and its events, at a time of the
    context. *)
Variable computedValue : AudioParam -> Q -> Q.

(** The closure of the status effect. *)
Definition alarmSweepTick (c : Component) : Component :=
  match audioCtxRef (refs c), alarmOscRef (refs c) with
  | Some ctx, Some alarmOsc =>
      let time := currentTime ctx in
      let alarmOsc := onOscFrequency (setValueAtTime 880 time) alarmOsc in
      let alarmOsc :=
        onOscFrequency (exponentialRampToValueAtTime 440 (time + 0.4)%Q)
          alarmOsc in
      withRefs (withAlarmOsc alarmOsc (refs c)) c
  | _, _ => c
  end.

(** The closures of the profile effect work on the context and the nodes
    the effect had in hand, which are those behind the refs.  [rnd k] is
    what the k-th call of [Math.random] in the tick returned. *)
Definition naturalTick (rnd : nat -> Q) (c : Component) : Component :=
  match audioCtxRef (refs c), noiseFilterRef (refs c) with
  | Some ctx, Some filter =>
      let t := currentTime ctx in
      withRefs
        (withNoiseFilter
           (onFilterFrequency
              (exponentialRampToValueAtTime (200 + rnd 0%nat * 800)%Q
                 (t + 1.5)%Q) filter)
           (refs c)) c
  | _, _ => c
  end.

Definition industrialTick (c : Component) : Component :=
  match audioCtxRef (refs c), droneGainRef (refs c) with
  | Some ctx, Some dGain =>
      let t := currentTime ctx in
      let dGain := onGain (setValueAtTime 0.15 t) dGain in
      let dGain := onGain (linearRampToValueAtTime 0.25 (t + 0.1)%Q) dGain in
      let dGain := onGain (linearRampToValueAtTime 0.15 (t + 0.5)%Q) dGain in
      withRefs (withDroneGain dGain (refs c)) c
  | _, _ => c
  end.

(** [bank[z]] for the number [z] that [Math.floor] returned. *)
Definition bankAt (z : Z) (bank : list OscillatorNode) : option OscillatorNode :=
  if (z <? 0)%Z then None else bank !! Z.to_nat z.

(** [None]: the tick threw on [undefined.frequency], before any write. *)
Definition electronicTick (rnd : nat -> Q) (c : Component) : option Component :=
  match audioCtxRef (refs c) with
  | Some ctx =>
      let bank := oscBankRef (refs c) in
      let t := currentTime ctx in
      let slot := Qfloor (rnd 0%nat * 3)%Q in
      targetOsc ← bankAt slot bank;
      let originalFreq := computedValue (osc_frequency targetOsc) t in
      let targetOsc :=
        onOscFrequency (setValueAtTime (100 + rnd 1%nat * 5000)%Q t)
          targetOsc in
      let targetOsc :=
        onOscFrequency (setValueAtTime originalFreq (t + 0.05)%Q) targetOsc in
      Some (withRefs
              (withOscBank (<[Z.to_nat slot := targetOsc]> bank) (refs c)) c)
  | None => Some c
  end.

Definition hostileTick (rnd : nat -> Q) (c : Component) : Component :=
  match audioCtxRef (refs c) with
  | Some ctx =>
      let t := currentTime ctx in
      withRefs
        (withOscBank
           (imap (fun i osc =>
                    let current := computedValue (osc_frequency osc) t in
                    onOscFrequency
                      (setTargetAtTime (current + (rnd i - 0.5) * 20)%Q t 0.05)
                      osc)
              (oscBankRef (refs c)))
           (refs c)) c
  | None => c
  end.

(** A live interval fires.  An exception in a timer callback is reported
    and dropped by the event loop: the component stays as it was. *)
Definition fire (h : positive) (rnd : nat -> Q) (c : Component) : Component :=
  match intervals (window c) !! h with
  | Some iv =>
      match callback iv with
      | AlarmSweep => alarmSweepTick c
      | NaturalDrift => naturalTick rnd c
      | IndustrialPulse => industrialTick c
      | ElectronicGlitch => default c (electronicTick rnd c)
      | HostileJitter => hostileTick rnd c
      end
  | None => c
  end.

(** ** Histories of the mounted component *)

Inductive Action : Type :=
| SetProfile (x : string)
| SetStatus (x : BotLockStatus)
| SetScrollPosition (x : Q)
| SetMuted (x : bool)
| Fire (h : positive) (rnd : nat -> Q)
| Elapse (dt : Q).

Definition step (c : Component) (a : Action) : option Component :=
  match a with
  | SetProfile x => setProfile x c
  | SetStatus x => setStatus x c
  | SetScrollPosition x => setScrollPosition x c
  | SetMuted x => setMuted x c
  | Fire h rnd => Some (fire h rnd c)
  | Elapse dt => Some (elapse dt c)
  end.

Fixpoint run (c : Component) (acts : list Action) : option Component :=
  match acts with
  | [] => Some c
  | a :: acts => c' ← step c a; run c' acts
  end.

Definition reachable (c : Component) : Prop :=
  exists g p acts, (c0 ← mount g p; run c0 acts) = Some c.

End Routines.

(** ** The retry wrapper of the backend client *)

(** [s.includes(sub)]. *)
Definition includes (sub s : string) : bool :=
  match String.index 0 sub s with
  | Some _ => true
  | None => false
  end.

Inductive Outcome (E T : Type) : Type :=
| Resolved (v : T)
| Rejected (error : E).
Arguments Resolved {E T} v.
Arguments Rejected {E T} error.

(** What [withRetry] does to the world around it: calls of [fn], waits on
    [setTimeout], lines of [console.warn] (the delay and the attempts left
    that the line reports). *)
Record World : Type := {
  calls : nat;
  sleeps : list Z;
  warnings : list (Z * nat) }.

Definition called (w : World) : World :=
  {| calls := S (calls w); sleeps := sleeps w; warnings := warnings w |}.
Definition warned (delay : Z) (retries : nat) (w : World) : World :=
  {| calls := calls w; sleeps := sleeps w;
     warnings := warnings w ++ [(delay, retries)] |}.
Definition slept (delay : Z) (w : World) : World :=
  {| calls := calls w; sleeps := sleeps w ++ [delay];
     warnings := warnings w |}.

(** What the catch block finds behind [error.message?.includes(...)].  The
    caught value is of type [any]: it need not be an [Error].  Values whose
    message brings an [includes] of its own (an array, say) are left out. *)
Inductive MessageAccess : Type :=
| Unreadable         (* [error] is null or undefined: reading [.message]
                        throws a TypeError *)
| Absent             (* [error.message] is null or undefined: [?.] answers
                        undefined *)
| Text (m : string)  (* [error.message] is a string *)
| NotSearchable.     (* [error.message] is another value without a method
                        [includes], a number say: the call throws a
                        TypeError *)

(** What the promise of [withRetry] is rejected with. *)
Inductive Thrown (E : Type) : Type :=
| Original (error : E)      (* [throw error]: what [fn] was rejected with *)
| TypeErrorOn (error : E).  (* the TypeError raised in the catch block
                               while it read [error] *)
Arguments Original {E} error.
Arguments TypeErrorOn {E} error.

Section Retry.

Variables (E T : Type) (message : E -> MessageAccess).

(** The constant [isQuotaError] of the catch block; [None]: evaluating it
    throws. *)
Definition isQuotaError (error : E) : option bool :=
  match message error with
  | Unreadable | NotSearchable => None
  | Absent => Some false
  | Text m =>
      Some (includes "429" m || includes "quota" m || includes "EXHAUSTED" m)
  end.

(** [fn k] is how the call of [fn] made after [k] earlier calls settles.
    [retries] is a count of attempts left: [retries > 0] is the successor
    case, [retries - 1] its predecessor.  [isQuotaError] is evaluated
    before [retries] is looked at. *)
Fixpoint withRetry (fn : nat -> Outcome E T) (retries : nat) (delay : Z)
  (w : World) : World * Outcome (Thrown E) T :=
  let w1 := called w in
  match fn (calls w) with
  | Resolved v => (w1, Resolved v)
  | Rejected error =>
      match isQuotaError error with
      | None => (w1, Rejected (TypeErrorOn error))
      | Some quota =>
          match retries with
          | S retries' =>
              if quota then
                withRetry fn retries' (delay * 2)
                  (slept delay (warned delay retries w1))
              else (w1, Rejected (Original error))
          | O => (w1, Rejected (Original error))
          end
      end
  end.

(** The call with the default arguments [retries = 2], [delay = 2000]. *)
Definition withRetryDefault (fn : nat -> Outcome E T) (w : World)
  : World * Outcome (Thrown E) T :=
  withRetry fn 2 2000 w.

(** The waits of [n] retries in a row, starting from [delay]. *)
Fixpoint backoff (n : nat) (delay : Z) : list Z :=
  match n with
  | O => []
  | S n => delay :: backoff n (delay * 2)
  end.

(** What the catch block throws for an error that it does not retry, and
    what becomes of the outcome of an attempt that is not retried. *)
Definition rethrown (error : E) : Thrown E :=
  match isQuotaError error with
  | None => TypeErrorOn error
  | Some _ => Original error
  end.

Definition passedOn (o : Outcome E T) : Outcome (Thrown E) T :=
  match o with
  | Resolved v => Resolved v
  | Rejected error => Rejected (rethrown error)
  end.

End Retry.

Arguments isQuotaError {E} message error.
Arguments withRetry {E T} message fn retries delay w.
Arguments withRetryDefault {E T} message fn w.
Arguments rethrown {E} message error.
Arguments passedOn {E T} message o.

(** ** Reading the graph *)

Definition clock (c : Component) : Q :=
  from_option currentTime 0%Q (audioCtxRef (refs c)).
Definition masterGain (c : Component) : option AudioParam :=
  gain <$> mainGainRef (refs c).
Definition panning (c : Component) : option AudioParam :=
  pan <$> spatialPannerRef (refs c).
Definition noiseGain (c : Component) : option AudioParam :=
  gain <$> noiseGainRef (refs c).
Definition droneGain (c : Component) : option AudioParam :=
  gain <$> droneGainRef (refs c).
Definition alarmGain (c : Component) : option AudioParam :=
  gain <$> alarmGainRef (refs c).
Definition alarmFrequency (c : Component) : option AudioParam :=
  osc_frequency <$> alarmOscRef (refs c).
Definition filterType (c : Component) : option BiquadFilterType :=
  filter_type <$> noiseFilterRef (refs c).
Definition cutoff (c : Component) : option AudioParam :=
  filter_frequency <$> noiseFilterRef (refs c).
Definition resonance (c : Component) : option AudioParam :=
  filter_Q <$> noiseFilterRef (refs c).
Definition bankType (i : nat) (c : Component) : option OscillatorType :=
  osc_type <$> oscBankRef (refs c) !! i.
Definition bankFrequency (i : nat) (c : Component) : option AudioParam :=
  osc_frequency <$> oscBankRef (refs c) !! i.

(** The events scheduled on a parameter of the graph, and the target it
    was last sent to. *)
Definition scheduled (o : option AudioParam) : list AutomationEvent :=
  from_option events [] o.
Definition targetOf (o : option AudioParam) : option Q := o ≫= target.

(** Every parameter of the graph, in a fixed order. *)
Definition paramsOf (c : Component) : list (option AudioParam) :=
  [masterGain c; panning c; noiseGain c; droneGain c; alarmGain c;
   alarmFrequency c; cutoff c; resonance c]
  ++ map (fun o => Some (osc_frequency o)) (oscBankRef (refs c)).

(** [p'] is [p] with more events scheduled, all of them satisfying [P],
    and no direct write to the value. *)
Definition extendsBy (P : AutomationEvent -> Prop)
  (p p' : option AudioParam) : Prop :=
  (value <$> p') = (value <$> p) /\
  exists new, scheduled p' = scheduled p ++ new /\ Forall P new.

(** The graph is built: every ref is set and the bank holds its three
    oscillators. *)
Definition started (c : Component) : bool :=
  let r := refs c in
  bool_decide (is_Some (audioCtxRef r)) && bool_decide (is_Some (mainGainRef r))
  && bool_decide (is_Some (noiseFilterRef r))
  && bool_decide (is_Some (noiseGainRef r))
  && bool_decide (is_Some (droneGainRef r))
  && bool_decide (is_Some (spatialPannerRef r))
  && bool_decide (is_Some (alarmOscRef r))
  && bool_decide (is_Some (alarmGainRef r))
  && (length (oscBankRef r) =? 3)%nat.

(** The steady state a profile aims at: what the filter, the two gains and
    the bank are set or sent to. *)
Record Targets : Type := {
  t_filterType : option BiquadFilterType;
  t_cutoff : option Q;
  t_resonance : option Q;
  t_noiseGain : option Q;
  t_droneGain : option Q;
  t_bankTypes : list OscillatorType;
  t_bankFrequencies : list (option Q) }.

Definition targets (c : Component) : Targets :=
  {| t_filterType := filterType c;
     t_cutoff := targetOf (cutoff c);
     t_resonance := targetOf (resonance c);
     t_noiseGain := targetOf (noiseGain c);
     t_droneGain := targetOf (droneGain c);
     t_bankTypes := map osc_type (oscBankRef (refs c));
     t_bankFrequencies :=
       map (fun o => target (osc_frequency o)) (oscBankRef (refs c)) |}.

(** ** The table of profiles, as the specification words it (section 4.5) *)

Record ProfileRow : Type := {
  row_filter : BiquadFilterType;
  row_cutoff : Q;
  row_resonance : option Q;      (* a Q other than the baseline 1 *)
  row_noiseGain : Q;
  row_bank : list (OscillatorType * Q);
  row_routine : option Interval }.

Definition specTable (x : string) : option ProfileRow :=
  if (x =? "Natural")%string then
    Some {| row_filter := lowpass; row_cutoff := 400; row_resonance := None;
            row_noiseGain := 0.6;
            row_bank := [(sine, 120%Q); (sine, 180%Q); (sine, 60%Q)];
            row_routine := Some {| callback := NaturalDrift; delay := 2000 |} |}
  else if (x =? "Industrial")%string then
    Some {| row_filter := bandpass; row_cutoff := 200;
            row_resonance := Some 8%Q; row_noiseGain := 0.3;
            row_bank := [(square, 50%Q); (triangle, 100%Q); (sine, 150%Q)];
            row_routine :=
              Some {| callback := IndustrialPulse; delay := 1000 |} |}
  else if (x =? "Void")%string then
    Some {| row_filter := lowpass; row_cutoff := 60; row_resonance := None;
            row_noiseGain := 0.1;
            row_bank := [(sine, 32%Q); (sine, 48%Q); (sine, 24%Q)];
            row_routine := None |}
  else if (x =? "Electronic")%string then
    Some {| row_filter := highpass; row_cutoff := 3000; row_resonance := None;
            row_noiseGain := 0.4;
            row_bank := [(sawtooth, 440%Q); (square, 880%Q); (sine, 1760%Q)];
            row_routine :=
              Some {| callback := ElectronicGlitch; delay := 600 |} |}
  else if (x =? "Hostile")%string then
    Some {| row_filter := notch; row_cutoff := 1000;
            row_resonance := Some 4%Q; row_noiseGain := 0.8;
            row_bank := [(sawtooth, 40%Q); (sawtooth, 43%Q); (square, 21%Q)];
            row_routine := Some {| callback := HostileJitter; delay := 50 |} |}
  else None.

(** The periodic routine of a profile, none for 'Void' and for a string
    that is no profile. *)
Definition profileRoutine (x : string) : option Interval :=
  specTable x ≫= row_routine.

Definition alarmInterval : Interval :=
  {| callback := AlarmSweep; delay := 1000 |}.

(** The axis a routine belongs to. *)
Inductive Axis : Type := StatusAxis | ProfileAxis.

Definition axisOf (r : Routine) : Axis :=
  match r with
  | AlarmSweep => StatusAxis
  | NaturalDrift | IndustrialPulse | ElectronicGlitch | HostileJitter =>
      ProfileAxis
  end.

(** At most one live routine on an axis. *)
Definition atMostOneOn (a : Axis) (c : Component) : Prop :=
  forall h1 h2 i1 i2,
    intervals (window c) !! h1 = Some i1 ->
    intervals (window c) !! h2 = Some i2 ->
    axisOf (callback i1) = a -> axisOf (callback i2) = a -> h1 = h2.

(** A routine is live. *)
Definition live (i : Interval) (c : Component) : Prop :=
  exists h, intervals (window c) !! h = Some i.

(** ** Invariants of the mounted component *)

(** The timers agree with the effects that installed them.  [os] and [op]
    are the status and the profile the two effects last ran with, [None]
    between the cleanup of an effect and its next run. *)
Definition timersOk (os : option BotLockStatus) (op : option string)
  (c : Component) : Prop :=
  let m := intervals (window c) in
  (forall h i, m !! h = Some i -> (h < nextHandle (window c))%positive) /\
  (forall h i, m !! h = Some i -> axisOf (callback i) = StatusAxis ->
     os = Some OVERRIDE /\ statusCleanup c = ClearInterval (Some h) /\
     i = alarmInterval) /\
  (forall h i, m !! h = Some i -> axisOf (callback i) = ProfileAxis ->
     exists x, op = Some x /\ profileRoutine x = Some i /\
               profileCleanup c = ClearInterval (Some h)) /\
  (forall s, os = Some s ->
     if BotLockStatus_eqb s OVERRIDE
     then exists h, statusCleanup c = ClearInterval (Some h) /\
                    m !! h = Some alarmInterval
     else statusCleanup c = NoCleanup) /\
  (forall x, op = Some x ->
     match profileRoutine x with
     | Some i => exists h, profileCleanup c = ClearInterval (Some h) /\
                           m !! h = Some i
     | None => profileCleanup c = ClearInterval None
     end).

(** The master gain was last sent where [isMuted] says. *)
Definition muteOk (c : Component) : Prop :=
  exists t,
    last (scheduled (masterGain c))
    = Some (SetTarget (if isMuted (props c) then 0 else 0.4) t 0.1).

(** The pan was last sent where [scrollPos] says. *)
Definition panOk (c : Component) : Prop :=
  exists v t,
    last (scheduled (panning c)) = Some (SetTarget v t 0.1) /\
    (v == scrollPos (props c) / 50 - 1)%Q.

(** No event on a bank frequency lies more than 0.05 s ahead of the
    clock. *)
Definition bankTimesOk (c : Component) : Prop :=
  forall i p e, bankFrequency i c = Some p -> e ∈ events p ->
    (evTime e <= clock c + 0.05)%Q.

Definition wf (c : Component) : Prop :=
  started c = true /\
  timersOk (Some (status (props c))) (Some (profile (props c))) c /\
  muteOk c /\ panOk c /\ bankTimesOk c.

(** [Math.min(Math.max(x, lo), hi)], the clamp of the specification. *)
Definition clamp (x lo hi : Q) : Q :=
  if Qle_bool x lo then lo else if Qle_bool hi x then hi else x.

(** ** Concrete components and backends, for examples *)

(** A platform whose getter reports the intrinsic value. *)
Definition intrinsicValue (p : AudioParam) (t : Q) : Q := value p.

Definition electronicProps : AudioManagerProps :=
  {| profile := "Electronic"; status := UNLOCKED; scrollPos := 75;
     isMuted := false |}.

Definition hostileProps : AudioManagerProps :=
  {| profile := "Hostile"; status := OVERRIDE; scrollPos := 0;
     isMuted := false |}.

Definition voidProps : AudioManagerProps :=
  {| profile := "Void"; status := UNLOCKED; scrollPos := 50;
     isMuted := false |}.

(** A window that offers [AudioContext], whose constructor returns. *)
Definition modern : Globals :=
  {| window_AudioContext := Some Constructs;
     window_webkitAudioContext := None |}.

(** The component right after its first render with the given props. *)
Definition mounted (p : AudioManagerProps) : Component :=
  default (unmounted p) (mount modern p).

(** What each invariant looks at. *)
Definition timersOf (c : Component) : Window * Cleanup * Cleanup :=
  (window c, statusCleanup c, profileCleanup c).
Definition muteView (c : Component) : option AudioParam * bool :=
  (masterGain c, isMuted (props c)).
Definition panView (c : Component) : option AudioParam * Q :=
  (panning c, scrollPos (props c)).
Definition bankView (c : Component) : list OscillatorNode * Q :=
  (oscBankRef (refs c), clock c).

(** The bank frequencies of [c'] are those of [c] with more events, none
    later than 0.05 s after the clock of [c]. *)
Definition bankGrows (c c' : Component) : Prop :=
  forall i p', bankFrequency i c' = Some p' ->
    exists p new, bankFrequency i c = Some p /\
      events p' = events p ++ new /\
      Forall (fun e => (evTime e <= clock c + 0.05)%Q) new.

(** The invariant in the middle of a render: [os] and [op] as in
    [timersOk]; [mu] and [pa] tell whether the mute and the pan effects
    are up to date with the props. *)
Definition renderInv (os : option BotLockStatus) (op : option string)
  (mu pa : bool) (c : Component) : Prop :=
  started c = true /\ timersOk os op c /\
  (mu = true -> muteOk c) /\ (pa = true -> panOk c) /\ bankTimesOk c.

(** The profiles the [switch] of the profile effect knows. *)
Definition profileNames : list string :=
  ["Natural"; "Industrial"; "Void"; "Electronic"; "Hostile"]%string.

(** Between [c] and [c'] every parameter of the graph only gained events
    satisfying [P]. *)
Definition smoothStep (P : AutomationEvent -> Prop) (c c' : Component)
  : Prop :=
  Forall2 (extendsBy P) (paramsOf c) (paramsOf c').

(** A draw of [Math.random] that is 0, and a platform whose getter finds
    every parameter at 300. *)
Definition zeroDraws (k : nat) : Q := 0%Q.
Definition midGlide (p : AudioParam) (t : Q) : Q := 300%Q.

(** A backend that keeps answering with a rate-limit error whose message
    is the string itself. *)
Definition alwaysLimited (k : nat) : Outcome string nat :=
  Rejected "429 RESOURCE_EXHAUSTED"%string.

Definition idle : World := {| calls := 0; sleeps := []; warnings := [] |}.

(** ** The rest of [AudioManager]: the noise source and the teardown *)

(** [noiseNode.onaudioprocess], on the channel data of the output buffer,
    a [Float32Array]: a store rounds the number to single precision,
    [fround]; a store past the end is dropped.  [rnd i] is the draw of
    iteration [i]. *)
Definition bufferSize : nat := 4096.

Definition onaudioprocess (fround : Q -> Q) (rnd : nat -> Q)
  (output : list Q) : list Q :=
  foldl (fun out i => <[i := fround (rnd i * 2 - 1)%Q]> out) output
    (seq 0 bufferSize).

(** The component goes away: React calls what the effects returned, in the
    order of the effects: [ctx.close()] of the first effect, then the
    cleanups of the status and of the profile effect.  The mute and pan
    effects return nothing. *)
Record Teardown : Type := {
  remains : Component;
  closedContext : option AudioContext }.

Definition unmount (c : Component) : Teardown :=
  let ctx := audioCtxRef (refs c) in
  let c := runCleanup (statusCleanup c) c in
  let c := runCleanup (profileCleanup c) c in
  {| remains := c; closedContext := ctx |}.

(** The drone gain of [c'] is that of [c] with more events, none later
    than 0.5 s after the clock, which stands still. *)
Definition droneGrows (c c' : Component) : Prop :=
  clock c' = clock c /\
  forall p', droneGain c' = Some p' ->
    exists p new, droneGain c = Some p /\
      events p' = events p ++ new /\
      Forall (fun e => (evTime e <= clock c + 0.5)%Q) new.

(** No event on the drone gain lies more than 0.5 s ahead of the clock. *)
Definition droneTimesOk (c : Component) : Prop :=
  forall p e, droneGain c = Some p -> e ∈ events p ->
    (evTime e <= clock c + 0.5)%Q.

(** Between [c] and [c'] the alarm oscillator kept its waveform and the
    bank its size. *)
Definition sameAlarmShape (c c' : Component) : Prop :=
  (osc_type <$> alarmOscRef (refs c')) = (osc_type <$> alarmOscRef (refs c))
  /\ length (oscBankRef (refs c')) = length (oscBankRef (refs c)).

(** [sub] occurs in [s]. *)
Definition occursIn (sub s : string) : Prop :=
  exists pre post, s = (pre ++ sub ++ post)%string.

(** ** The backend client: the image request *)

(** An [Error], or another object, as far as the client reads it. *)
Record JsError : Type := { err_message : option string }.

(** What a promise is rejected with, as far as the catch block of
    [withRetry] can tell. *)
Inductive JsThrown : Type :=
| ThrownNullish              (* null or undefined *)
| ThrownError (e : JsError)  (* an object, its message a string or absent *)
| ThrownOdd.                 (* a value with a message of another kind *)

Definition messageOf (x : JsThrown) : MessageAccess :=
  match x with
  | ThrownNullish => Unreadable
  | ThrownError e =>
      match err_message e with
      | Some m => Text m
      | None => Absent
      end
  | ThrownOdd => NotSearchable
  end.

(** The part of a [GenerateContentResponse] that [generate360View]
    reads; every field is optional in the types of the client library. *)
Record InlineData : Type := { data : option string }.
Record Part : Type := { inlineData : option InlineData }.
Record Content : Type := { parts : option (list Part) }.
Record Candidate : Type := { content : option Content }.
Record GenerateContentResponse : Type := {
  candidates : option (list Candidate) }.

(** [response.candidates?.[0]?.content?.parts || []]. *)
Definition responseParts (response : GenerateContentResponse) : list Part :=
  default [] (cs ← candidates response; c ← cs !! 0%nat;
              ct ← content c; parts ct).

(** [`${x}`] for a string that may be [undefined]. *)
Definition interpolated (x : option string) : string :=
  default "undefined"%string x.

(** The loop over the parts: the first part with inline data wins. *)
Fixpoint firstInline (ps : list Part) : option string :=
  match ps with
  | [] => None
  | part :: ps =>
      match inlineData part with
      | Some d =>
          Some ("data:image/png;base64," ++ interpolated (data d))%string
      | None => firstInline ps
      end
  end.

(** The closure [generate360View] hands to [withRetry], after the answer
    of [generateContent] has arrived. *)
Definition imageOf (response : GenerateContentResponse)
  : Outcome JsThrown string :=
  match firstInline (responseParts response) with
  | Some url => Resolved url
  | None =>
      Rejected
        (ThrownError {| err_message := Some "No image data received"%string |})
  end.

(** [generate360View], from the call of [withRetry] on.  The request is
    the same at every attempt; [generateContent k] is how the backend
    settles the request made after [k] earlier ones. *)
Definition generate360View
  (generateContent : nat -> Outcome JsThrown GenerateContentResponse)
  (w : World) : World * Outcome (Thrown JsThrown) string :=
  withRetryDefault messageOf
    (fun k => match generateContent k with
              | Resolved response => imageOf response
              | Rejected error => Rejected error
              end) w.

(** The time spent waiting, and the attempts left that the warnings of
    [k] retries report, from a budget of [n]. *)
Definition totalWait (w : World) : Z := foldr Z.add 0%Z (sleeps w).

Fixpoint countdown (n k : nat) : list nat :=
  match k with
  | O => []
  | S k => n :: countdown (pred n) k
  end.

(** ** [BotInterface]: the event log *)

Definition statusMessage (s : BotLockStatus) : string :=
  match s with
  | UNLOCKED => "L-SYNC RELEASED: FREE MOTION"
  | SCANNING => "INITIATING SPATIAL SWEEP..."
  | LOCKED => "BODYLOCK ENGAGED: TARGET FIXED"
  | OVERRIDE => "CRITICAL: MANUAL OVERRIDE ACTIVE"
  end.

Definition initialLogs : list string :=
  ["System Initialized..."; "RAI Handshake: OK"]%string.

Definition logLine (timestamp : string) (s : BotLockStatus) : string :=
  ("[" ++ timestamp ++ "] " ++ statusMessage s)%string.

(** The effect on [status]: [setLogs(prev => [line, ...prev.slice(0, 3)])];
    [timestamp] is what the clock of the browser printed. *)
Definition logEffect (timestamp : string) (s : BotLockStatus)
  (prev : list string) : list string :=
  logLine timestamp s :: take 3 prev.

(** The log after the effect ran for each of [runs], oldest first. *)
Definition logsAfter (runs : list (string * BotLockStatus)) : list string :=
  foldl (fun logs run => logEffect run.1 run.2 logs) initialLogs runs.

(** ** Views for the independence of the controls *)

(** A component with other props, main gain and panner: what the mute
    and the scroll control make of a component. *)
Definition retouched (p' : AudioManagerProps) (g : GainNode)
  (n : StereoPannerNode) (c : Component) : Component :=
  withRefs (withSpatialPanner n (withMainGain g (refs c))) (withProps p' c).

(** The props with another profile. *)
Definition withProfile (x : string) (p : AudioManagerProps)
  : AudioManagerProps :=
  {| profile := x; status := status p; scrollPos := scrollPos p;
     isMuted := isMuted p |}.

(** ** More concrete components, for examples *)

Definition industrialProps : AudioManagerProps :=
  {| profile := "Industrial"; status := UNLOCKED; scrollPos := 50;
     isMuted := false |}.

Definition naturalProps : AudioManagerProps :=
  {| profile := "Natural"; status := LOCKED; scrollPos := 25;
     isMuted := true |}.

Definition halfDraws (k : nat) : Q := 0.5%Q.

(** A rounding to the nearest quarter: a grid that holds -1 and 1, as
    single precision does, coarse enough to compute with; and draws close
    to 1. *)
Definition roundToQuarter (q : Q) : Q :=
  Qred (inject_Z (Qfloor (q * 4 + 0.5)) / 4).

Definition nearlyOne (k : nat) : Q := 0.99%Q.

(** A call that is rejected without a reason: [reject()], [throw undefined]. *)
Definition rejectsWithUndefined (k : nat) : Outcome JsThrown nat :=
  Rejected ThrownNullish.

(** An answer whose second part carries the image. *)
Definition imageAnswer : GenerateContentResponse :=
  let image := {| inlineData := Some {| data := Some "QUJD"%string |} |} in
  {| candidates :=
       Some [{| content :=
                  Some {| parts :=
                            Some [{| inlineData := None |}; image] |} |}] |}.

(** * Properties *)

(** ** Opening a started component *)

Lemma started_inv c :
  started c = true ->
  exists ctx mg nf ng b0 b1 b2 dg sp ao ag,
    refs c = {| audioCtxRef := Some ctx; mainGainRef := Some mg;
                noiseFilterRef := Some nf; noiseGainRef := Some ng;
                oscBankRef := [b0; b1; b2]; droneGainRef := Some dg;
                spatialPannerRef := Some sp; alarmOscRef := Some ao;
                alarmGainRef := Some ag |}.
Proof.
  unfold started. destruct (refs c) as [ctx mg nf ng bank dg sp ao ag]; simpl.
  intros H. repeat (apply andb_prop in H; destruct H as [H ?]).
  repeat match goal with
         | H : bool_decide (is_Some ?x) = true |- _ =>
             apply bool_decide_eq_true in H; destruct H as [? ->]
         end.
  destruct bank as [|b0 [|b1 [|b2 [|]]]]; try discriminate.
  repeat eexists.
Qed.

(** Opening a started component down to its nodes. *)
Ltac open_started c H :=
  let E := fresh "E" in
  destruct (started_inv c H) as
    (ctx & mg & nf & ng & b0 & b1 & b2 & dg & sp & ao & ag & E);
  destruct c as [props0 refs0 w0 sk0 pk0]; simpl in E; subst refs0.

Ltac unfold_writes :=
  unfold commitProfile, withProfileCleanup, withStatusCleanup, withWindow,
    withRefs, withProps, withAudioCtx, withMainGain, withNoiseFilter,
    withNoiseGain, withOscBank, withDroneGain, withSpatialPanner,
    withAlarmOsc, withAlarmGain in *;
  cbv beta iota delta
    [refs props window statusCleanup profileCleanup audioCtxRef mainGainRef
     noiseFilterRef noiseGainRef oscBankRef droneGainRef spatialPannerRef
     alarmOscRef alarmGainRef] in *;
  cbn in *.

Ltac open_component c :=
  destruct c as [p [ctx mg nf ng bank dg sp ao ag] w sk pk].

Lemma withProps_frame p' c :
  timersOf (withProps p' c) = timersOf c /\
  masterGain (withProps p' c) = masterGain c /\
  panning (withProps p' c) = panning c /\
  bankView (withProps p' c) = bankView c /\
  started (withProps p' c) = started c /\
  props (withProps p' c) = p'.
Proof. repeat split. Qed.

Lemma runCleanup_frame k c :
  props (runCleanup k c) = props c /\
  refs (runCleanup k c) = refs c /\
  statusCleanup (runCleanup k c) = statusCleanup c /\
  profileCleanup (runCleanup k c) = profileCleanup c.
Proof. destruct k as [|[h|]]; repeat split. Qed.

Lemma muteEffect_frame c :
  props (muteEffect c) = props c /\
  timersOf (muteEffect c) = timersOf c /\
  panView (muteEffect c) = panView c /\
  bankView (muteEffect c) = bankView c /\
  started (muteEffect c) = started c.
Proof.
  open_component c. unfold muteEffect; simpl.
  destruct mg, ctx; repeat split.
Qed.

Lemma panEffect_frame c :
  props (panEffect c) = props c /\
  timersOf (panEffect c) = timersOf c /\
  muteView (panEffect c) = muteView c /\
  bankView (panEffect c) = bankView c /\
  started (panEffect c) = started c.
Proof.
  open_component c. unfold panEffect; simpl.
  destruct sp, ctx; repeat split.
Qed.

Lemma runStatusEffect_frame c :
  props (runStatusEffect c) = props c /\
  profileCleanup (runStatusEffect c) = profileCleanup c /\
  muteView (runStatusEffect c) = muteView c /\
  panView (runStatusEffect c) = panView c /\
  bankView (runStatusEffect c) = bankView c /\
  started (runStatusEffect c) = started c.
Proof.
  open_component c. unfold runStatusEffect, statusEffect; simpl.
  destruct ctx, ag, ao; simpl; try (repeat split; fail).
  destruct (BotLockStatus_eqb _ _); repeat split.
Qed.

(** The shape of the status effect on a started component. *)
Lemma runStatusEffect_timers c :
  started c = true ->
  if BotLockStatus_eqb (status (props c)) OVERRIDE then
    window (runStatusEffect c)
    = snd (setInterval AlarmSweep 1000 (window c)) /\
    statusCleanup (runStatusEffect c)
    = ClearInterval (Some (nextHandle (window c)))
  else
    window (runStatusEffect c) = window c /\
    statusCleanup (runStatusEffect c) = NoCleanup.
Proof.
  intros H. open_started c H. unfold runStatusEffect, statusEffect; simpl.
  destruct (BotLockStatus_eqb _ _); split; reflexivity.
Qed.

Lemma profileRoutine_cases x :
  (x = "Natural"%string /\ profileRoutine x = Some {| callback := NaturalDrift; delay := 2000 |}) \/
  (x = "Industrial"%string /\ profileRoutine x = Some {| callback := IndustrialPulse; delay := 1000 |}) \/
  (x = "Void"%string /\ profileRoutine x = None) \/
  (x = "Electronic"%string /\ profileRoutine x = Some {| callback := ElectronicGlitch; delay := 600 |}) \/
  (x = "Hostile"%string /\ profileRoutine x = Some {| callback := HostileJitter; delay := 50 |}) \/
  (specTable x = None /\ profileRoutine x = None).
Proof.
  unfold profileRoutine, specTable.
  destruct (String.eqb_spec x "Natural"); [subst; auto 10|].
  destruct (String.eqb_spec x "Industrial"); [subst; auto 10|].
  destruct (String.eqb_spec x "Void"); [subst; auto 10|].
  destruct (String.eqb_spec x "Electronic"); [subst; auto 10|].
  destruct (String.eqb_spec x "Hostile"); [subst; auto 10|].
  auto 10.
Qed.

Lemma runProfileEffect_shape c :
  started c = true ->
  exists c', runProfileEffect c = Some c' /\
    props c' = props c /\
    statusCleanup c' = statusCleanup c /\
    muteView c' = muteView c /\
    panView c' = panView c /\
    clock c' = clock c /\
    started c' = true /\
    match profileRoutine (profile (props c)) with
    | Some i =>
        window c' = snd (setInterval (callback i) (delay i) (window c)) /\
        profileCleanup c' = ClearInterval (Some (nextHandle (window c)))
    | None => window c' = window c /\ profileCleanup c' = ClearInterval None
    end.
Proof.
  intros H. open_started c H.
  unfold runProfileEffect, profileEffect, profileRoutine, specTable; simpl.
  repeat (case_match; simpl;
          [eexists; split; [reflexivity|]; repeat split|]).
  eexists; split; [reflexivity|]; repeat split.
Qed.

Lemma profileRoutine_axis x i :
  profileRoutine x = Some i -> axisOf (callback i) = ProfileAxis.
Proof.
  destruct (profileRoutine_cases x) as [[_ E]|[[_ E]|[[_ E]|[[_ E]|[[_ E]|[_ E]]]]]];
    rewrite E; intros; simplify_eq; reflexivity.
Qed.

Lemma timersOk_ext os op c c' :
  timersOf c' = timersOf c -> timersOk os op c -> timersOk os op c'.
Proof.
  unfold timersOf, timersOk. intros E. simplify_eq.
  rewrite H, H0, H1. done.
Qed.

Ltac split_timersOk := split; [|split; [|split; [|split]]].

Lemma timersOk_cleanup_status s op c :
  timersOk (Some s) op c ->
  timersOk None op (runCleanup (statusCleanup c) c).
Proof.
  intros (Hlt & Hs & Hp & Hos & Hop).
  specialize (Hos s eq_refl).
  destruct (BotLockStatus_eqb s OVERRIDE) eqn:Es.
  - destruct Hos as (h & Hk & Hh). rewrite Hk. unfold timersOk; simpl.
    split_timersOk.
    + intros h' i [_ Hi]%lookup_delete_Some. eauto.
    + intros h' i [Hne Hi]%lookup_delete_Some Hax. exfalso.
      destruct (Hs _ _ Hi Hax) as (_ & Hk' & _). congruence.
    + intros h' i [_ Hi]%lookup_delete_Some Hax. eauto.
    + discriminate.
    + intros x Hx. specialize (Hop x Hx).
      destruct (profileRoutine x) as [i|] eqn:Ei; [|done].
      destruct Hop as (h' & Hk' & Hi). exists h'. split; [done|].
      apply lookup_delete_Some. split; [|done].
      intros ->. rewrite Hh in Hi. simplify_eq.
      by apply profileRoutine_axis in Ei.
  - rewrite Hos. unfold timersOk; simpl. split_timersOk; eauto.
    + intros h i Hi Hax. exfalso.
      destruct (Hs _ _ Hi Hax) as (Ho & _). by simplify_eq.
    + discriminate.
Qed.

Lemma timersOk_cleanup_profile os x c :
  timersOk os (Some x) c ->
  timersOk os None (runCleanup (profileCleanup c) c).
Proof.
  intros (Hlt & Hs & Hp & Hos & Hop).
  specialize (Hop x eq_refl).
  destruct (profileRoutine x) as [i|] eqn:Ei.
  - destruct Hop as (h & Hk & Hh). rewrite Hk. unfold timersOk; simpl.
    pose proof (profileRoutine_axis _ _ Ei) as Hax.
    split_timersOk.
    + intros h' i' [_ Hi]%lookup_delete_Some. eauto.
    + intros h' i' [Hne Hi]%lookup_delete_Some Hax'. eauto.
    + intros h' i' [Hne Hi]%lookup_delete_Some Hax'. exfalso.
      destruct (Hp _ _ Hi Hax') as (x' & _ & _ & Hk'). congruence.
    + intros s Hs'. specialize (Hos s Hs').
      destruct (BotLockStatus_eqb s OVERRIDE); [|done].
      destruct Hos as (h' & Hk' & Hi). exists h'. split; [done|].
      apply lookup_delete_Some. split; [|done].
      intros ->. rewrite Hh in Hi. by simplify_eq.
    + discriminate.
  - rewrite Hop. unfold timersOk; simpl. split_timersOk; eauto.
    + intros h i Hi Hax. exfalso.
      destruct (Hp _ _ Hi Hax) as (x' & Hx' & Er & _). simplify_eq.
    + discriminate.
Qed.

Lemma timersOk_status_effect op c :
  started c = true -> timersOk None op c ->
  timersOk (Some (status (props c))) op (runStatusEffect c).
Proof.
  intros Hst (Hlt & Hs & Hp & Hos & Hop).
  pose proof (runStatusEffect_timers c Hst) as Hshape.
  destruct (runStatusEffect_frame c) as (_ & Hpk & _).
  unfold timersOk. rewrite Hpk.
  destruct (BotLockStatus_eqb (status (props c)) OVERRIDE) eqn:Es;
    destruct Hshape as [-> ->]; simpl.
  - assert (status (props c) = OVERRIDE) as ->
        by (destruct (status (props c)); done).
    split_timersOk.
    + intros h i [[<- _]|[_ Hi]]%lookup_insert_Some; [lia|].
      apply Hlt in Hi. lia.
    + intros h i [[<- <-]|[_ Hi]]%lookup_insert_Some Hax; [done|].
      destruct (Hs _ _ Hi Hax) as (? & _); discriminate.
    + intros h i [[<- <-]|[_ Hi]]%lookup_insert_Some Hax; [discriminate|].
      eauto.
    + intros s [= <-]. simpl. eexists. split; [done|].
      apply lookup_insert_eq.
    + intros x Hx. specialize (Hop x Hx).
      destruct (profileRoutine x) as [i|]; [|done].
      destruct Hop as (h & Hk & Hi). exists h. split; [done|].
      apply lookup_insert_Some. right. split; [|done].
      apply Hlt in Hi. lia.
  - split_timersOk; eauto.
    + intros h i Hi Hax. destruct (Hs _ _ Hi Hax) as (? & _); discriminate.
    + intros s [= <-]. rewrite Es. done.
Qed.

Lemma timersOk_profile_effect os c c' :
  started c = true -> timersOk os None c ->
  runProfileEffect c = Some c' ->
  timersOk os (Some (profile (props c))) c'.
Proof.
  intros Hst (Hlt & Hs & Hp & Hos & Hop) Hrun.
  destruct (runProfileEffect_shape c Hst)
    as (c'' & Hrun' & _ & Hsk & _ & _ & _ & _ & Hshape).
  rewrite Hrun in Hrun'. simplify_eq.
  unfold timersOk. rewrite Hsk.
  destruct (profileRoutine (profile (props c))) as [i0|] eqn:Er;
    destruct Hshape as [-> ->]; simpl.
  - pose proof (profileRoutine_axis _ _ Er) as Hax0.
    assert ({| callback := callback i0; delay := delay i0 |} = i0) as ->
        by (destruct i0; done).
    split_timersOk.
    + intros h i [[<- _]|[_ Hi]]%lookup_insert_Some; [lia|].
      apply Hlt in Hi. lia.
    + intros h i [[<- <-]|[_ Hi]]%lookup_insert_Some Hax; [congruence|].
      eauto.
    + intros h i [[<- <-]|[_ Hi]]%lookup_insert_Some Hax; [eauto|].
      destruct (Hp _ _ Hi Hax) as (? & ? & _); discriminate.
    + intros s Hs'. specialize (Hos s Hs').
      destruct (BotLockStatus_eqb s OVERRIDE); [|done].
      destruct Hos as (h & Hk & Hi). exists h. split; [done|].
      apply lookup_insert_Some. right. split; [|done].
      apply Hlt in Hi. lia.
    + intros x [= <-]. rewrite Er. eexists. split; [done|].
      apply lookup_insert_eq.
  - split_timersOk; eauto.
    + intros h i Hi Hax. destruct (Hp _ _ Hi Hax) as (? & ? & _); discriminate.
    + intros x [= <-]. rewrite Er. done.
Qed.

(** *** The mute, pan and bank invariants *)

Lemma muteOk_ext c c' : muteView c' = muteView c -> muteOk c -> muteOk c'.
Proof. unfold muteView, muteOk. intros [= -> ->]. done. Qed.

Lemma panOk_ext c c' : panView c' = panView c -> panOk c -> panOk c'.
Proof. unfold panView, panOk. intros [= -> ->]. done. Qed.

Lemma muteOk_effect c : started c = true -> muteOk (muteEffect c).
Proof.
  intros H. open_started c H. unfold muteOk, muteEffect; simpl.
  eexists. apply last_snoc.
Qed.

Lemma panOk_effect c : started c = true -> panOk (panEffect c).
Proof.
  intros H. open_started c H. unfold panOk, panEffect; simpl.
  eexists _, _. split; [apply last_snoc|reflexivity].
Qed.

Lemma bankGrows_refl c c' :
  oscBankRef (refs c') = oscBankRef (refs c) -> bankGrows c c'.
Proof.
  intros E i p' Hp. unfold bankFrequency in *. rewrite E in Hp.
  exists p', []. rewrite app_nil_r. auto.
Qed.

Lemma bankTimesOk_grows c c' :
  bankGrows c c' -> (clock c <= clock c')%Q -> bankTimesOk c ->
  bankTimesOk c'.
Proof.
  intros Hg Hc Hok i p' e Hp He.
  destruct (Hg i p' Hp) as (p & new & Hp0 & Hev & Hnew).
  rewrite Hev in He. apply elem_of_app in He as [He|He].
  - specialize (Hok i p e Hp0 He). lra.
  - rewrite Forall_forall in Hnew. specialize (Hnew e He). simpl in Hnew. lra.
Qed.

Lemma bankTimesOk_ext c c' :
  bankView c' = bankView c -> bankTimesOk c -> bankTimesOk c'.
Proof.
  unfold bankView. intros [= Hb Hc].
  apply bankTimesOk_grows; [by apply bankGrows_refl|]. rewrite Hc. lra.
Qed.

Lemma runProfileEffect_bank c c' :
  started c = true -> runProfileEffect c = Some c' -> bankGrows c c'.
Proof.
  intros H Hrun. open_started c H. destruct props0 as [x st q m].
  assert (forall f, Forall (fun e => (evTime e <= currentTime ctx + 0.05)%Q)
                      [SetTarget f (currentTime ctx) 0.5]) as Hone.
  { intros f. constructor; [simpl; lra|constructor]. }
  unfold runProfileEffect, profileEffect in Hrun.
  cbn [props refs profile audioCtxRef noiseFilterRef noiseGainRef
       droneGainRef oscBankRef length Nat.ltb Nat.leb] in Hrun.
  repeat (destruct (String.eqb x _);
          [cbn in Hrun; injection Hrun as <-;
           intros [|[|[|i]]] p' Hp; unfold bankFrequency, clock in *;
           cbn in *; simplify_eq;
           eexists _, _; (split; [reflexivity|]);
           (split; [reflexivity|]); apply Hone|]).
  cbn in Hrun; injection Hrun as <-.
  intros [|[|[|i]]] p' Hp; unfold bankFrequency, clock in *;
    cbn in *; simplify_eq;
    eexists _, []; (split; [reflexivity|]);
    (split; [by rewrite app_nil_r|constructor]).
Qed.

(** *** The ticks and the clock *)

Section TickFrames.
Variable computedValue : AudioParam -> Q -> Q.

Lemma electronicTick_bank rnd (c c' : Component) :
  electronicTick computedValue rnd c = Some c' ->
  bankGrows c c' /\ clock c' = clock c /\
  length (oscBankRef (refs c')) = length (oscBankRef (refs c)).
Proof.
  open_component c. unfold electronicTick.
  cbn [refs audioCtxRef oscBankRef].
  destruct ctx as [ctx|]; [|intros [= <-]; split;
                             [by apply bankGrows_refl|done]].
  set (slot := Qfloor (rnd 0%nat * 3)).
  destruct (bankAt slot bank) as [osc|] eqn:Ek; cbn [mbind option_bind];
    [|discriminate].
  intros [= <-]. unfold bankAt in Ek.
  destruct (Z.ltb_spec slot 0); [discriminate|].
  set (k := Z.to_nat slot) in *. clearbody k. clear slot H.
  unfold_writes. split; [|split; [done|apply length_insert]].
  intros i p' Hp. unfold bankFrequency in *; cbn in *.
  destruct (decide (i = k)) as [->|Hne].
  - rewrite list_lookup_insert_eq in Hp by (by eapply lookup_lt_Some).
    cbn in Hp. simplify_eq. rewrite Ek. cbn.
    eexists _, _. split; [reflexivity|]. split.
    + rewrite <- app_assoc. reflexivity.
    + repeat constructor; cbn; lra.
  - rewrite list_lookup_insert_ne in Hp by done.
    destruct (bank !! i) as [o|]; cbn in Hp; simplify_eq. cbn.
    eexists _, []. split; [reflexivity|]. split;
      [by rewrite app_nil_r|constructor].
Qed.

Lemma hostileTick_bank rnd c :
  bankGrows c (hostileTick computedValue rnd c) /\
  clock (hostileTick computedValue rnd c) = clock c /\
  length (oscBankRef (refs (hostileTick computedValue rnd c)))
  = length (oscBankRef (refs c)).
Proof.
  open_component c. unfold hostileTick; simpl.
  destruct ctx as [ctx|]; simpl; [|split; [by apply bankGrows_refl|done]].
  split; [|split; [done|apply length_imap]].
  intros i p' Hp. unfold bankFrequency in *; simpl in *.
  rewrite list_lookup_imap in Hp.
  destruct (bank !! i) as [o|]; cbn in *; simplify_eq.
  eexists _, [_]. split; [reflexivity|]. split; [reflexivity|].
  repeat constructor; cbn; lra.
Qed.

Lemma fire_frame h rnd c :
  let c' := fire computedValue h rnd c in
  props c' = props c /\ timersOf c' = timersOf c /\
  muteView c' = muteView c /\ panView c' = panView c /\
  clock c' = clock c /\ started c' = started c /\ bankGrows c c'.
Proof.
  unfold fire. destruct (intervals (window c) !! h) as [iv|];
    [|simpl; repeat split; by apply bankGrows_refl].
  destruct (callback iv).
  - open_component c. unfold alarmSweepTick; simpl.
    destruct ctx, ao; simpl; repeat split; by apply bankGrows_refl.
  - open_component c. unfold naturalTick; simpl.
    destruct ctx, nf; simpl; repeat split; by apply bankGrows_refl.
  - open_component c. unfold industrialTick; simpl.
    destruct ctx, dg; simpl; repeat split; by apply bankGrows_refl.
  - destruct (electronicTick computedValue rnd c) as [c'|] eqn:E; simpl;
      [|repeat split; by apply bankGrows_refl].
    destruct (electronicTick_bank _ _ _ E) as (Hg & Hc & Hl).
    split; [|split; [|split; [|split; [|split; [done|split; [|done]]]]]].
    all: open_component c; unfold electronicTick in E; simpl in *;
      destruct ctx; simpl in *; simplify_option_eq; try done.
    unfold started; simpl in *. rewrite Hl. done.
  - destruct (hostileTick_bank rnd c) as (Hg & Hc & Hl).
    split; [|split; [|split; [|split; [|split; [done|split; [|done]]]]]].
    all: open_component c; unfold hostileTick in *; simpl in *;
      destruct ctx; simpl in *; try done.
    unfold started; simpl in *. rewrite Hl. done.
Qed.

End TickFrames.

Lemma elapse_frame dt c :
  props (elapse dt c) = props c /\ timersOf (elapse dt c) = timersOf c /\
  muteView (elapse dt c) = muteView c /\ panView (elapse dt c) = panView c /\
  oscBankRef (refs (elapse dt c)) = oscBankRef (refs c) /\
  started (elapse dt c) = started c /\
  (clock c <= clock (elapse dt c))%Q.
Proof.
  open_component c. unfold elapse, clock; simpl.
  destruct ctx as [ctx|]; simpl; [|repeat split; lra].
  destruct (Qle_bool 0 dt) eqn:E; simpl; repeat split; try lra.
  apply Qle_bool_iff in E. lra.
Qed.

(** *** A render keeps the invariant *)

Lemma wf_renderInv c :
  wf c <->
  renderInv (Some (status (props c))) (Some (profile (props c))) true true c.
Proof. unfold wf, renderInv. intuition. Qed.

Lemma renderInv_props p' c :
  wf c ->
  renderInv (Some (status (props c))) (Some (profile (props c)))
    (Bool.eqb (isMuted (props c)) (isMuted p'))
    (Qeq_bool (scrollPos (props c)) (scrollPos p'))
    (withProps p' c).
Proof.
  intros (Hst & Ht & Hm & Hp & Hb). split; [done|].
  split; [eapply timersOk_ext; [|done]; done|].
  split; [|split].
  - intros E%Bool.eqb_prop. destruct Hm as [t Hm]. exists t.
    simpl. rewrite <- E. done.
  - intros E%Qeq_bool_iff. destruct Hp as (v & t & Hl & Hv).
    exists v, t. split; [done|]. simpl. rewrite <- E. done.
  - eapply bankTimesOk_ext; [|done]. done.
Qed.

Lemma renderInv_cleanup_status s op mu pa c :
  renderInv (Some s) op mu pa c ->
  renderInv None op mu pa (runCleanup (statusCleanup c) c).
Proof.
  intros (Hst & Ht & Hm & Hp & Hb).
  destruct (runCleanup_frame (statusCleanup c) c) as (Hpr & Hr & _).
  split; [unfold started; by rewrite Hr|].
  split; [by eapply timersOk_cleanup_status|].
  split; [|split].
  - intros E. eapply muteOk_ext; [|by apply Hm].
    unfold muteView, masterGain. by rewrite Hr, Hpr.
  - intros E. eapply panOk_ext; [|by apply Hp].
    unfold panView, panning. by rewrite Hr, Hpr.
  - eapply bankTimesOk_ext; [|done]. unfold bankView, clock. by rewrite Hr.
Qed.

Lemma renderInv_cleanup_profile os x mu pa c :
  renderInv os (Some x) mu pa c ->
  renderInv os None mu pa (runCleanup (profileCleanup c) c).
Proof.
  intros (Hst & Ht & Hm & Hp & Hb).
  destruct (runCleanup_frame (profileCleanup c) c) as (Hpr & Hr & _).
  split; [unfold started; by rewrite Hr|].
  split; [by eapply timersOk_cleanup_profile|].
  split; [|split].
  - intros E. eapply muteOk_ext; [|by apply Hm].
    unfold muteView, masterGain. by rewrite Hr, Hpr.
  - intros E. eapply panOk_ext; [|by apply Hp].
    unfold panView, panning. by rewrite Hr, Hpr.
  - eapply bankTimesOk_ext; [|done]. unfold bankView, clock. by rewrite Hr.
Qed.

Lemma renderInv_mute os op mu pa c :
  renderInv os op mu pa c -> renderInv os op true pa (muteEffect c).
Proof.
  intros (Hst & Ht & Hm & Hp & Hb).
  destruct (muteEffect_frame c) as (Hpr & Hti & Hpa & Hba & Hs).
  split; [by rewrite Hs|].
  split; [by eapply timersOk_ext|].
  split; [intros _; by apply muteOk_effect|].
  split; [intros E; eapply panOk_ext; eauto|].
  by eapply bankTimesOk_ext.
Qed.

Lemma renderInv_pan os op mu pa c :
  renderInv os op mu pa c -> renderInv os op mu true (panEffect c).
Proof.
  intros (Hst & Ht & Hm & Hp & Hb).
  destruct (panEffect_frame c) as (Hpr & Hti & Hmu & Hba & Hs).
  split; [by rewrite Hs|].
  split; [by eapply timersOk_ext|].
  split; [intros E; eapply muteOk_ext; eauto|].
  split; [intros _; by apply panOk_effect|].
  by eapply bankTimesOk_ext.
Qed.

Lemma renderInv_status op mu pa c :
  renderInv None op mu pa c ->
  renderInv (Some (status (props c))) op mu pa (runStatusEffect c).
Proof.
  intros (Hst & Ht & Hm & Hp & Hb).
  destruct (runStatusEffect_frame c) as (Hpr & Hpk & Hmu & Hpa & Hba & Hs).
  split; [by rewrite Hs|].
  split; [by apply timersOk_status_effect|].
  split; [intros E; eapply muteOk_ext; eauto|].
  split; [intros E; eapply panOk_ext; eauto|].
  by eapply bankTimesOk_ext.
Qed.

Lemma renderInv_profile os mu pa c :
  renderInv os None mu pa c ->
  exists c', runProfileEffect c = Some c' /\ props c' = props c /\
    renderInv os (Some (profile (props c))) mu pa c'.
Proof.
  intros (Hst & Ht & Hm & Hp & Hb).
  destruct (runProfileEffect_shape c Hst)
    as (c' & Hrun & Hpr & Hsk & Hmu & Hpa & Hcl & Hs & _).
  exists c'. split; [done|]. split; [done|].
  split; [done|].
  split; [by eapply timersOk_profile_effect|].
  split; [intros E; eapply muteOk_ext; eauto|].
  split; [intros E; eapply panOk_ext; eauto|].
  apply (bankTimesOk_grows c c'); [by apply runProfileEffect_bank| |done].
  rewrite Hcl. lra.
Qed.

Lemma BotLockStatus_eqb_eq a b : BotLockStatus_eqb a b = true <-> a = b.
Proof. destruct a, b; simpl; split; congruence. Qed.

Lemma renderInv_mute_if (b : bool) os op mu pa c :
  renderInv os op mu pa c ->
  props (if b then muteEffect c else c) = props c /\
  renderInv os op (mu || b) pa (if b then muteEffect c else c).
Proof.
  intros H. destruct b.
  - split; [apply muteEffect_frame|]. rewrite orb_true_r.
    by eapply renderInv_mute.
  - by rewrite orb_false_r.
Qed.

Lemma renderInv_pan_if (b : bool) os op mu pa c :
  renderInv os op mu pa c ->
  props (if b then panEffect c else c) = props c /\
  renderInv os op mu (pa || b) (if b then panEffect c else c).
Proof.
  intros H. destruct b.
  - split; [apply panEffect_frame|]. rewrite orb_true_r.
    by eapply renderInv_pan.
  - by rewrite orb_false_r.
Qed.

Lemma rerender_wf p' c :
  wf c -> exists c', rerender p' c = Some c' /\ props c' = p' /\ wf c'.
Proof.
  intros Hwf. unfold rerender. cbv zeta.
  pose proof (renderInv_props p' c Hwf) as H0.
  assert (props (withProps p' c) = p') as P0 by done.
  set (c0 := withProps p' c) in *. clearbody c0.
  set (mC := negb (Bool.eqb (isMuted (props c)) (isMuted p'))).
  set (scC := negb (Qeq_bool (scrollPos (props c)) (scrollPos p'))).
  assert (forall os op c1, props c1 = p' ->
            renderInv os op (Bool.eqb (isMuted (props c)) (isMuted p'))
              (Qeq_bool (scrollPos (props c)) (scrollPos p')) c1 ->
            let c2 := if scC then panEffect (if mC then muteEffect c1 else c1)
                      else (if mC then muteEffect c1 else c1) in
            props c2 = p' /\ renderInv os op true true c2) as Hmid.
  { intros os op c1 P1 H1.
    destruct (renderInv_mute_if mC _ _ _ _ _ H1) as (P2 & H2).
    destruct (renderInv_pan_if scC _ _ _ _ _ H2) as (P3 & H3).
    unfold mC, scC in *. rewrite !orb_negb_r in H3.
    split; [congruence|done]. }
  clearbody mC scC.
  destruct (BotLockStatus_eqb (status (props c)) (status p')) eqn:Es;
    destruct (String.eqb_spec (profile (props c)) (profile p')) as [Ep|Ep];
    cbn [negb].
  - apply BotLockStatus_eqb_eq in Es. rewrite Es, Ep in H0.
    destruct (Hmid _ _ _ P0 H0) as (P2 & H2).
    eexists. split; [done|]. split; [done|].
    rewrite wf_renderInv, P2. done.
  - apply BotLockStatus_eqb_eq in Es. rewrite Es in H0.
    apply renderInv_cleanup_profile in H0.
    assert (props (runCleanup (profileCleanup c0) c0) = p') as P1
        by (rewrite <- P0; apply runCleanup_frame).
    destruct (Hmid _ _ _ P1 H0) as (P2 & H2).
    destruct (renderInv_profile _ _ _ _ H2) as (c3 & Hrun & P3 & H3).
    exists c3. split; [done|]. split; [congruence|].
    rewrite wf_renderInv. rewrite P3, P2. rewrite P2 in H3. done.
  - rewrite Ep in H0. apply renderInv_cleanup_status in H0.
    assert (props (runCleanup (statusCleanup c0) c0) = p') as P1
        by (rewrite <- P0; apply runCleanup_frame).
    destruct (Hmid _ _ _ P1 H0) as (P2 & H2).
    apply renderInv_status in H2.
    eexists. split; [done|].
    assert (forall c, props (runStatusEffect c) = props c) as P3
        by (intros; apply runStatusEffect_frame).
    split; [by rewrite P3|].
    rewrite wf_renderInv. rewrite P3, P2. rewrite P2 in H2. done.
  - apply renderInv_cleanup_status in H0.
    assert (props (runCleanup (statusCleanup c0) c0) = p') as P1
        by (rewrite <- P0; apply runCleanup_frame).
    set (c1 := runCleanup (statusCleanup c0) c0) in *. clearbody c1.
    apply renderInv_cleanup_profile in H0.
    assert (props (runCleanup (profileCleanup c1) c1) = p') as P1'
        by (rewrite <- P1; apply runCleanup_frame).
    destruct (Hmid _ _ _ P1' H0) as (P2 & H2).
    apply renderInv_status in H2.
    assert (forall c, props (runStatusEffect c) = props c) as P3
        by (intros; apply runStatusEffect_frame).
    destruct (renderInv_profile _ _ _ _ H2) as (c3 & Hrun & P4 & H3).
    exists c3. split; [done|]. split; [by rewrite P4, P3|].
    rewrite wf_renderInv. rewrite P4, P3, P2. rewrite P3, P2 in H3. done.
Qed.

(** The first render on a window that gives a context, and on one that
    does not. *)
Lemma mount_unfold g p :
  AudioContextClass g = Some Constructs ->
  mount g p =
  runProfileEffect
    (runStatusEffect
       (panEffect (muteEffect (withRefs (graphOf p) (unmounted p))))).
Proof. intros E. unfold mount, constructEffect. by rewrite E. Qed.

Lemma mount_Some g p c :
  mount g p = Some c -> AudioContextClass g = Some Constructs.
Proof.
  unfold mount, constructEffect.
  by destruct (AudioContextClass g) as [[]|].
Qed.

Lemma mount_wf g p :
  AudioContextClass g = Some Constructs ->
  exists c, mount g p = Some c /\ props c = p /\ wf c.
Proof.
  intros Hg. rewrite (mount_unfold g p Hg).
  set (c0 := withRefs (graphOf p) (unmounted p)).
  assert (renderInv None None false false c0) as H0.
  { split; [reflexivity|]. split; [|split; [done|split; [done|]]].
    - unfold timersOk; simpl. split_timersOk; try done.
    - intros [|[|[|i]]] q e Hq He; unfold bankFrequency in Hq;
        simpl in Hq; simplify_eq; simpl in He; by apply elem_of_nil in He. }
  assert (props c0 = p) as P0 by done. clearbody c0.
  apply renderInv_mute in H0.
  assert (props (muteEffect c0) = p) as P1
      by (rewrite <- P0; apply muteEffect_frame).
  set (c1 := muteEffect c0) in *. clearbody c1.
  apply renderInv_pan in H0.
  assert (props (panEffect c1) = p) as P2
      by (rewrite <- P1; apply panEffect_frame).
  set (c2 := panEffect c1) in *. clearbody c2.
  apply renderInv_status in H0.
  assert (props (runStatusEffect c2) = p) as P3
      by (rewrite <- P2; apply runStatusEffect_frame).
  set (c3 := runStatusEffect c2) in *. clearbody c3.
  destruct (renderInv_profile _ _ _ _ H0) as (c4 & Hrun & P4 & H4).
  exists c4. split; [done|]. split; [congruence|].
  rewrite wf_renderInv. rewrite P4, P3. rewrite P2, P3 in H4. done.
Qed.

Section Histories.
Variable computedValue : AudioParam -> Q -> Q.

Lemma fire_wf h rnd c : wf c -> wf (fire computedValue h rnd c).
Proof.
  intros (Hst & Ht & Hm & Hp & Hb).
  destruct (fire_frame computedValue h rnd c)
    as (Hpr & Hti & Hmu & Hpa & Hcl & Hs & Hg).
  split; [by rewrite Hs|]. rewrite Hpr.
  split; [by eapply timersOk_ext|].
  split; [by eapply muteOk_ext|].
  split; [by eapply panOk_ext|].
  apply (bankTimesOk_grows c _); [done| |done]. rewrite Hcl. lra.
Qed.

Lemma elapse_wf dt c : wf c -> wf (elapse dt c).
Proof.
  intros (Hst & Ht & Hm & Hp & Hb).
  destruct (elapse_frame dt c) as (Hpr & Hti & Hmu & Hpa & Hba & Hs & Hcl).
  split; [by rewrite Hs|]. rewrite Hpr.
  split; [by eapply timersOk_ext|].
  split; [by eapply muteOk_ext|].
  split; [by eapply panOk_ext|].
  apply (bankTimesOk_grows c _); [by apply bankGrows_refl|done|done].
Qed.

Lemma step_wf c a :
  wf c -> exists c', step computedValue c a = Some c' /\ wf c'.
Proof.
  intros Hwf. destruct a as [x|x|x|x|h rnd|dt]; simpl.
  - destruct (rerender_wf {| profile := x; status := status (props c);
                              scrollPos := scrollPos (props c);
                              isMuted := isMuted (props c) |} c Hwf)
      as (c' & ? & _ & ?). eauto.
  - destruct (rerender_wf {| profile := profile (props c); status := x;
                              scrollPos := scrollPos (props c);
                              isMuted := isMuted (props c) |} c Hwf)
      as (c' & ? & _ & ?). eauto.
  - destruct (rerender_wf {| profile := profile (props c);
                              status := status (props c);
                              scrollPos := x;
                              isMuted := isMuted (props c) |} c Hwf)
      as (c' & ? & _ & ?). eauto.
  - destruct (rerender_wf {| profile := profile (props c);
                              status := status (props c);
                              scrollPos := scrollPos (props c);
                              isMuted := x |} c Hwf)
      as (c' & ? & _ & ?). eauto.
  - eauto using fire_wf.
  - eauto using elapse_wf.
Qed.

Lemma run_wf acts : forall c,
  wf c -> exists c', run computedValue c acts = Some c' /\ wf c'.
Proof.
  induction acts as [|a acts IH]; intros c Hwf; simpl; [eauto|].
  destruct (step_wf c a Hwf) as (c1 & -> & Hwf1). simpl. eauto.
Qed.

(** Every history of the mounted component runs to its end, and ends in a
    well-formed component. *)
Lemma history_total g p acts :
  AudioContextClass g = Some Constructs ->
  exists c, (c0 ← mount g p; run computedValue c0 acts) = Some c.
Proof.
  intros Hg. destruct (mount_wf g p Hg) as (c0 & -> & _ & Hwf). simpl.
  destruct (run_wf acts c0 Hwf) as (c & ? & _). eauto.
Qed.

Lemma reachable_wf c : reachable computedValue c -> wf c.
Proof.
  intros (g & p & acts & H).
  destruct (mount g p) as [c0|] eqn:E; [|done]. simpl in H.
  destruct (mount_wf g p (mount_Some g p c0 E)) as (c1 & E1 & _ & Hwf).
  assert (c1 = c0) as -> by congruence.
  destruct (run_wf acts c0 Hwf) as (c' & E' & Hwf'). congruence.
Qed.

End Histories.

(** ** Mute and scroll position *)

(** *** The control surface, one prop at a time *)

Lemma Qeq_bool_refl' q : Qeq_bool q q = true.
Proof. apply Qeq_bool_iff. reflexivity. Qed.

Lemma BotLockStatus_eqb_refl s : BotLockStatus_eqb s s = true.
Proof. by destruct s. Qed.

Lemma setMuted_unfold m c :
  setMuted m c =
  Some (let c0 := withProps {| profile := profile (props c);
                               status := status (props c);
                               scrollPos := scrollPos (props c);
                               isMuted := m |} c in
        if Bool.eqb (isMuted (props c)) m then c0 else muteEffect c0).
Proof.
  unfold setMuted, rerender; simpl.
  rewrite Qeq_bool_refl', BotLockStatus_eqb_refl, String.eqb_refl; simpl.
  by destruct (Bool.eqb _ _).
Qed.

Lemma setScrollPosition_unfold x c :
  setScrollPosition x c =
  Some (let c0 := withProps {| profile := profile (props c);
                               status := status (props c);
                               scrollPos := x;
                               isMuted := isMuted (props c) |} c in
        if Qeq_bool (scrollPos (props c)) x then c0 else panEffect c0).
Proof.
  unfold setScrollPosition, rerender; simpl.
  rewrite Bool.eqb_reflx, BotLockStatus_eqb_refl, String.eqb_refl; simpl.
  by destruct (Qeq_bool _ _).
Qed.

Lemma setStatus_unfold x c :
  setStatus x c =
  Some (let c0 := withProps {| profile := profile (props c);
                               status := x;
                               scrollPos := scrollPos (props c);
                               isMuted := isMuted (props c) |} c in
        if BotLockStatus_eqb (status (props c)) x then c0
        else runStatusEffect (runCleanup (statusCleanup c0) c0)).
Proof.
  unfold setStatus, rerender; simpl.
  rewrite Bool.eqb_reflx, Qeq_bool_refl', String.eqb_refl; simpl.
  by destruct (BotLockStatus_eqb _ _).
Qed.

Lemma setProfile_unfold x c :
  setProfile x c =
  let c0 := withProps {| profile := x;
                         status := status (props c);
                         scrollPos := scrollPos (props c);
                         isMuted := isMuted (props c) |} c in
  if String.eqb (profile (props c)) x then Some c0
  else runProfileEffect (runCleanup (profileCleanup c0) c0).
Proof.
  unfold setProfile, rerender; simpl.
  rewrite Bool.eqb_reflx, Qeq_bool_refl', BotLockStatus_eqb_refl; simpl.
  by destruct (String.eqb _ _).
Qed.

Lemma withProps_same c : withProps (props c) c = c.
Proof. by destruct c. Qed.

Lemma target_setTargetAtTime v t tc p :
  target (setTargetAtTime v t tc p) = Some v.
Proof. unfold target; simpl. by rewrite last_snoc. Qed.

Lemma rerender_same c : rerender (props c) c = Some c.
Proof.
  unfold rerender.
  rewrite Bool.eqb_reflx, Qeq_bool_refl', BotLockStatus_eqb_refl,
    String.eqb_refl. simpl. by rewrite withProps_same.
Qed.

Lemma rerender_twice p' c c' :
  wf c -> rerender p' c = Some c' -> rerender p' c' = Some c'.
Proof.
  intros Hwf H. destruct (rerender_wf p' c Hwf) as (c'' & H' & Hp & _).
  rewrite H in H'. simplify_eq. apply rerender_same.
Qed.

Section MuteAndScroll.
Variable computedValue : AudioParam -> Q -> Q.

(** C6.  [setMuted m] leaves the master gain last sent, by a smoothed
    approach of time constant 0.1, toward 0 when [m] and toward 0.4
    otherwise; it schedules that approach when [m] differs from the flag
    held; called again with the same [m] it changes nothing; and muting
    then unmuting leaves the target at 0.4 whatever the profile. *)
Theorem mute_control c :
  reachable computedValue c ->
  (forall m, exists c',
     setMuted m c = Some c' /\
     (exists t, last (scheduled (masterGain c'))
                = Some (SetTarget (if m then 0 else 0.4) t 0.1)) /\
     (isMuted (props c) <> m ->
      scheduled (masterGain c')
      = scheduled (masterGain c)
        ++ [SetTarget (if m then 0 else 0.4) (clock c) 0.1]) /\
     setMuted m c' = Some c') /\
  (exists c1 c2,
     setMuted true c = Some c1 /\ setMuted false c1 = Some c2 /\
     targetOf (masterGain c2) = Some 0.4%Q).
Proof.
  intros Hwf%reachable_wf.
  assert (forall d m, wf d -> exists d',
            setMuted m d = Some d' /\ wf d' /\ isMuted (props d') = m /\
            (exists t, last (scheduled (masterGain d'))
                       = Some (SetTarget (if m then 0 else 0.4) t 0.1)) /\
            (isMuted (props d) <> m ->
             scheduled (masterGain d')
             = scheduled (masterGain d)
               ++ [SetTarget (if m then 0 else 0.4) (clock d) 0.1]) /\
            setMuted m d' = Some d') as Hstep.
  { intros d m Hd.
    destruct (rerender_wf {| profile := profile (props d);
                             status := status (props d);
                             scrollPos := scrollPos (props d);
                             isMuted := m |} d Hd) as (d' & Hd' & Hp & Hwf').
    exists d'. split; [done|]. split; [done|].
    split; [by rewrite Hp|]. split; [|split].
    - destruct Hwf' as (_ & _ & [t Ht] & _). exists t.
      rewrite Hp in Ht. done.
    - intros Hne. pose proof (setMuted_unfold m d) as E.
      unfold setMuted in E. rewrite Hd' in E. simplify_eq.
      destruct (Bool.eqb_spec (isMuted (props d)) m) as [|_]; [done|].
      destruct Hd as (Hst & _). open_started d Hst. reflexivity.
    - unfold setMuted. rewrite Hp. simpl.
      rewrite <- Hp. by apply rerender_same. }
  split.
  - intros m. destruct (Hstep c m Hwf) as (c' & ? & _ & _ & ? & ? & ?).
    eauto.
  - destruct (Hstep c true Hwf) as (c1 & H1 & Hwf1 & Hm1 & _).
    destruct (Hstep c1 false Hwf1) as (c2 & H2 & _ & _ & _ & Hev & _).
    exists c1, c2. split; [done|]. split; [done|].
    rewrite Hm1 in Hev. specialize (Hev ltac:(done)).
    unfold targetOf. destruct (masterGain c2) as [g|]; simpl in *.
    + unfold target. rewrite Hev, last_snoc. done.
    + by destruct (scheduled (masterGain c1)).
Qed.

(** C2, as amended.  After [setScrollPosition p] the pan was last sent, by
    a smoothed approach of time constant 0.1, toward [p / 50 - 1], which
    the component does not clamp; for [p] between 0 and 100 this is the
    clamped value, -1 at 0, 0 at 50 and 1 at 100; and when [p] differs
    from the position held, exactly that approach is scheduled, for any
    [p]. *)
Theorem scroll_sets_linear_target c p :
  reachable computedValue c ->
  exists c' v t,
    setScrollPosition p c = Some c' /\
    last (scheduled (panning c')) = Some (SetTarget v t 0.1) /\
    (v == p / 50 - 1)%Q /\
    ((0 <= p)%Q -> (p <= 100)%Q -> (v == clamp (p / 50 - 1) (-1) 1)%Q) /\
    ((p == 0)%Q -> (v == -1)%Q) /\
    ((p == 50)%Q -> (v == 0)%Q) /\
    ((p == 100)%Q -> (v == 1)%Q) /\
    (~ (scrollPos (props c) == p)%Q ->
     scheduled (panning c')
     = scheduled (panning c) ++ [SetTarget (p / 50 - 1)%Q (clock c) 0.1]).
Proof.
  intros Hwf%reachable_wf.
  destruct (rerender_wf {| profile := profile (props c);
                           status := status (props c);
                           scrollPos := p;
                           isMuted := isMuted (props c) |} c Hwf)
    as (c' & Hc' & Hp & Hwf').
  destruct Hwf' as (_ & _ & _ & (v & t & Hl & Hv) & _).
  rewrite Hp in Hv. simpl in Hv.
  exists c', v, t. split; [done|]. split; [done|]. split; [done|].
  split; [|split; [|split; [|split]]].
  - intros H0 H100. unfold clamp.
    assert (50 * (p / 50) == p)%Q as Hdiv by (by apply Qmult_div_r).
    destruct (Qle_bool (p / 50 - 1) (-1)) eqn:E1.
    { apply Qle_bool_iff in E1. lra. }
    destruct (Qle_bool 1 (p / 50 - 1)) eqn:E2; [|done].
    apply Qle_bool_iff in E2. lra.
  - intros E. rewrite Hv, E. reflexivity.
  - intros E. rewrite Hv, E. reflexivity.
  - intros E. rewrite Hv, E. reflexivity.
  - intros Hne. pose proof (setScrollPosition_unfold p c) as E.
    unfold setScrollPosition in E. rewrite Hc' in E. simplify_eq.
    destruct (Qeq_bool (scrollPos (props c)) p) eqn:Eq.
    { apply Qeq_bool_iff in Eq. done. }
    destruct Hwf as (Hst & _). open_started c Hst. reflexivity.
Qed.

End MuteAndScroll.

(** C2 as stated fails: at scroll position 150 the target handed to the
    panner is 2, not the clamped 1. *)
Lemma scroll_target_not_clamped :
  exists c',
    setScrollPosition 150 (mounted electronicProps) = Some c' /\
    targetOf (panning c') = Some (150 / 50 - 1)%Q /\
    ~ (150 / 50 - 1 == clamp (150 / 50 - 1) (-1) 1)%Q.
Proof.
  eexists. split; [vm_compute; reflexivity|]. split; [reflexivity|].
  vm_compute. discriminate.
Qed.

Lemma scroll_sets_linear_target_witness :
  reachable intrinsicValue (mounted electronicProps) /\
  exists c' v t,
    setScrollPosition 100 (mounted electronicProps) = Some c' /\
    last (scheduled (panning c')) = Some (SetTarget v t 0.1) /\
    (v == 1)%Q.
Proof.
  assert (reachable intrinsicValue (mounted electronicProps)) as H
      by (exists modern, electronicProps, []; reflexivity).
  split; [exact H|].
  destruct (scroll_sets_linear_target intrinsicValue _ 100 H)
    as (c' & v & t & E & Hl & _ & _ & _ & _ & H100 & _).
  exists c', v, t. split; [exact E|]. split; [exact Hl|].
  apply H100. reflexivity.
Defined.

(** ** Status and the live routines *)

Lemma wf_live c i :
  wf c ->
  live i c <->
  (status (props c) = OVERRIDE /\ i = alarmInterval) \/
  profileRoutine (profile (props c)) = Some i.
Proof.
  intros (_ & (Hlt & Hs & Hp & Hos & Hop) & _). split.
  - intros [h Hh]. destruct (axisOf (callback i)) eqn:Hax.
    + destruct (Hs _ _ Hh Hax) as (E & _ & ->). left. by simplify_eq.
    + destruct (Hp _ _ Hh Hax) as (x & E & Hr & _). right. by simplify_eq.
  - intros [[E ->]|Hr].
    + specialize (Hos _ eq_refl). rewrite E in Hos. simpl in Hos.
      destruct Hos as (h & _ & Hh). by exists h.
    + specialize (Hop _ eq_refl). rewrite Hr in Hop.
      destruct Hop as (h & _ & Hh). by exists h.
Qed.

Lemma wf_atMostOne c a : wf c -> atMostOneOn a c.
Proof.
  intros (_ & (Hlt & Hs & Hp & Hos & Hop) & _) h1 h2 i1 i2 H1 H2 A1 A2.
  destruct a.
  - destruct (Hs _ _ H1 A1) as (_ & E1 & _).
    destruct (Hs _ _ H2 A2) as (_ & E2 & _). congruence.
  - destruct (Hp _ _ H1 A1) as (? & _ & _ & E1).
    destruct (Hp _ _ H2 A2) as (? & _ & _ & E2). congruence.
Qed.

Section StatusAndTimers.
Variable computedValue : AudioParam -> Q -> Q.

(** C4.  In every component reached from the first render by calls of the
    control surface, ticks and the passing of time, at most one routine of
    the profile axis and at most one of the status axis are live; the live
    routines are exactly the sweep when the status is OVERRIDE and the
    routine of the profile; with profile 'Hostile' and status OVERRIDE the
    50 ms jitter and the 1000 ms sweep are both live. *)
Theorem one_routine_per_axis c :
  reachable computedValue c ->
  atMostOneOn ProfileAxis c /\ atMostOneOn StatusAxis c /\
  (forall i, live i c <->
     (status (props c) = OVERRIDE /\ i = alarmInterval) \/
     profileRoutine (profile (props c)) = Some i) /\
  (profile (props c) = "Hostile"%string -> status (props c) = OVERRIDE ->
   live {| callback := HostileJitter; delay := 50 |} c /\
   live alarmInterval c).
Proof.
  intros Hwf%reachable_wf.
  split; [by apply wf_atMostOne|]. split; [by apply wf_atMostOne|].
  split; [intros i; by apply wf_live|].
  intros Hp Hs. split; apply wf_live; try done.
  - right. rewrite Hp. reflexivity.
  - by left.
Qed.

(** C3.  A transition of the status to OVERRIDE schedules an approach of
    the alarm gain toward 0.1 and installs a routine of period 1000 ms
    whose tick writes 880 on the alarm frequency and ramps it
    exponentially to 440 over 0.4 s; a transition to any other status
    schedules an approach of the alarm gain toward 0 and leaves no sweep
    routine live.  The profile routines are not touched. *)
Theorem status_transition c s :
  reachable computedValue c -> status (props c) <> s ->
  exists c',
    setStatus s c = Some c' /\
    (forall i, axisOf (callback i) = ProfileAxis -> live i c' <-> live i c) /\
    (s = OVERRIDE ->
     scheduled (alarmGain c')
     = scheduled (alarmGain c) ++ [SetTarget 0.1 (clock c) 0.1] /\
     intervals (window c')
     = <[nextHandle (window c) := alarmInterval]> (intervals (window c)) /\
     live alarmInterval c' /\
     forall rnd d,
       started d = true ->
       intervals (window d) !! nextHandle (window c) = Some alarmInterval ->
       scheduled (alarmFrequency
                    (fire computedValue (nextHandle (window c)) rnd d))
       = scheduled (alarmFrequency d)
         ++ [SetValue 880 (clock d);
             ExponentialRamp 440 (clock d + 0.4)%Q]) /\
    (s <> OVERRIDE ->
     scheduled (alarmGain c')
     = scheduled (alarmGain c) ++ [SetTarget 0 (clock c) 0.2] /\
     ~ live alarmInterval c').
Proof.
  intros Hwf%reachable_wf Hne.
  destruct (rerender_wf {| profile := profile (props c); status := s;
                           scrollPos := scrollPos (props c);
                           isMuted := isMuted (props c) |} c Hwf)
    as (c' & Hc' & Hp & Hwf').
  exists c'. split; [done|].
  pose proof (setStatus_unfold s c) as E. unfold setStatus in E.
  rewrite Hc' in E. cbv zeta in E.
  destruct (BotLockStatus_eqb (status (props c)) s) eqn:Es.
  { by apply BotLockStatus_eqb_eq in Es. }
  split; [|split].
  - intros i Hax. rewrite !wf_live by done. rewrite Hp. simpl.
    split; (intros [[_ ->]|?]; [done|by right]).
  - intros ->.
    assert (statusCleanup c = NoCleanup) as Hk.
    { destruct Hwf as (_ & (_ & _ & _ & Hos & _) & _).
      specialize (Hos _ eq_refl). by rewrite Es in Hos. }
    assert (live alarmInterval c') as Hlive
        by (apply wf_live; [done|]; left; by rewrite Hp).
    split; [|split; [|split; [done|]]].
    + destruct Hwf as (Hst & _). open_started c Hst. simpl in *.
      subst sk0. by simplify_eq.
    + destruct Hwf as (Hst & _). open_started c Hst. simpl in *.
      subst sk0. by simplify_eq.
    + intros rnd d Hd Hh. unfold fire. rewrite Hh. simpl.
      open_started d Hd.
      unfold scheduled, alarmFrequency, alarmSweepTick, clock; cbn.
      by rewrite <- app_assoc.
  - intros Hs.
    split.
    + destruct Hwf as (Hst & _). open_started c Hst. simpl in *.
      simplify_eq. unfold runStatusEffect, statusEffect.
      destruct sk0 as [|[h|]], s; try done.
    + rewrite wf_live by done. rewrite Hp. simpl. intros [[? _]|Hr]; [done|].
      by apply profileRoutine_axis in Hr.
Qed.

End StatusAndTimers.

(** ** The profile effect against the table *)

Lemma targetOf_scheduled o l v t tc :
  scheduled o = l ++ [SetTarget v t tc] -> targetOf o = Some v.
Proof.
  destruct o as [p|]; simpl.
  - intros E. unfold target. by rewrite E, last_snoc.
  - by destruct l.
Qed.

Lemma targetOf_scheduled2 o l e v t tc :
  scheduled o = l ++ [e; SetTarget v t tc] -> targetOf o = Some v.
Proof.
  intros E. apply (targetOf_scheduled o (l ++ [e]) v t tc).
  by rewrite <- app_assoc.
Qed.

(** The profile effect on a started component, against the table. *)
Lemma runProfileEffect_table c row :
  started c = true -> specTable (profile (props c)) = Some row ->
  exists c', runProfileEffect c = Some c' /\
    scheduled (resonance c')
    = scheduled (resonance c)
      ++ SetTarget 1 (clock c) 0.5
         :: match row_resonance row with
            | Some q => [SetTarget q (clock c) 0.5]
            | None => []
            end /\
    scheduled (noiseGain c')
    = scheduled (noiseGain c)
      ++ [SetTarget 0.5 (clock c) 0.5;
          SetTarget (row_noiseGain row) (clock c) 0.5] /\
    scheduled (droneGain c')
    = scheduled (droneGain c) ++ [SetTarget 0.2 (clock c) 0.5] /\
    filterType c' = Some (row_filter row) /\
    scheduled (cutoff c')
    = scheduled (cutoff c) ++ [SetTarget (row_cutoff row) (clock c) 0.5] /\
    (forall i ty f, row_bank row !! i = Some (ty, f) ->
       bankType i c' = Some ty /\
       scheduled (bankFrequency i c')
       = scheduled (bankFrequency i c) ++ [SetTarget f (clock c) 0.5]).
Proof.
  intros H Hrow. open_started c H. destruct props0 as [x st q m].
  simpl in Hrow. unfold specTable in Hrow. revert Hrow.
  unfold runProfileEffect, profileEffect.
  cbn [props refs profile audioCtxRef noiseFilterRef noiseGainRef
       droneGainRef oscBankRef length Nat.ltb Nat.leb].
  repeat (destruct (String.eqb x _);
          [intros Hrow; simplify_eq; eexists; split; [reflexivity|];
           unfold scheduled, resonance, noiseGain, droneGain, filterType,
             cutoff, bankType, bankFrequency, clock; cbn;
           rewrite <- ?app_assoc;
           repeat split; try reflexivity;
           match goal with
           | Hl : _ !! ?i = Some _ |- _ =>
               destruct i as [|[|[|?]]]; cbn in Hl; simplify_eq; reflexivity
           end|]).
  discriminate.
Qed.



(** The profile effect on a started component whose profile is not in the
    table. *)
Lemma runProfileEffect_unknown c :
  started c = true -> specTable (profile (props c)) = None ->
  exists c', runProfileEffect c = Some c' /\
    scheduled (resonance c')
    = scheduled (resonance c) ++ [SetTarget 1 (clock c) 0.5] /\
    scheduled (noiseGain c')
    = scheduled (noiseGain c) ++ [SetTarget 0.5 (clock c) 0.5] /\
    scheduled (droneGain c')
    = scheduled (droneGain c) ++ [SetTarget 0.2 (clock c) 0.5] /\
    filterType c' = filterType c /\ cutoff c' = cutoff c /\
    oscBankRef (refs c') = oscBankRef (refs c) /\
    masterGain c' = masterGain c /\ panning c' = panning c /\
    alarmGain c' = alarmGain c /\ alarmFrequency c' = alarmFrequency c /\
    window c' = window c /\ profileCleanup c' = ClearInterval None.
Proof.
  intros H Hrow. open_started c H. destruct props0 as [x st q m].
  simpl in Hrow. unfold specTable in Hrow. revert Hrow.
  unfold runProfileEffect, profileEffect.
  cbn [props refs profile audioCtxRef noiseFilterRef noiseGainRef
       droneGainRef oscBankRef length Nat.ltb Nat.leb].
  repeat (destruct (String.eqb x _); [discriminate|]).
  intros _. eexists. split; [reflexivity|]. repeat split.
Qed.

Lemma specTable_None x : x ∉ profileNames <-> specTable x = None.
Proof.
  unfold profileNames, specTable. rewrite !not_elem_of_cons.
  destruct (String.eqb_spec x "Natural");
    [split; [tauto|discriminate]|].
  destruct (String.eqb_spec x "Industrial");
    [split; [tauto|discriminate]|].
  destruct (String.eqb_spec x "Void");
    [split; [tauto|discriminate]|].
  destruct (String.eqb_spec x "Electronic");
    [split; [tauto|discriminate]|].
  destruct (String.eqb_spec x "Hostile");
    [split; [tauto|discriminate]|].
  split; [done|]. intros _. repeat split; try done. apply not_elem_of_nil.
Qed.

Lemma profile_dispatch x :
  x = "Natural"%string \/ x = "Industrial"%string \/ x = "Void"%string \/
  x = "Electronic"%string \/ x = "Hostile"%string \/
  ((x =? "Natural")%string = false /\ (x =? "Industrial")%string = false /\
   (x =? "Void")%string = false /\ (x =? "Electronic")%string = false /\
   (x =? "Hostile")%string = false).
Proof.
  destruct (String.eqb_spec x "Natural"); [tauto|].
  destruct (String.eqb_spec x "Industrial"); [tauto|].
  destruct (String.eqb_spec x "Void"); [tauto|].
  destruct (String.eqb_spec x "Electronic"); [tauto|].
  destruct (String.eqb_spec x "Hostile"); [tauto|].
  tauto.
Qed.

Lemma specTable_bank x row :
  specTable x = Some row ->
  exists t0 f0 t1 f1 t2 f2, row_bank row = [(t0, f0); (t1, f1); (t2, f2)].
Proof.
  unfold specTable.
  repeat (destruct (String.eqb x _);
          [intros [= <-]; repeat eexists|]).
  discriminate.
Qed.

(** The targets a profile of the table leaves. *)
Lemma targets_of_table c c' row :
  started c = true -> specTable (profile (props c)) = Some row ->
  runProfileEffect c = Some c' ->
  targets c' =
  {| t_filterType := Some (row_filter row);
     t_cutoff := Some (row_cutoff row);
     t_resonance := Some (default 1%Q (row_resonance row));
     t_noiseGain := Some (row_noiseGain row);
     t_droneGain := Some 0.2%Q;
     t_bankTypes := (row_bank row).*1;
     t_bankFrequencies := Some <$> (row_bank row).*2 |}.
Proof.
  intros Hst Hrow Hrun.
  destruct (runProfileEffect_table c row Hst Hrow)
    as (d1 & Hrun1 & HQ & Hn & Hd & Hty & Hcut & Hbank).
  rewrite Hrun in Hrun1. injection Hrun1 as <-.
  destruct (runProfileEffect_shape c Hst)
    as (d2 & Hrun2 & _ & _ & _ & _ & _ & Hst' & _).
  rewrite Hrun in Hrun2. injection Hrun2 as <-.
  destruct (specTable_bank _ _ Hrow)
    as (t0 & f0 & t1 & f1 & t2 & f2 & Hb).
  rewrite Hb in *.
  destruct (Hbank 0%nat _ _ eq_refl) as [Hb0 Hf0].
  destruct (Hbank 1%nat _ _ eq_refl) as [Hb1 Hf1].
  destruct (Hbank 2%nat _ _ eq_refl) as [Hb2 Hf2].
  apply targetOf_scheduled in Hd, Hcut, Hf0, Hf1, Hf2.
  apply targetOf_scheduled2 in Hn.
  assert (targetOf (resonance c')
          = Some (default 1%Q (row_resonance row))) as HQ'.
  { destruct (row_resonance row); simpl.
    - by eapply targetOf_scheduled2.
    - by eapply targetOf_scheduled. }
  unfold targets. rewrite Hty, Hcut, HQ', Hn, Hd.
  unfold bankType, bankFrequency, targetOf in *.
  open_started c' Hst'. cbn in *. simplify_eq.
  by rewrite Hf0, Hf1, Hf2.
Qed.

(** The targets a string outside the table leaves: the baseline. *)
Lemma targets_of_unknown c c' :
  started c = true -> specTable (profile (props c)) = None ->
  runProfileEffect c = Some c' ->
  targets c' =
  {| t_filterType := t_filterType (targets c);
     t_cutoff := t_cutoff (targets c);
     t_resonance := Some 1%Q;
     t_noiseGain := Some 0.5%Q;
     t_droneGain := Some 0.2%Q;
     t_bankTypes := t_bankTypes (targets c);
     t_bankFrequencies := t_bankFrequencies (targets c) |}.
Proof.
  intros Hst Hrow Hrun.
  destruct (runProfileEffect_unknown c Hst Hrow)
    as (d1 & Hrun1 & HQ & Hn & Hd & Hty & Hcut & Hbank & _).
  rewrite Hrun in Hrun1. injection Hrun1 as <-.
  apply targetOf_scheduled in HQ, Hn, Hd.
  unfold targets. rewrite Hty, Hcut, HQ, Hn, Hd, Hbank. reflexivity.
Qed.

(** Running the profile effect a second time, after its own cleanup,
    leaves the targets where the first run put them. *)
Lemma profile_rerun_targets c c1 :
  started c = true -> runProfileEffect c = Some c1 ->
  exists c2,
    runProfileEffect (runCleanup (profileCleanup c1) c1) = Some c2 /\
    targets c2 = targets c1.
Proof.
  intros Hst Hrun.
  destruct (runProfileEffect_shape c Hst)
    as (d1 & Hrun1 & Hp & _ & _ & _ & _ & Hst1 & _).
  rewrite Hrun in Hrun1. injection Hrun1 as <-.
  destruct (runCleanup_frame (profileCleanup c1) c1) as (Hp' & Hr' & _).
  set (d := runCleanup (profileCleanup c1) c1) in *.
  assert (started d = true) as Hstd by (unfold started; by rewrite Hr').
  destruct (runProfileEffect_shape d Hstd) as (c2 & Hrun2 & _).
  exists c2. split; [done|].
  destruct (specTable (profile (props c))) as [row|] eqn:Hrow.
  - rewrite (targets_of_table c c1 row) by done.
    apply (targets_of_table d); [done| |done]. by rewrite Hp', Hp.
  - rewrite (targets_of_unknown d c2); [|done| |done].
    + assert (targets d = targets c1) as ->
          by (unfold targets, filterType, cutoff, resonance, noiseGain,
                droneGain; by rewrite Hr').
      by rewrite (targets_of_unknown c c1).
    + by rewrite Hp', Hp.
Qed.

(** ** Changes of profile *)

(** A change of profile is the profile effect run on the component with
    the new prop and the old routine cleared. *)
Lemma setProfile_changed c x :
  wf c -> profile (props c) <> x ->
  exists c1,
    setProfile x c = runProfileEffect c1 /\
    refs c1 = refs c /\ profile (props c1) = x /\
    status (props c1) = status (props c) /\
    started c1 = true /\
    window c1 = window (runCleanup (profileCleanup c) c).
Proof.
  intros (Hst & _) Hne. rewrite setProfile_unfold. cbv zeta.
  destruct (String.eqb_spec (profile (props c)) x) as [|_]; [done|].
  eexists. split; [reflexivity|].
  destruct c as [p r w sk [|[h|]]]; simpl; repeat split; done.
Qed.

Lemma setProfile_changed_wf c x c1 c' :
  wf c -> setProfile x c = runProfileEffect c1 ->
  runProfileEffect c1 = Some c' -> started c1 = true ->
  wf c' /\ props c' = props c1.
Proof.
  intros Hwf E Hrun Hst1.
  destruct (rerender_wf {| profile := x; status := status (props c);
                           scrollPos := scrollPos (props c);
                           isMuted := isMuted (props c) |} c Hwf)
    as (d & Hd & Hp & Hwf').
  unfold setProfile in E. rewrite E, Hrun in Hd. injection Hd as <-.
  split; [done|]. apply runProfileEffect_shape in Hst1.
  destruct Hst1 as (c2 & E2 & Hp2 & _). congruence.
Qed.

Section ProfileChanges.
Variable computedValue : AudioParam -> Q -> Q.

(** C1.  A change of the profile to a profile of the table schedules, on
    the filter resonance, the noise gain and the drone gain, first the
    baseline approaches (toward 1, 0.5 and 0.2) and then the approaches of
    the row, sets the filter type and the three waveforms of the row, sends
    the cutoff and the three bank frequencies to the values of the row,
    all with time constant 0.5 from the time of the change, and leaves live
    exactly the routine of the row next to the alarm sweep.  For
    'Electronic': highpass, cutoff toward 3000, noise gain toward 0.4,
    sawtooth, square and sine toward 440, 880 and 1760, and a routine
    every 600 ms. *)
Theorem profile_change_applies_table c x row :
  reachable computedValue c -> profile (props c) <> x ->
  specTable x = Some row ->
  exists c',
    setProfile x c = Some c' /\
    scheduled (resonance c')
    = scheduled (resonance c)
      ++ SetTarget 1 (clock c) 0.5
         :: match row_resonance row with
            | Some q => [SetTarget q (clock c) 0.5]
            | None => []
            end /\
    scheduled (noiseGain c')
    = scheduled (noiseGain c)
      ++ [SetTarget 0.5 (clock c) 0.5;
          SetTarget (row_noiseGain row) (clock c) 0.5] /\
    scheduled (droneGain c')
    = scheduled (droneGain c) ++ [SetTarget 0.2 (clock c) 0.5] /\
    filterType c' = Some (row_filter row) /\
    scheduled (cutoff c')
    = scheduled (cutoff c) ++ [SetTarget (row_cutoff row) (clock c) 0.5] /\
    (forall i ty f, row_bank row !! i = Some (ty, f) ->
       bankType i c' = Some ty /\
       scheduled (bankFrequency i c')
       = scheduled (bankFrequency i c) ++ [SetTarget f (clock c) 0.5]) /\
    (forall i, live i c' <->
       (status (props c) = OVERRIDE /\ i = alarmInterval) \/
       row_routine row = Some i) /\
    (x = "Electronic"%string ->
     filterType c' = Some highpass /\
     targetOf (cutoff c') = Some 3000%Q /\
     targetOf (noiseGain c') = Some 0.4%Q /\
     bankType 0 c' = Some sawtooth /\ bankType 1 c' = Some square /\
     bankType 2 c' = Some sine /\
     targetOf (bankFrequency 0 c') = Some 440%Q /\
     targetOf (bankFrequency 1 c') = Some 880%Q /\
     targetOf (bankFrequency 2 c') = Some 1760%Q /\
     live {| callback := ElectronicGlitch; delay := 600 |} c').
Proof.
  intros Hwf%reachable_wf Hne Hrow.
  destruct (setProfile_changed c x Hwf Hne)
    as (c1 & E & Hr & Hx & Hs & Hst1 & Hw).
  rewrite <- Hx in Hrow.
  destruct (runProfileEffect_table c1 row Hst1 Hrow)
    as (c' & Hrun & HQ & Hn & Hd & Hty & Hcut & Hbank).
  destruct (setProfile_changed_wf c x c1 c' Hwf E Hrun Hst1) as [Hwf' Hp'].
  unfold resonance, noiseGain, droneGain, cutoff, bankFrequency, clock in *.
  rewrite Hr in *.
  assert (forall i, live i c' <->
            (status (props c) = OVERRIDE /\ i = alarmInterval) \/
            row_routine row = Some i) as Hlive.
  { intros i. rewrite wf_live by done. rewrite Hp', Hs.
    unfold profileRoutine. rewrite Hrow. done. }
  exists c'. split; [congruence|].
  split; [done|]. split; [done|]. split; [done|]. split; [done|].
  split; [done|]. split; [done|]. split; [done|].
  intros ->. rewrite Hx in Hrow. vm_compute in Hrow.
  injection Hrow as <-. cbn [row_bank row_cutoff row_noiseGain row_filter
                             row_routine row_resonance] in *.
  destruct (Hbank 0%nat _ _ eq_refl) as [Hb0 Hf0].
  destruct (Hbank 1%nat _ _ eq_refl) as [Hb1 Hf1].
  destruct (Hbank 2%nat _ _ eq_refl) as [Hb2 Hf2].
  split; [done|].
  split; [by eapply targetOf_scheduled|].
  split; [by eapply targetOf_scheduled2|].
  split; [done|]. split; [done|]. split; [done|].
  split; [by eapply targetOf_scheduled|].
  split; [by eapply targetOf_scheduled|].
  split; [by eapply targetOf_scheduled|].
  apply Hlive. by right.
Qed.

(** C8.  [setProfile x] with [x] outside the five profiles returns
    normally, schedules only the three baseline approaches (resonance
    toward 1, noise gain toward 0.5, drone gain toward 0.2), leaves filter
    type, cutoff, bank and every other parameter as they were, installs no
    interval, and leaves no profile routine live. *)
Theorem unknown_profile_baseline c x :
  reachable computedValue c -> x ∉ profileNames ->
  profile (props c) <> x ->
  exists c',
    setProfile x c = Some c' /\
    scheduled (resonance c')
    = scheduled (resonance c) ++ [SetTarget 1 (clock c) 0.5] /\
    scheduled (noiseGain c')
    = scheduled (noiseGain c) ++ [SetTarget 0.5 (clock c) 0.5] /\
    scheduled (droneGain c')
    = scheduled (droneGain c) ++ [SetTarget 0.2 (clock c) 0.5] /\
    filterType c' = filterType c /\ cutoff c' = cutoff c /\
    oscBankRef (refs c') = oscBankRef (refs c) /\
    masterGain c' = masterGain c /\ panning c' = panning c /\
    alarmGain c' = alarmGain c /\ alarmFrequency c' = alarmFrequency c /\
    window c' = window (runCleanup (profileCleanup c) c) /\
    (forall i, live i c' -> axisOf (callback i) = StatusAxis).
Proof.
  intros Hwf%reachable_wf Hx%specTable_None Hne.
  destruct (setProfile_changed c x Hwf Hne)
    as (c1 & E & Hr & Hx1 & Hs & Hst1 & Hw).
  rewrite <- Hx1 in Hx.
  destruct (runProfileEffect_unknown c1 Hst1 Hx)
    as (c' & Hrun & HQ & Hn & Hd & Hty & Hcut & Hbank & Hmg & Hpan & Hag
        & Haf & Hwin & Hk).
  destruct (setProfile_changed_wf c x c1 c' Hwf E Hrun Hst1) as [Hwf' Hp'].
  unfold resonance, noiseGain, droneGain, cutoff, filterType, masterGain,
    panning, alarmGain, alarmFrequency, clock in *.
  rewrite Hr in *.
  exists c'. split; [congruence|].
  repeat (split; [done || congruence|]).
  intros i Hi. apply wf_live in Hi; [|done].
  destruct Hi as [[_ ->]|Hi]; [done|].
  rewrite Hp' in Hi. unfold profileRoutine in Hi. rewrite Hx in Hi. done.
Qed.

(** C7.  A second [setProfile x] right after the first leaves the
    component as the first left it, with at most one profile routine
    live; and were the effect run again (its cleanup, then its body), the
    filter type, the targets of cutoff, resonance, noise gain and drone
    gain, the waveforms and the targets of the bank frequencies would be
    the same, again with at most one profile routine live. *)
Theorem setProfile_idempotent c x :
  reachable computedValue c ->
  exists c1,
    setProfile x c = Some c1 /\
    setProfile x c1 = Some c1 /\
    atMostOneOn ProfileAxis c1 /\
    (profile (props c) <> x ->
     exists c2,
       runProfileEffect (runCleanup (profileCleanup c1) c1) = Some c2 /\
       targets c2 = targets c1 /\
       atMostOneOn ProfileAxis c2).
Proof.
  intros Hwf%reachable_wf.
  destruct (rerender_wf {| profile := x; status := status (props c);
                           scrollPos := scrollPos (props c);
                           isMuted := isMuted (props c) |} c Hwf)
    as (c1 & Hc1 & Hp & Hwf1).
  exists c1. split; [done|]. split; [|split].
  - unfold setProfile. rewrite Hp. simpl. rewrite <- Hp.
    apply rerender_same.
  - by apply wf_atMostOne.
  - intros Hne.
    destruct (setProfile_changed c x Hwf Hne)
      as (c0 & E & _ & _ & _ & Hst0 & _).
    unfold setProfile in E. rewrite Hc1 in E. symmetry in E.
    destruct (profile_rerun_targets c0 c1 Hst0 E) as (c2 & Hrun & Ht).
    exists c2. split; [done|]. split; [done|].
    apply wf_atMostOne. apply wf_renderInv in Hwf1.
    apply renderInv_cleanup_profile in Hwf1.
    destruct (renderInv_profile _ _ _ _ Hwf1) as (c2' & Hrun' & Hp2 & H2).
    rewrite Hrun in Hrun'. injection Hrun' as <-.
    apply wf_renderInv. rewrite Hp2.
    destruct (runCleanup_frame (profileCleanup c1) c1) as (Hpr & _).
    rewrite Hpr in *. done.
Qed.

End ProfileChanges.

(** ** Steps that only add transitions *)

Lemma extendsBy_refl P o : extendsBy P o o.
Proof. split; [done|]. exists []. by rewrite app_nil_r. Qed.

Lemma extendsBy_trans P o1 o2 o3 :
  extendsBy P o1 o2 -> extendsBy P o2 o3 -> extendsBy P o1 o3.
Proof.
  intros (V1 & n1 & E1 & F1) (V2 & n2 & E2 & F2). split; [congruence|].
  exists (n1 ++ n2). split; [by rewrite E2, E1, app_assoc|].
  by apply Forall_app.
Qed.

Lemma extendsBy_one P p e :
  P e -> extendsBy P (Some p) (Some (schedule e p)).
Proof.
  intros He. split; [done|]. exists [e]. split; [done|]. by constructor.
Qed.

Lemma smoothStep_refs P c c' : refs c' = refs c -> smoothStep P c c'.
Proof.
  intros E. unfold smoothStep, paramsOf, masterGain, panning, noiseGain,
    droneGain, alarmGain, alarmFrequency, cutoff, resonance.
  rewrite E. apply Forall2_same_length_lookup. split; [done|].
  intros i x y Hx Hy. rewrite Hx in Hy. injection Hy as <-.
  apply extendsBy_refl.
Qed.

Lemma smoothStep_trans P c1 c2 c3 :
  smoothStep P c1 c2 -> smoothStep P c2 c3 -> smoothStep P c1 c3.
Proof.
  unfold smoothStep. intros H1 H2.
  eapply Forall2_trans; [|exact H1|exact H2].
  intros ???. apply extendsBy_trans.
Qed.

Ltac smooth_params :=
  unfold smoothStep, paramsOf, masterGain, panning, noiseGain, droneGain,
    alarmGain, alarmFrequency, cutoff, resonance; cbn;
  repeat (apply Forall2_cons; split;
          [first [ apply extendsBy_refl
                 | apply extendsBy_one; cbn; lra
                 | eapply extendsBy_trans;
                   apply extendsBy_one; cbn; lra ]|]);
  apply Forall2_nil_2.

Lemma smoothStep_mute c :
  started c = true -> smoothStep isSmoothedApproach c (muteEffect c).
Proof.
  intros H. open_started c H. unfold muteEffect. smooth_params.
Qed.

Lemma smoothStep_pan c :
  started c = true -> smoothStep isSmoothedApproach c (panEffect c).
Proof.
  intros H. open_started c H. unfold panEffect. smooth_params.
Qed.

Lemma smoothStep_status c :
  started c = true -> smoothStep isSmoothedApproach c (runStatusEffect c).
Proof.
  intros H. open_started c H. unfold runStatusEffect, statusEffect.
  cbn [props refs audioCtxRef alarmGainRef alarmOscRef].
  destruct (BotLockStatus_eqb _ _); smooth_params.
Qed.

Lemma smoothStep_profile c c' :
  started c = true -> runProfileEffect c = Some c' ->
  smoothStep isSmoothedApproach c c'.
Proof.
  intros H Hrun. open_started c H. destruct props0 as [x st q m].
  unfold runProfileEffect, profileEffect in Hrun.
  cbn [props refs profile audioCtxRef noiseFilterRef noiseGainRef
       droneGainRef oscBankRef length Nat.ltb Nat.leb] in Hrun.
  repeat (destruct (String.eqb x _);
          [cbn in Hrun; injection Hrun as <-; smooth_params|]).
  cbn in Hrun; injection Hrun as <-; smooth_params.
Qed.

Lemma smoothStep_stage P (f : Component -> Component) (b : bool) c c1 :
  (forall d, started d = true ->
             started (f d) = true /\ smoothStep P d (f d)) ->
  started c1 = true /\ smoothStep P c c1 ->
  started (if b then f c1 else c1) = true /\
  smoothStep P c (if b then f c1 else c1).
Proof.
  intros Hf [Hst Hs]. destruct b; [|done].
  destruct (Hf c1 Hst) as [Hst' Hs']. split; [done|].
  by eapply smoothStep_trans.
Qed.

Lemma rerender_smooth p' c c' :
  started c = true -> rerender p' c = Some c' ->
  smoothStep isSmoothedApproach c c'.
Proof.
  intros Hst. unfold rerender. cbv zeta.
  generalize (negb (Bool.eqb (isMuted (props c)) (isMuted p'))).
  generalize (negb (Qeq_bool (scrollPos (props c)) (scrollPos p'))).
  generalize (negb (BotLockStatus_eqb (status (props c)) (status p'))).
  generalize (negb (profile (props c) =? profile p')%string).
  intros bp bs bq bm.
  assert (started (withProps p' c) = true /\
          smoothStep isSmoothedApproach c (withProps p' c)) as H0
      by (split; [done|by apply smoothStep_refs]).
  set (c0 := withProps p' c) in *. clearbody c0.
  apply (smoothStep_stage _ (fun d => runCleanup (statusCleanup d) d) bs)
    in H0.
  2:{ intros d Hd. destruct (runCleanup_frame (statusCleanup d) d)
        as (_ & Hr & _).
      split; [unfold started; by rewrite Hr|by apply smoothStep_refs]. }
  set (c1 := if bs then _ else _) in *. clearbody c1.
  apply (smoothStep_stage _ (fun d => runCleanup (profileCleanup d) d) bp)
    in H0.
  2:{ intros d Hd. destruct (runCleanup_frame (profileCleanup d) d)
        as (_ & Hr & _).
      split; [unfold started; by rewrite Hr|by apply smoothStep_refs]. }
  set (c2 := if bp then _ else _) in *. clearbody c2.
  apply (smoothStep_stage _ muteEffect bm) in H0.
  2:{ intros d Hd. split; [|by apply smoothStep_mute].
      destruct (muteEffect_frame d) as (_ & _ & _ & _ & ->). done. }
  set (c3 := if bm then _ else _) in *. clearbody c3.
  apply (smoothStep_stage _ panEffect bq) in H0.
  2:{ intros d Hd. split; [|by apply smoothStep_pan].
      destruct (panEffect_frame d) as (_ & _ & _ & _ & ->). done. }
  set (c4 := if bq then _ else _) in *. clearbody c4.
  apply (smoothStep_stage _ runStatusEffect bs) in H0.
  2:{ intros d Hd. split; [|by apply smoothStep_status].
      destruct (runStatusEffect_frame d) as (_ & _ & _ & _ & _ & ->). done. }
  set (c5 := if bs then _ else _) in *. clearbody c5.
  destruct H0 as [Hst5 Hs5]. destruct bp.
  - intros Hrun. eapply smoothStep_trans; [done|].
    by apply smoothStep_profile.
  - by intros [= <-].
Qed.

Section Smoothness.
Variable computedValue : AudioParam -> Q -> Q.

Lemma smoothStep_naturalTick rnd c :
  started c = true -> smoothStep isTransition c (naturalTick rnd c).
Proof.
  intros H. open_started c H. unfold naturalTick.
  unfold smoothStep, paramsOf, masterGain, panning, noiseGain, droneGain,
    alarmGain, alarmFrequency, cutoff, resonance; cbn.
  repeat (apply Forall2_cons; split;
          [first [ apply extendsBy_refl | by apply extendsBy_one ]|]).
  apply Forall2_nil_2.
Qed.

Lemma smoothStep_hostileTick rnd c :
  started c = true ->
  smoothStep isTransition c (hostileTick computedValue rnd c).
Proof.
  intros H. open_started c H. unfold hostileTick. smooth_params.
Qed.

(** C5, as amended.  A render with new props (mute, scroll position,
    status, profile) only schedules smoothed approaches with a positive
    time constant and writes no value; the ticks of 'Natural' and
    'Hostile' only schedule ramps and approaches; the ticks of
    'Industrial' and of the alarm sweep begin with an instantaneous
    write ([setValueAtTime]) followed by ramps. *)
Theorem control_surface_smooth c :
  started c = true ->
  (forall p' c', rerender p' c = Some c' ->
                 smoothStep isSmoothedApproach c c') /\
  (forall rnd, smoothStep isTransition c (naturalTick rnd c)) /\
  (forall rnd, smoothStep isTransition c (hostileTick computedValue rnd c)) /\
  scheduled (droneGain (industrialTick c))
  = scheduled (droneGain c)
    ++ [SetValue 0.15 (clock c); LinearRamp 0.25 (clock c + 0.1)%Q;
        LinearRamp 0.15 (clock c + 0.5)%Q] /\
  scheduled (alarmFrequency (alarmSweepTick c))
  = scheduled (alarmFrequency c)
    ++ [SetValue 880 (clock c); ExponentialRamp 440 (clock c + 0.4)%Q].
Proof.
  intros Hst.
  split; [intros p' c'; by apply rerender_smooth|].
  split; [intros rnd; by apply smoothStep_naturalTick|].
  split; [intros rnd; by apply smoothStep_hostileTick|].
  open_started c Hst.
  unfold scheduled, droneGain, alarmFrequency, industrialTick,
    alarmSweepTick, clock; cbn.
  by rewrite <- !app_assoc.
Qed.

End Smoothness.

(** C5 as stated fails: the tick of 'Electronic' writes the frequency of a
    bank slot instantaneously. *)
Lemma glitch_tick_writes_instantaneously :
  exists c c',
    mount modern electronicProps = Some c /\
    step intrinsicValue c (Fire 1 zeroDraws) = Some c' /\
    ~ smoothStep isTransition c c'.
Proof.
  eexists _, _. split; [vm_compute; reflexivity|].
  split; [vm_compute; reflexivity|].
  intros H.
  eapply (Forall2_lookup_lr _ _ _ 8) in H; [|reflexivity|reflexivity].
  destruct H as (_ & new & E & Hnew). cbn in E.
  injection E as <-. apply Forall_cons in Hnew as [[] _].
Qed.

Lemma control_surface_smooth_witness :
  started (mounted electronicProps) = true /\
  smoothStep isTransition (mounted electronicProps)
    (hostileTick intrinsicValue zeroDraws (mounted electronicProps)).
Proof.
  split; [reflexivity|].
  apply (control_surface_smooth intrinsicValue (mounted electronicProps)).
  reflexivity.
Defined.

(** ** The glitch of 'Electronic' and the last event of a timeline *)

Lemma fold_laterEvent_elem l : forall acc a,
  fold_left laterEvent l acc = Some a -> a ∈ l \/ acc = Some a.
Proof.
  induction l as [|e l IH]; intros acc a H; simpl in H; [by right|].
  apply IH in H as [H|H]; [left; by right|].
  unfold laterEvent in H. destruct acc as [b|].
  - destruct (Qle_bool (evTime b) (evTime e)); injection H as <-.
    + left. by left.
    + by right.
  - injection H as <-. left. by left.
Qed.

Lemma finalEvent_snoc l e :
  (forall a, a ∈ l -> (evTime a <= evTime e)%Q) ->
  finalEvent (l ++ [e]) = Some e.
Proof.
  intros Hl. unfold finalEvent. rewrite fold_left_app. simpl.
  destruct (fold_left laterEvent l None) as [a|] eqn:E; simpl; [|done].
  apply fold_laterEvent_elem in E as [E|E]; [|done].
  apply Hl in E. apply Qle_bool_iff in E. by rewrite E.
Qed.

Lemma Qfloor_draw r :
  (0 <= r)%Q -> (r < 1)%Q ->
  (0 <= Qfloor (r * 3) < 3)%Z.
Proof.
  intros H0 H1. split.
  - change 0%Z with (Qfloor 0). apply Qfloor_resp_le. lra.
  - rewrite Zlt_Qlt. eapply Qle_lt_trans; [apply Qfloor_le|].
    change (inject_Z 3) with 3%Q. lra.
Qed.

Section Glitch.
Variable computedValue : AudioParam -> Q -> Q.

(** C10.  A tick of 'Electronic' reads the frequency of the slot it drew
    at the time of the tick, writes a random value at that time and the
    value read 0.05 s later; these two writes end the timeline of the
    slot, so the frequency settles at the value read: when that value is
    not the frequency of the table, the slot no longer reaches the
    frequency of the table.  The other slots are left alone. *)
Theorem glitch_restores_sampled_value c rnd :
  reachable computedValue c ->
  (0 <= rnd 0%nat)%Q -> (rnd 0%nat < 1)%Q ->
  let t := clock c in
  let k := Z.to_nat (Qfloor (rnd 0%nat * 3)) in
  exists c' p p',
    electronicTick computedValue rnd c = Some c' /\
    (k < 3)%nat /\
    bankFrequency k c = Some p /\ bankFrequency k c' = Some p' /\
    events p'
    = events p ++ [SetValue (100 + rnd 1%nat * 5000)%Q t;
                   SetValue (computedValue p t) (t + 0.05)%Q] /\
    (forall j, j <> k ->
       oscBankRef (refs c') !! j = oscBankRef (refs c) !! j) /\
    finalEvent (events p')
    = Some (SetValue (computedValue p t) (t + 0.05)%Q) /\
    settledValue p' = computedValue p t /\
    (forall f, ~ (computedValue p t == f)%Q -> ~ (settledValue p' == f)%Q) /\
    (forall h,
       intervals (window c) !! h
       = Some {| callback := ElectronicGlitch; delay := 600 |} ->
       fire computedValue h rnd c = c').
Proof.
  intros Hwf%reachable_wf H0 H1 t k.
  destruct Hwf as (Hst & _ & _ & _ & Hb).
  pose proof (Qfloor_draw _ H0 H1) as Hslot.
  assert (k < 3)%nat as Hk by (unfold k; lia).
  assert (exists osc, oscBankRef (refs c) !! k = Some osc) as [osc Hosc].
  { apply lookup_lt_is_Some.
    destruct (started_inv c Hst) as (?&?&?&?&?&?&?&?&?&?&?&->). done. }
  assert (bankFrequency k c = Some (osc_frequency osc)) as Hp
      by (unfold bankFrequency; by rewrite Hosc).
  assert (exists ctx, audioCtxRef (refs c) = Some ctx /\ clock c = currentTime ctx)
    as (ctx0 & Hctx & Hclock).
  { destruct (started_inv c Hst) as (?&?&?&?&?&?&?&?&?&?&?&E).
    unfold clock. rewrite E. eauto. }
  set (p := osc_frequency osc) in *.
  set (p' := setValueAtTime (computedValue p t) (t + 0.05)%Q
               (setValueAtTime (100 + rnd 1%nat * 5000)%Q t p)).
  assert (events p'
          = events p ++ [SetValue (100 + rnd 1%nat * 5000)%Q t;
                         SetValue (computedValue p t) (t + 0.05)%Q]) as Hev
      by (unfold p'; cbn; by rewrite <- app_assoc).
  assert (finalEvent (events p')
          = Some (SetValue (computedValue p t) (t + 0.05)%Q)) as Hfin.
  { unfold p'. cbn. apply finalEvent_snoc. intros a Ha.
    apply elem_of_app in Ha as [Ha|Ha].
    - apply (Hb k p a Hp Ha).
    - apply list_elem_of_singleton in Ha as ->. cbn. fold t. lra. }
  assert (electronicTick computedValue rnd c
          = Some (withRefs
                    (withOscBank
                       (<[k := {| osc_type := osc_type osc;
                                  osc_frequency := p' |}]>
                          (oscBankRef (refs c))) (refs c)) c)) as Htick.
  { unfold electronicTick. rewrite Hctx. unfold bankAt. fold k.
    destruct (Z.ltb_spec (Qfloor (rnd 0%nat * 3)) 0) as [|_]; [lia|].
    rewrite Hosc. cbn. rewrite <- Hclock. reflexivity. }
  eexists _, p, p'. split; [exact Htick|]. split; [done|].
  split; [done|]. split; [|split; [done|split; [|split; [done|split; [|split]]]]].
  - unfold bankFrequency; cbn.
    rewrite list_lookup_insert_eq by (by eapply lookup_lt_Some). done.
  - intros j Hj. cbn. by rewrite list_lookup_insert_ne.
  - unfold settledValue. by rewrite Hfin.
  - intros f Hf. unfold settledValue. by rewrite Hfin.
  - intros h Hh. unfold fire. rewrite Hh. cbn. by rewrite Htick.
Qed.

End Glitch.

Lemma glitch_restores_sampled_value_witness :
  reachable midGlide (mounted electronicProps) /\
  (0 <= zeroDraws 0%nat)%Q /\ (zeroDraws 0%nat < 1)%Q /\
  exists c' p',
    electronicTick midGlide zeroDraws (mounted electronicProps) = Some c' /\
    bankFrequency 0 c' = Some p' /\
    targetOf (bankFrequency 0 (mounted electronicProps)) = Some 440%Q /\
    (settledValue p' == 300)%Q /\ ~ (settledValue p' == 440)%Q.
Proof.
  assert (reachable midGlide (mounted electronicProps)) as H
      by (exists modern, electronicProps, []; reflexivity).
  assert (0 <= zeroDraws 0%nat)%Q as H0 by (unfold zeroDraws; lra).
  assert (zeroDraws 0%nat < 1)%Q as H1 by (unfold zeroDraws; lra).
  split; [exact H|]. split; [exact H0|]. split; [exact H1|].
  destruct (glitch_restores_sampled_value midGlide _ zeroDraws H H0 H1)
    as (c' & p & p' & Ht & _ & _ & Hp' & _ & _ & _ & Hs & Hne & _).
  exists c', p'. split; [exact Ht|]. split; [exact Hp'|].
  split; [reflexivity|]. split.
  - rewrite Hs. reflexivity.
  - apply Hne. unfold midGlide. discriminate.
Defined.

(** ** The retry wrapper *)

(** [includes] is occurrence as a substring. *)
Lemma prefix_occurs (sub s : string) :
  String.prefix sub s = true <-> exists post, s = (sub ++ post)%string.
Proof.
  revert s. induction sub as [|a sub IH]; intros s; simpl.
  - split; [intros _; by exists s|by destruct s].
  - destruct s as [|b s]; [split; [done|by intros [post ?]]|].
    change (String.prefix (String a sub) (String b s))
      with (if Ascii.ascii_dec a b then String.prefix sub s else false).
    destruct (Ascii.ascii_dec a b) as [->|Hne].
    + rewrite IH. split; intros [post E]; exists post.
      * simpl. by rewrite E.
      * simpl in E. by injection E.
    + split; [done|]. intros [post E]. simpl in E. by injection E.
Qed.

Lemma index_cons sub b s :
  String.index 0 sub (String b s)
  = if String.prefix sub (String b s) then Some 0%nat
    else match String.index 0 sub s with
         | Some n => Some (S n)
         | None => None
         end.
Proof. reflexivity. Qed.

Lemma includes_occursIn (sub s : string) :
  includes sub s = true <-> occursIn sub s.
Proof.
  unfold includes, occursIn. induction s as [|b s IH].
  - simpl. destruct sub as [|a sub]; split; try done.
    + intros _. by exists ""%string, ""%string.
    + intros ([|c pre] & post & E); simpl in E; discriminate.
  - rewrite index_cons.
    destruct (String.prefix sub (String b s)) eqn:Ep.
    + split; [intros _|done]. apply prefix_occurs in Ep as [post E].
      by exists ""%string, post.
    + destruct (String.index 0 sub s) as [k|]; split; try done.
      * intros _. destruct (proj1 IH eq_refl) as (pre & post & ->).
        by exists (String b pre), post.
      * intros ([|c pre] & post & E); simpl in E.
        -- assert (String.prefix sub (String b s) = true) as Ep'
               by (apply prefix_occurs; by exists post).
           congruence.
        -- injection E as -> ->.
           assert (false = true) by (apply IH; by exists pre, post).
           done.
Qed.

Section RetryProperties.
Variables (E T : Type) (message : E -> MessageAccess).

Lemma isQuotaError_true e :
  isQuotaError message e = Some true <->
  exists m, message e = Text m /\
    (occursIn "429" m \/ occursIn "quota" m \/ occursIn "EXHAUSTED" m).
Proof.
  unfold isQuotaError.
  destruct (message e) as [| |m|];
    try (split; [done|by intros (m' & ? & _)]).
  split.
  - intros [= H]. exists m. split; [done|].
    rewrite !orb_true_iff, !includes_occursIn in H. tauto.
  - intros (m' & [= <-] & H). f_equal.
    rewrite !orb_true_iff, !includes_occursIn. tauto.
Qed.

Lemma isQuotaError_None e :
  isQuotaError message e = None <->
  message e = Unreadable \/ message e = NotSearchable.
Proof.
  unfold isQuotaError. destruct (message e); split; try done; try tauto.
  all: by intros [|].
Qed.

(** What one call of [withRetry] does, for any budget and first delay:
    it makes [k + 1] attempts for some [k] within the budget, waits the
    first [k] delays of the doubling sequence, and passes on what its last
    attempt gave. *)
Lemma withRetry_spec (fn : nat -> Outcome E T) : forall retries delay w,
  exists k,
    (k <= retries)%nat /\
    sleeps (withRetry message fn retries delay w).1
    = sleeps w ++ backoff k delay /\
    calls (withRetry message fn retries delay w).1 = (calls w + S k)%nat /\
    (withRetry message fn retries delay w).2
    = passedOn message (fn (calls w + k)%nat) /\
    (forall j, (j < k)%nat ->
       exists e, fn (calls w + j)%nat = Rejected e /\
                 isQuotaError message e = Some true) /\
    (forall e, fn (calls w + k)%nat = Rejected e ->
               isQuotaError message e = Some true -> k = retries).
Proof.
  assert (forall w delay e q,
            fn (calls w) = Rejected e ->
            isQuotaError message e = q -> q <> Some true ->
            forall retries r,
              r = (called w, Rejected (rethrown message e)) ->
              exists k,
                (k <= retries)%nat /\
                sleeps r.1 = sleeps w ++ backoff k delay /\
                calls r.1 = (calls w + S k)%nat /\
                r.2 = passedOn message (fn (calls w + k)%nat) /\
                (forall j, (j < k)%nat ->
                   exists e, fn (calls w + j)%nat = Rejected e /\
                             isQuotaError message e = Some true) /\
                (forall e, fn (calls w + k)%nat = Rejected e ->
                           isQuotaError message e = Some true ->
                           k = retries)) as Hstop.
  { intros w delay e q Ef Eq Hq retries r ->. exists 0%nat.
    rewrite Nat.add_0_r, Ef. simpl. rewrite app_nil_r.
    repeat split; try done; try lia.
    intros e' [= <-] Hq'. congruence. }
  induction retries as [|n IH]; intros delay w; simpl.
  - destruct (fn (calls w)) as [v|e] eqn:Ef.
    { exists 0%nat. rewrite Nat.add_0_r, Ef. simpl. rewrite app_nil_r.
      repeat split; try done; lia. }
    exists 0%nat. rewrite Nat.add_0_r, Ef. unfold passedOn, rethrown.
    destruct (isQuotaError message e) as [q|]; simpl; rewrite app_nil_r;
      repeat split; try done; lia.
  - destruct (fn (calls w)) as [v|e] eqn:Ef.
    { exists 0%nat. rewrite Nat.add_0_r, Ef. simpl. rewrite app_nil_r.
      repeat split; try done; lia. }
    destruct (isQuotaError message e) as [[|]|] eqn:Eq.
    + destruct (IH (delay * 2)%Z
                  (slept delay (warned delay (S n) (called w))))
        as (k & Hk & Hs & Hc & Hr & Hq & Hx).
      simpl in *. exists (S k).
      replace (calls w + S k)%nat with (S (calls w + k)) by lia.
      split; [lia|]. split; [by rewrite Hs, <- app_assoc|].
      split; [rewrite Hc; lia|]. split; [done|]. split.
      * intros [|j] Hj.
        -- rewrite Nat.add_0_r. eauto.
        -- replace (calls w + S j)%nat with (S (calls w + j)) by lia.
           apply Hq. lia.
      * intros e' He' Hq'. f_equal. eauto.
    + apply (Hstop w delay e (Some false)); try done.
      unfold rethrown. by rewrite Eq.
    + apply (Hstop w delay e None); try done.
      unfold rethrown. by rewrite Eq.
Qed.

(** C9.  With the default arguments [withRetry] retries exactly the errors
    whose message is a string in which '429', 'quota' or 'EXHAUSTED' occurs;
    it makes [k + 1] attempts for some [k <= 2], waits the first [k] of
    2000 ms and 4000 ms, every attempt but the last having failed with such
    an error; a value, an error that is no quota error and whose message
    can be read, and a quota error once both retries are spent reach the
    caller as they are.  The claim fails where the catch block cannot read
    the message: for an error that is null or undefined, or whose message
    is neither missing nor a string, the catch block itself throws, and the
    caller gets that TypeError in place of the error, after one call. *)
Theorem retry_policy (fn : nat -> Outcome E T) w :
  (forall e,
     isQuotaError message e = Some true <->
     exists m, message e = Text m /\
       (occursIn "429" m \/ occursIn "quota" m \/ occursIn "EXHAUSTED" m)) /\
  (exists k,
     (k <= 2)%nat /\
     sleeps (withRetryDefault message fn w).1
     = sleeps w ++ take k [2000; 4000]%Z /\
     calls (withRetryDefault message fn w).1 = (calls w + S k)%nat /\
     (withRetryDefault message fn w).2
     = passedOn message (fn (calls w + k)%nat) /\
     (forall j, (j < k)%nat ->
        exists e, fn (calls w + j)%nat = Rejected e /\
                  isQuotaError message e = Some true) /\
     (forall e, fn (calls w + k)%nat = Rejected e ->
                isQuotaError message e = Some true -> k = 2%nat)) /\
  (forall v, passedOn message (Resolved v : Outcome E T) = Resolved v) /\
  (forall e,
     passedOn message (Rejected e : Outcome E T)
     = match message e with
       | Absent | Text _ => Rejected (Original e)
       | Unreadable | NotSearchable => Rejected (TypeErrorOn e)
       end) /\
  (forall e, fn (calls w) = Rejected e ->
     isQuotaError message e = Some false ->
     withRetryDefault message fn w = (called w, Rejected (Original e))) /\
  (forall e1 e2 e3,
     fn (calls w) = Rejected e1 -> isQuotaError message e1 = Some true ->
     fn (S (calls w)) = Rejected e2 -> isQuotaError message e2 = Some true ->
     fn (S (S (calls w))) = Rejected e3 ->
     (withRetryDefault message fn w).2 = Rejected (rethrown message e3) /\
     sleeps (withRetryDefault message fn w).1
     = sleeps w ++ [2000; 4000]%Z /\
     calls (withRetryDefault message fn w).1 = (calls w + 3)%nat) /\
  (forall e, fn (calls w) = Rejected e ->
     message e = Unreadable \/ message e = NotSearchable ->
     withRetryDefault message fn w = (called w, Rejected (TypeErrorOn e))).
Proof.
  unfold withRetryDefault.
  split; [apply isQuotaError_true|]. split; [|split; [done|split]].
  - destruct (withRetry_spec fn 2 2000 w) as (k & Hk & Hs & Hrest).
    exists k. split; [done|]. split; [|done].
    rewrite Hs. f_equal. by destruct k as [|[|[|k]]]; [| | |lia].
  - intros e. unfold passedOn, rethrown, isQuotaError.
    by destruct (message e).
  - split; [|split].
    + intros e He Hq. simpl. by rewrite He, Hq.
    + intros e1 e2 e3 H1 Q1 H2 Q2 H3. simpl.
      rewrite H1, Q1. simpl. rewrite H2, Q2. simpl. rewrite H3.
      unfold rethrown. destruct (isQuotaError message e3); simpl;
        (split; [done|]; split; [by rewrite <- app_assoc|lia]).
    + intros e He Hm%isQuotaError_None. simpl. by rewrite He, Hm.
Qed.

End RetryProperties.

(** ** Worked examples on concrete components *)

Lemma mute_control_witness :
  reachable intrinsicValue (mounted hostileProps) /\
  exists c1 c2,
    setMuted true (mounted hostileProps) = Some c1 /\
    setMuted false c1 = Some c2 /\
    targetOf (masterGain c2) = Some 0.4%Q.
Proof.
  assert (reachable intrinsicValue (mounted hostileProps)) as H
      by (exists modern, hostileProps, []; reflexivity).
  split; [exact H|].
  exact (proj2 (mute_control intrinsicValue (mounted hostileProps) H)).
Defined.

Lemma one_routine_per_axis_witness :
  reachable intrinsicValue (mounted hostileProps) /\
  profile (props (mounted hostileProps)) = "Hostile"%string /\
  status (props (mounted hostileProps)) = OVERRIDE /\
  live {| callback := HostileJitter; delay := 50 |} (mounted hostileProps) /\
  live alarmInterval (mounted hostileProps).
Proof.
  assert (reachable intrinsicValue (mounted hostileProps)) as H
      by (exists modern, hostileProps, []; reflexivity).
  split; [exact H|]. split; [reflexivity|]. split; [reflexivity|].
  destruct (one_routine_per_axis intrinsicValue (mounted hostileProps) H)
    as (_ & _ & _ & Hboth).
  apply Hboth; reflexivity.
Defined.

Lemma status_transition_witness :
  reachable intrinsicValue (mounted voidProps) /\
  status (props (mounted voidProps)) <> OVERRIDE /\
  exists c',
    setStatus OVERRIDE (mounted voidProps) = Some c' /\
    scheduled (alarmGain c')
    = scheduled (alarmGain (mounted voidProps))
      ++ [SetTarget 0.1 (clock (mounted voidProps)) 0.1] /\
    live alarmInterval c'.
Proof.
  assert (reachable intrinsicValue (mounted voidProps)) as H
      by (exists modern, voidProps, []; reflexivity).
  assert (status (props (mounted voidProps)) <> OVERRIDE) as Hne
      by (vm_compute; discriminate).
  split; [exact H|]. split; [exact Hne|].
  destruct (status_transition intrinsicValue (mounted voidProps) OVERRIDE
              H Hne) as (c' & E & _ & Hon & _).
  destruct (Hon eq_refl) as (Hg & _ & Hl & _).
  exists c'. split; [exact E|]. split; [exact Hg|exact Hl].
Defined.

Lemma profile_change_applies_table_witness :
  reachable intrinsicValue (mounted voidProps) /\
  profile (props (mounted voidProps)) <> "Electronic"%string /\
  exists row c',
    specTable "Electronic" = Some row /\
    setProfile "Electronic" (mounted voidProps) = Some c' /\
    filterType c' = Some highpass /\
    targetOf (cutoff c') = Some 3000%Q /\
    targetOf (noiseGain c') = Some 0.4%Q /\
    live {| callback := ElectronicGlitch; delay := 600 |} c'.
Proof.
  assert (reachable intrinsicValue (mounted voidProps)) as H
      by (exists modern, voidProps, []; reflexivity).
  assert (profile (props (mounted voidProps)) <> "Electronic"%string) as Hne
      by (vm_compute; discriminate).
  split; [exact H|]. split; [exact Hne|].
  eexists.
  destruct (profile_change_applies_table intrinsicValue (mounted voidProps)
              "Electronic" _ H Hne eq_refl)
    as (c' & E & _ & _ & _ & _ & _ & _ & _ & He).
  destruct (He eq_refl) as (Hty & Hcut & Hn & _ & _ & _ & _ & _ & _ & Hl).
  exists c'. split; [reflexivity|]. split; [exact E|].
  split; [exact Hty|]. split; [exact Hcut|]. split; [exact Hn|exact Hl].
Defined.

Lemma unknown_profile_baseline_witness :
  reachable intrinsicValue (mounted electronicProps) /\
  ("Underwater"%string ∉ profileNames) /\
  profile (props (mounted electronicProps)) <> "Underwater"%string /\
  exists c',
    setProfile "Underwater" (mounted electronicProps) = Some c' /\
    cutoff c' = cutoff (mounted electronicProps) /\
    forall i, live i c' -> axisOf (callback i) = StatusAxis.
Proof.
  assert (reachable intrinsicValue (mounted electronicProps)) as H
      by (exists modern, electronicProps, []; reflexivity).
  assert ("Underwater"%string ∉ profileNames) as Hx.
  { unfold profileNames. intros Hin.
    repeat (apply elem_of_cons in Hin as [Hin|Hin]; [discriminate|]).
    by apply elem_of_nil in Hin. }
  assert (profile (props (mounted electronicProps)) <> "Underwater"%string)
    as Hne by (vm_compute; discriminate).
  split; [exact H|]. split; [exact Hx|]. split; [exact Hne|].
  destruct (unknown_profile_baseline intrinsicValue
              (mounted electronicProps) "Underwater" H Hx Hne)
    as (c' & E & _ & _ & _ & _ & Hcut & _ & _ & _ & _ & _ & _ & Hl).
  exists c'. split; [exact E|]. split; [exact Hcut|exact Hl].
Defined.

Lemma setProfile_idempotent_witness :
  reachable intrinsicValue (mounted voidProps) /\
  exists c1,
    setProfile "Hostile" (mounted voidProps) = Some c1 /\
    setProfile "Hostile" c1 = Some c1 /\
    atMostOneOn ProfileAxis c1.
Proof.
  assert (reachable intrinsicValue (mounted voidProps)) as H
      by (exists modern, voidProps, []; reflexivity).
  split; [exact H|].
  destruct (setProfile_idempotent intrinsicValue (mounted voidProps)
              "Hostile" H) as (c1 & E1 & E2 & H1 & _).
  exists c1. split; [exact E1|]. split; [exact E2|exact H1].
Defined.

Lemma retry_policy_witness :
  (isQuotaError Text "429 RESOURCE_EXHAUSTED"%string = Some true /\
   (withRetryDefault Text alwaysLimited idle).2
   = Rejected (Original "429 RESOURCE_EXHAUSTED"%string) /\
   sleeps (withRetryDefault Text alwaysLimited idle).1 = [2000; 4000]%Z /\
   calls (withRetryDefault Text alwaysLimited idle).1 = 3%nat) /\
  withRetryDefault messageOf rejectsWithUndefined idle
  = (called idle, Rejected (TypeErrorOn ThrownNullish)).
Proof.
  split; [split; [reflexivity|]|].
  - exact (proj1 (proj2 (proj2 (proj2 (proj2 (proj2
             (retry_policy string nat Text alwaysLimited idle))))))
             _ _ _ eq_refl eq_refl eq_refl eq_refl eq_refl).
  - exact (proj2 (proj2 (proj2 (proj2 (proj2 (proj2
             (retry_policy JsThrown nat messageOf rejectsWithUndefined
                idle))))))
             ThrownNullish eq_refl (or_introl eq_refl)).
Defined.

(** * More of the code *)

(** ** What the effects leave alone *)

(** The profile effect writes through four refs and no other. *)
Lemma runProfileEffect_refs c c' :
  started c = true -> runProfileEffect c = Some c' ->
  exists f n b d,
    refs c' = withDroneGain d
                (withOscBank b (withNoiseGain n (withNoiseFilter f (refs c))))
    /\ length b = 3%nat.
Proof.
  intros H Hrun. open_started c H. destruct props0 as [x st q m].
  unfold runProfileEffect, profileEffect in Hrun.
  cbn [props refs profile audioCtxRef noiseFilterRef noiseGainRef
       droneGainRef oscBankRef length Nat.ltb Nat.leb] in Hrun.
  repeat (destruct (String.eqb x _);
          [cbn in Hrun; injection Hrun as <-;
           eexists _, _, _, _; split; reflexivity|]).
  cbn in Hrun; injection Hrun as <-.
  eexists _, _, _, _; split; reflexivity.
Qed.

Lemma runStatusEffect_refs c :
  started c = true ->
  exists g, refs (runStatusEffect c) = withAlarmGain g (refs c).
Proof.
  intros H. open_started c H. unfold runStatusEffect, statusEffect.
  cbn [props refs audioCtxRef alarmGainRef alarmOscRef].
  destruct (BotLockStatus_eqb _ _); eexists; reflexivity.
Qed.

Lemma muteEffect_refs c :
  started c = true -> exists g, refs (muteEffect c) = withMainGain g (refs c).
Proof. intros H. open_started c H. eexists. reflexivity. Qed.

Lemma panEffect_refs c :
  started c = true ->
  exists n, refs (panEffect c) = withSpatialPanner n (refs c).
Proof. intros H. open_started c H. eexists. reflexivity. Qed.

(** A render, stage by stage: a relation that holds across every stage
    holds across the render. *)
Lemma rerender_stages (R : Component -> Component -> Prop) :
  (forall a b c, R a b -> R b c -> R a c) ->
  (forall c c', refs c' = refs c -> R c c') ->
  (forall d, started d = true -> R d (muteEffect d)) ->
  (forall d, started d = true -> R d (panEffect d)) ->
  (forall d, started d = true -> R d (runStatusEffect d)) ->
  (forall d d', started d = true -> runProfileEffect d = Some d' -> R d d') ->
  forall p' c c', started c = true -> rerender p' c = Some c' -> R c c'.
Proof.
  intros Rtrans Rrefs Rmute Rpan Rstatus Rprofile p' c c' Hst.
  assert (forall (f : Component -> Component) (b : bool) c1,
            (forall d, started d = true ->
                       started (f d) = true /\ R d (f d)) ->
            started c1 = true /\ R c c1 ->
            started (if b then f c1 else c1) = true /\
            R c (if b then f c1 else c1)) as Hstage.
  { intros f b c1 Hf [Hst1 Hr]. destruct b; [|done].
    destruct (Hf c1 Hst1). split; [done|]. by eapply Rtrans. }
  unfold rerender. cbv zeta.
  generalize (negb (Bool.eqb (isMuted (props c)) (isMuted p'))).
  generalize (negb (Qeq_bool (scrollPos (props c)) (scrollPos p'))).
  generalize (negb (BotLockStatus_eqb (status (props c)) (status p'))).
  generalize (negb (profile (props c) =? profile p')%string).
  intros bp bs bq bm.
  assert (started (withProps p' c) = true /\ R c (withProps p' c)) as H0
      by (split; [done|by apply Rrefs]).
  set (c0 := withProps p' c) in *. clearbody c0.
  apply (Hstage (fun d => runCleanup (statusCleanup d) d) bs) in H0.
  2:{ intros d Hd. destruct (runCleanup_frame (statusCleanup d) d)
        as (_ & Hr & _).
      split; [unfold started; by rewrite Hr|by apply Rrefs]. }
  set (c1 := if bs then _ else _) in *. clearbody c1.
  apply (Hstage (fun d => runCleanup (profileCleanup d) d) bp) in H0.
  2:{ intros d Hd. destruct (runCleanup_frame (profileCleanup d) d)
        as (_ & Hr & _).
      split; [unfold started; by rewrite Hr|by apply Rrefs]. }
  set (c2 := if bp then _ else _) in *. clearbody c2.
  apply (Hstage muteEffect bm) in H0.
  2:{ intros d Hd. split; [|by apply Rmute].
      destruct (muteEffect_frame d) as (_ & _ & _ & _ & ->). done. }
  set (c3 := if bm then _ else _) in *. clearbody c3.
  apply (Hstage panEffect bq) in H0.
  2:{ intros d Hd. split; [|by apply Rpan].
      destruct (panEffect_frame d) as (_ & _ & _ & _ & ->). done. }
  set (c4 := if bq then _ else _) in *. clearbody c4.
  apply (Hstage runStatusEffect bs) in H0.
  2:{ intros d Hd. split; [|by apply Rstatus].
      destruct (runStatusEffect_frame d) as (_ & _ & _ & _ & _ & ->). done. }
  set (c5 := if bs then _ else _) in *. clearbody c5.
  destruct H0 as [Hst5 Hs5]. destruct bp.
  - intros Hrun. eapply Rtrans; [done|]. by apply Rprofile.
  - by intros [= <-].
Qed.

Lemma started_refs c c' : refs c' = refs c -> started c' = started c.
Proof. intros E. unfold started. by rewrite E. Qed.

(** X1.  Each call of the control surface writes through the refs of its own
    effect and through no other, and the mute and scroll calls leave the
    timers alone. *)
Theorem control_surface_frames c :
  started c = true ->
  (forall m c', setMuted m c = Some c' ->
     (exists g, refs c' = withMainGain g (refs c)) /\
     window c' = window c /\ statusCleanup c' = statusCleanup c /\
     profileCleanup c' = profileCleanup c) /\
  (forall q c', setScrollPosition q c = Some c' ->
     (exists n, refs c' = withSpatialPanner n (refs c)) /\
     window c' = window c /\ statusCleanup c' = statusCleanup c /\
     profileCleanup c' = profileCleanup c) /\
  (forall s c', setStatus s c = Some c' ->
     (exists g, refs c' = withAlarmGain g (refs c)) /\
     profileCleanup c' = profileCleanup c) /\
  (forall x c', setProfile x c = Some c' ->
     (exists f n b d,
        refs c' = withDroneGain d
                    (withOscBank b
                       (withNoiseGain n (withNoiseFilter f (refs c)))) /\
        length b = 3%nat) /\
     statusCleanup c' = statusCleanup c).
Proof.
  intros Hst. split; [|split; [|split]].
  - intros m c'. rewrite setMuted_unfold. cbv zeta. intros [= <-].
    destruct (Bool.eqb _ _).
    + open_started c Hst. split; [eexists; reflexivity|done].
    + destruct (muteEffect_frame
                  (withProps {| profile := profile (props c);
                                status := status (props c);
                                scrollPos := scrollPos (props c);
                                isMuted := m |} c))
        as (_ & [= -> -> ->] & _).
      split; [|done]. by apply (muteEffect_refs (withProps _ c)).
  - intros q c'. rewrite setScrollPosition_unfold. cbv zeta. intros [= <-].
    destruct (Qeq_bool _ _).
    + open_started c Hst. split; [eexists; reflexivity|done].
    + destruct (panEffect_frame
                  (withProps {| profile := profile (props c);
                                status := status (props c);
                                scrollPos := q;
                                isMuted := isMuted (props c) |} c))
        as (_ & [= -> -> ->] & _).
      split; [|done]. by apply (panEffect_refs (withProps _ c)).
  - intros s c'. rewrite setStatus_unfold. cbv zeta. intros [= <-].
    destruct (BotLockStatus_eqb _ _).
    + open_started c Hst. split; [eexists; reflexivity|done].
    + set (c0 := withProps _ c).
      destruct (runCleanup_frame (statusCleanup c) c0)
        as (_ & Hr & _ & Hpk).
      destruct (runStatusEffect_frame (runCleanup (statusCleanup c) c0))
        as (_ & -> & _).
      split; [|by rewrite Hpk].
      destruct (runStatusEffect_refs (runCleanup (statusCleanup c) c0))
        as [g Hg]; [by rewrite (started_refs c0 _ Hr)|].
      exists g. by rewrite Hg, Hr.
  - intros x c'. rewrite setProfile_unfold. cbv zeta.
    destruct (String.eqb _ _).
    + intros [= <-]. open_started c Hst.
      split; [eexists _, _, _, _; split; reflexivity|done].
    + set (c0 := withProps _ c). intros Hrun.
      destruct (runCleanup_frame (profileCleanup c) c0)
        as (_ & Hr & Hsk & _).
      assert (started (runCleanup (profileCleanup c) c0) = true) as Hst1
          by (by rewrite (started_refs c0 _ Hr)).
      destruct (runProfileEffect_refs _ _ Hst1 Hrun)
        as (f & n & b & d & Hrefs & Hlen).
      destruct (runProfileEffect_shape _ Hst1)
        as (c2 & Hrun2 & _ & Hsk2 & _).
      assert (Some c2 = Some c') as [= ->] by (rewrite <- Hrun2; exact Hrun).
      split; [|by rewrite Hsk2, Hsk].
      exists f, n, b, d. by rewrite Hrefs, Hr.
Qed.

Lemma control_surface_frames_witness :
  started (mounted hostileProps) = true /\
  exists c' g,
    setStatus LOCKED (mounted hostileProps) = Some c' /\
    refs c' = withAlarmGain g (refs (mounted hostileProps)).
Proof.
  split; [reflexivity|].
  destruct (control_surface_frames (mounted hostileProps) eq_refl)
    as (_ & _ & Hs & _).
  destruct (rerender_wf {| profile := "Hostile"; status := LOCKED;
                           scrollPos := 0; isMuted := false |}
              (mounted hostileProps)) as (c' & E & _).
  { apply (reachable_wf intrinsicValue).
    exists modern, hostileProps, []. reflexivity. }
  destruct (Hs LOCKED c' E) as [[g Hg] _].
  exists c', g. split; [exact E|exact Hg].
Defined.

(** ** The first render *)

(** X2.  The first render succeeds exactly when the window offers a
    constructor that returns a context with the factories of the effect:
    [AudioContext], or [webkitAudioContext] where [AudioContext] is
    undefined; the prefixed constructor is no fallback for an [AudioContext]
    that throws.  Where it fails nothing of the component is left.  Where it
    succeeds it builds the graph and leaves it as the props say: master gain
    at and toward 0 or 0.4, pan toward [scrollPos / 50 - 1], alarm gain at 0
    and toward 0.1 or 0, drone gain at 0.2, the alarm oscillator a sawtooth,
    the filter and the bank as the row of the profile says (the baseline and
    the fresh nodes for a string that is no profile), and live exactly the
    routines of the status and of the profile. *)
Theorem first_render g p :
  (mount g p = None <->
   ~ (window_AudioContext g = Some Constructs \/
      (window_AudioContext g = None /\
       window_webkitAudioContext g = Some Constructs))) /\
  ((window_AudioContext g = Some Constructs \/
    (window_AudioContext g = None /\
     window_webkitAudioContext g = Some Constructs)) ->
   exists c,
    mount g p = Some c /\ props c = p /\ started c = true /\ clock c = 0%Q /\
    masterGain c
    = Some {| value := if isMuted p then 0 else 0.4;
              events := [SetTarget (if isMuted p then 0 else 0.4) 0 0.1] |} /\
    panning c
    = Some {| value := 0;
              events := [SetTarget (scrollPos p / 50 - 1)%Q 0 0.1] |} /\
    alarmGain c
    = Some {| value := 0;
              events := [if BotLockStatus_eqb (status p) OVERRIDE
                         then SetTarget 0.1 0 0.1 else SetTarget 0 0 0.2] |} /\
    alarmOscRef (refs c)
    = Some {| osc_type := sawtooth; osc_frequency := newParam 440 |} /\
    (value <$> droneGain c) = Some 0.2%Q /\
    targets c
    = match specTable (profile p) with
      | Some row =>
          {| t_filterType := Some (row_filter row);
             t_cutoff := Some (row_cutoff row);
             t_resonance := Some (default 1%Q (row_resonance row));
             t_noiseGain := Some (row_noiseGain row);
             t_droneGain := Some 0.2%Q;
             t_bankTypes := (row_bank row).*1;
             t_bankFrequencies := Some <$> (row_bank row).*2 |}
      | None =>
          {| t_filterType := Some lowpass;
             t_cutoff := None;
             t_resonance := Some 1%Q;
             t_noiseGain := Some 0.5%Q;
             t_droneGain := Some 0.2%Q;
             t_bankTypes := [sine; sine; sine];
             t_bankFrequencies := [None; None; None] |}
      end /\
    (forall i, live i c <->
       (status p = OVERRIDE /\ i = alarmInterval) \/
       profileRoutine (profile p) = Some i)).
Proof.
  assert (AudioContextClass g = Some Constructs <->
          window_AudioContext g = Some Constructs \/
          (window_AudioContext g = None /\
           window_webkitAudioContext g = Some Constructs)) as Hclass.
  { unfold AudioContextClass. destruct (window_AudioContext g) as [[]|].
    - split; [by left|done].
    - split; [done|by intros [|[]]].
    - split; [done|by intros [|[]]].
    - split; [by right|by intros [|[]]]. }
  rewrite <- Hclass. split.
  { split.
    - intros Hm Hg. destruct (mount_wf g p Hg) as (c & Hc & _). congruence.
    - intros Hg. destruct (mount g p) as [c|] eqn:Hm; [|done].
      by apply mount_Some in Hm. }
  intros Hg. destruct (mount_wf g p Hg) as (c & Hm & Hp & Hwf).
  exists c. split; [done|]. split; [done|].
  pose proof Hwf as (Hst & _). split; [done|].
  rewrite (mount_unfold g p Hg) in Hm.
  set (c3 := runStatusEffect _) in Hm.
  assert (started c3 = true) as Hst3 by (by destruct p as [x [] q []]).
  assert (props c3 = p) as Hp3 by (by destruct p as [x [] q []]).
  destruct (runProfileEffect_shape c3 Hst3)
    as (c' & Hrun & _ & _ & Hmu & Hpa & Hcl & _).
  assert (Some c' = Some c) as [= ->] by (rewrite <- Hrun; exact Hm).
  destruct (runProfileEffect_refs c3 c Hst3 Hm) as (f & n & b & d & Hr & _).
  injection Hmu as Hmu _. injection Hpa as Hpa _.
  split; [rewrite Hcl; by destruct p as [x [] q []]|].
  split; [rewrite Hmu; by destruct p as [x [] q []]|].
  split; [rewrite Hpa; by destruct p as [x [] q []]|].
  split; [unfold alarmGain; rewrite Hr; by destruct p as [x [] q []]|].
  split; [rewrite Hr; by destruct p as [x [] q []]|].
  split; [|split].
  - pose proof (smoothStep_profile c3 c Hst3 Hm) as Hs.
    eapply (Forall2_lookup_lr _ _ _ 3) in Hs; [|reflexivity|reflexivity].
    destruct Hs as [-> _]. by destruct p as [x [] q []].
  - destruct (specTable (profile p)) as [row|] eqn:Hrow.
    + apply (targets_of_table c3); [done|by rewrite Hp3|done].
    + rewrite (targets_of_unknown c3 c); [|done|by rewrite Hp3|done].
      by destruct p as [x [] q []].
  - intros i. rewrite wf_live by done. by rewrite Hp.
Qed.

(** ** The guards of the effects *)

Section Guards.
Variable computedValue : AudioParam -> Q -> Q.

(** X3.  After the first render, whatever is done to the component, every ref
    stays set and the bank holds exactly three oscillators: no effect and no
    tick returns at its guard, and for a draw in [0, 1) the tick of
    'Electronic' finds the oscillator it picks, so it does not throw. *)
Theorem guards_always_pass c :
  reachable computedValue c ->
  (exists ctx mg nf ng b0 b1 b2 dg sp ao ag,
     refs c = {| audioCtxRef := Some ctx; mainGainRef := Some mg;
                 noiseFilterRef := Some nf; noiseGainRef := Some ng;
                 oscBankRef := [b0; b1; b2]; droneGainRef := Some dg;
                 spatialPannerRef := Some sp; alarmOscRef := Some ao;
                 alarmGainRef := Some ag |}) /\
  (forall rnd, (0 <= rnd 0%nat)%Q -> (rnd 0%nat < 1)%Q ->
     is_Some (electronicTick computedValue rnd c)).
Proof.
  intros (Hst & _)%reachable_wf. split; [by apply started_inv|].
  intros rnd H0 H1. open_started c Hst. unfold electronicTick.
  cbn [refs audioCtxRef oscBankRef].
  destruct (Qfloor_draw _ H0 H1) as [Hlo Hhi]. unfold bankAt.
  destruct (Z.ltb_spec (Qfloor (rnd 0%nat * 3)) 0) as [|_]; [lia|].
  destruct (Z.to_nat (Qfloor (rnd 0%nat * 3))) as [|[|[|k]]] eqn:Ek;
    [by eexists..|lia].
Qed.

End Guards.

Lemma guards_always_pass_witness :
  reachable intrinsicValue (mounted electronicProps) /\
  is_Some (electronicTick intrinsicValue halfDraws (mounted electronicProps)).
Proof.
  assert (reachable intrinsicValue (mounted electronicProps)) as H
      by (exists modern, electronicProps, []; reflexivity).
  split; [exact H|].
  apply (proj2 (guards_always_pass intrinsicValue _ H) halfDraws); done.
Defined.

(** ** Handles that were cleared *)

Lemma wf_profile_handle c h :
  wf c -> profileCleanup c = ClearInterval (Some h) ->
  (h < nextHandle (window c))%positive.
Proof.
  intros (_ & (Hlt & _ & _ & _ & Hop) & _) Hk.
  specialize (Hop _ eq_refl).
  destruct (profileRoutine (profile (props c))) as [i|].
  - destruct Hop as (h' & Hk' & Hi). rewrite Hk in Hk'.
    injection Hk' as ->. by eapply Hlt.
  - congruence.
Qed.

Lemma wf_status_handle c h :
  wf c -> statusCleanup c = ClearInterval (Some h) ->
  (h < nextHandle (window c))%positive.
Proof.
  intros (_ & (Hlt & _ & _ & Hos & _) & _) Hk.
  specialize (Hos _ eq_refl).
  destruct (BotLockStatus_eqb (status (props c)) OVERRIDE).
  - destruct Hos as (h' & Hk' & Hi). rewrite Hk in Hk'.
    injection Hk' as ->. by eapply Hlt.
  - congruence.
Qed.

Lemma lookup_runCleanup k d h i :
  intervals (window (runCleanup k d)) !! h = Some i ->
  intervals (window d) !! h = Some i /\ k <> ClearInterval (Some h).
Proof.
  destruct k as [|[h'|]]; simpl; [done| |done].
  intros [Hne Hi]%lookup_delete_Some. split; [done|congruence].
Qed.

Section Handles.
Variable computedValue : AudioParam -> Q -> Q.

(** X4.  Once the profile (the status) has changed, the handle of the routine
    of the old profile (status) is no longer in the table of intervals: a tick
    under that handle leaves the component as it is. *)
Theorem cleared_routine_is_dead c :
  reachable computedValue c ->
  (forall h x c',
     profileCleanup c = ClearInterval (Some h) ->
     profile (props c) <> x -> setProfile x c = Some c' ->
     intervals (window c') !! h = None /\
     forall rnd, fire computedValue h rnd c' = c') /\
  (forall h s c',
     statusCleanup c = ClearInterval (Some h) ->
     status (props c) <> s -> setStatus s c = Some c' ->
     intervals (window c') !! h = None /\
     forall rnd, fire computedValue h rnd c' = c').
Proof.
  intros Hwf%reachable_wf. split.
  - intros h x c' Hk Hne Hc'.
    assert (intervals (window c') !! h = None) as Hh.
    { destruct (setProfile_changed c x Hwf Hne)
        as (c1 & E & _ & _ & _ & Hst1 & Hw).
      rewrite E in Hc'.
      destruct (runProfileEffect_shape c1 Hst1)
        as (c2 & Hrun & _ & _ & _ & _ & _ & _ & Hshape).
      rewrite Hc' in Hrun. injection Hrun as <-.
      rewrite Hk in Hw. simpl in Hw.
      pose proof (wf_profile_handle c h Hwf Hk) as Hlt.
      destruct (profileRoutine (profile (props c1)));
        destruct Hshape as [-> _]; rewrite Hw; simpl.
      - rewrite lookup_insert_ne by lia. apply lookup_delete_eq.
      - apply lookup_delete_eq. }
    split; [done|]. intros rnd. unfold fire. by rewrite Hh.
  - intros h s c' Hk Hne Hc'.
    assert (intervals (window c') !! h = None) as Hh.
    { pose proof (wf_status_handle c h Hwf Hk) as Hlt.
      rewrite setStatus_unfold in Hc'. cbv zeta in Hc'.
      destruct (BotLockStatus_eqb (status (props c)) s) eqn:Es.
      { by apply BotLockStatus_eqb_eq in Es. }
      injection Hc' as <-.
      set (c0 := withProps _ c).
      assert (started (runCleanup (statusCleanup c) c0) = true) as Hst1.
      { destruct Hwf as (Hst & _).
        rewrite (started_refs c0); [done|apply runCleanup_frame]. }
      pose proof (runStatusEffect_timers _ Hst1) as Hshape.
      rewrite Hk in *.
      destruct (BotLockStatus_eqb _ OVERRIDE);
        destruct Hshape as [-> _]; simpl.
      - rewrite lookup_insert_ne by lia. apply lookup_delete_eq.
      - apply lookup_delete_eq. }
    split; [done|]. intros rnd. unfold fire. by rewrite Hh.
Qed.

(** ** Teardown *)

(** X5.  When the component goes away no interval stays live, whatever was
    done to it before; the nodes stay as they were and the context of the
    graph is the one closed. *)
Theorem unmount_clears_intervals c :
  reachable computedValue c ->
  intervals (window (remains (unmount c))) = ∅ /\
  refs (remains (unmount c)) = refs c /\
  closedContext (unmount c) = audioCtxRef (refs c) /\
  is_Some (closedContext (unmount c)).
Proof.
  intros Hwf%reachable_wf.
  pose proof Hwf as (Hst & (Hlt & Hs & Hp & _) & _).
  unfold unmount. cbv zeta. cbn [remains closedContext].
  destruct (runCleanup_frame (statusCleanup c) c) as (_ & Hr1 & _ & Hpk1).
  set (c1 := runCleanup (statusCleanup c) c) in *.
  destruct (runCleanup_frame (profileCleanup c1) c1) as (_ & Hr2 & _).
  split; [|split; [by rewrite Hr2, Hr1|split; [done|]]].
  - apply map_empty. intros h.
    destruct (intervals (window (runCleanup _ _)) !! h) as [i|] eqn:Hh;
      [exfalso|done].
    apply lookup_runCleanup in Hh as [Hh Hk2].
    apply lookup_runCleanup in Hh as [Hi Hk1].
    destruct (axisOf (callback i)) eqn:Hax.
    + by destruct (Hs _ _ Hi Hax) as (_ & Hk & _).
    + destruct (Hp _ _ Hi Hax) as (x & _ & _ & Hk). congruence.
  - destruct (started_inv c Hst) as (?&?&?&?&?&?&?&?&?&?&?&->). by eexists.
Qed.

End Handles.

Lemma cleared_routine_is_dead_witness :
  reachable intrinsicValue (mounted hostileProps) /\
  profileCleanup (mounted hostileProps) = ClearInterval (Some 2%positive) /\
  exists c',
    setProfile "Void" (mounted hostileProps) = Some c' /\
    fire intrinsicValue 2 halfDraws c' = c'.
Proof.
  assert (reachable intrinsicValue (mounted hostileProps)) as H
      by (exists modern, hostileProps, []; reflexivity).
  split; [exact H|]. split; [reflexivity|].
  destruct (rerender_wf {| profile := "Void"; status := OVERRIDE;
                           scrollPos := 0; isMuted := false |}
              (mounted hostileProps) (reachable_wf _ _ H)) as (c' & E & _).
  exists c'. split; [exact E|].
  apply (proj1 (cleared_routine_is_dead intrinsicValue _ H) 2%positive
           "Void"%string c' eq_refl).
  - vm_compute. discriminate.
  - exact E.
Defined.

Lemma unmount_clears_intervals_witness :
  reachable intrinsicValue (mounted hostileProps) /\
  intervals (window (mounted hostileProps)) <> ∅ /\
  intervals (window (remains (unmount (mounted hostileProps)))) = ∅.
Proof.
  assert (reachable intrinsicValue (mounted hostileProps)) as H
      by (exists modern, hostileProps, []; reflexivity).
  split; [exact H|]. split.
  - intros E. apply (f_equal (fun m => m !! 1%positive)) in E.
    vm_compute in E. discriminate.
  - exact (proj1 (unmount_clears_intervals intrinsicValue _ H)).
Defined.

(** ** The logs only grow *)

Lemma smoothStep_weaken (P P' : AutomationEvent -> Prop) c c' :
  (forall e, P e -> P' e) -> smoothStep P c c' -> smoothStep P' c c'.
Proof.
  intros HP H. unfold smoothStep in *. eapply Forall2_impl; [exact H|].
  intros o o' (V & new & E & F). split; [done|]. exists new. split; [done|].
  eapply Forall_impl; [exact F|done].
Qed.

Lemma extendsBy_any p e :
  extendsBy (fun _ => True) (Some p) (Some (schedule e p)).
Proof. by apply extendsBy_one. Qed.

Ltac grow_params :=
  unfold smoothStep, paramsOf, masterGain, panning, noiseGain, droneGain,
    alarmGain, alarmFrequency, cutoff, resonance; cbn;
  repeat (apply Forall2_cons; split;
          [first [ apply extendsBy_refl
                 | apply extendsBy_any
                 | eapply extendsBy_trans; [apply extendsBy_any|];
                   first [ apply extendsBy_any
                         | eapply extendsBy_trans; apply extendsBy_any ] ]|]);
  apply Forall2_nil_2.

Lemma sameAlarmShape_trans a b c :
  sameAlarmShape a b -> sameAlarmShape b c -> sameAlarmShape a c.
Proof. intros [A1 A2] [B1 B2]. split; congruence. Qed.

Lemma sameAlarmShape_refs c c' : refs c' = refs c -> sameAlarmShape c c'.
Proof. intros E. unfold sameAlarmShape. by rewrite E. Qed.

Lemma rerender_sameAlarmShape p' c c' :
  started c = true -> rerender p' c = Some c' -> sameAlarmShape c c'.
Proof.
  apply (rerender_stages sameAlarmShape).
  - apply sameAlarmShape_trans.
  - apply sameAlarmShape_refs.
  - intros d Hd. destruct (muteEffect_refs d Hd) as [g E].
    unfold sameAlarmShape. by rewrite E.
  - intros d Hd. destruct (panEffect_refs d Hd) as [g E].
    unfold sameAlarmShape. by rewrite E.
  - intros d Hd. destruct (runStatusEffect_refs d Hd) as [g E].
    unfold sameAlarmShape. by rewrite E.
  - intros d d' Hd Hrun.
    destruct (runProfileEffect_refs d d' Hd Hrun) as (f & n & b & g & E & Hl).
    unfold sameAlarmShape. rewrite E. simpl. split; [done|].
    rewrite Hl. destruct (started_inv d Hd) as (?&?&?&?&?&?&?&?&?&?&?&->).
    done.
Qed.

Section Growth.
Variable computedValue : AudioParam -> Q -> Q.

Lemma fire_grows h rnd c :
  started c = true ->
  smoothStep (fun _ => True) c (fire computedValue h rnd c) /\
  sameAlarmShape c (fire computedValue h rnd c).
Proof.
  intros H. unfold fire.
  destruct (intervals (window c) !! h) as [iv|];
    [|split; [by apply smoothStep_refs|by apply sameAlarmShape_refs]].
  open_started c H. cbn [window].
  destruct (callback iv).
  - unfold alarmSweepTick. split; [grow_params|done].
  - unfold naturalTick. split; [grow_params|done].
  - unfold industrialTick. split; [grow_params|done].
  - unfold electronicTick. cbn [refs audioCtxRef oscBankRef].
    unfold bankAt. set (slot := Qfloor _).
    destruct (slot <? 0)%Z;
      [split; [by apply smoothStep_refs|by apply sameAlarmShape_refs]|].
    destruct (Z.to_nat slot) as [|[|[|k]]]; cbn [lookup list_lookup mbind
                                                  option_bind default];
      (split; [grow_params|done]).
  - unfold hostileTick. split; [grow_params|done].
Qed.

Lemma elapse_grows dt c :
  smoothStep (fun _ => True) c (elapse dt c) /\
  sameAlarmShape c (elapse dt c).
Proof.
  assert (paramsOf (elapse dt c) = paramsOf c /\
          sameAlarmShape c (elapse dt c)) as [E Hs].
  { open_component c. unfold elapse; simpl.
    destruct ctx; [|done]. by destruct (Qle_bool 0 dt). }
  split; [|done]. unfold smoothStep. rewrite E.
  apply Forall2_same_length_lookup. split; [done|].
  intros i x y Hx Hy. rewrite Hx in Hy. injection Hy as <-.
  apply extendsBy_refl.
Qed.

(** X6.  Along every history of the mounted component the events of each
    parameter are only added to, never removed or reordered, and no intrinsic
    value is written; the alarm oscillator keeps its waveform and the bank its
    three oscillators. *)
Theorem logs_only_grow acts : forall c c',
  reachable computedValue c -> run computedValue c acts = Some c' ->
  smoothStep (fun _ => True) c c' /\ sameAlarmShape c c' /\
  length (oscBankRef (refs c')) = 3%nat.
Proof.
  assert (forall c c', wf c -> run computedValue c acts = Some c' ->
            smoothStep (fun _ => True) c c' /\ sameAlarmShape c c') as Hrun.
  { induction acts as [|a acts IH]; intros c c' Hwf Hr; simpl in Hr.
    - injection Hr as <-.
      split; [by apply smoothStep_refs|by apply sameAlarmShape_refs].
    - destruct (step_wf computedValue c a Hwf) as (c1 & Hs & Hwf1).
      rewrite Hs in Hr. simpl in Hr.
      destruct (IH c1 c' Hwf1 Hr) as [G1 S1].
      pose proof Hwf as (Hst & _).
      assert (smoothStep (fun _ => True) c c1 /\ sameAlarmShape c c1)
        as [G0 S0].
      { destruct a as [x|x|x|x|h rnd|dt]; simpl in Hs.
        1-4: split;
          [eapply smoothStep_weaken; [|by eapply rerender_smooth]; done
          |by eapply rerender_sameAlarmShape].
        - injection Hs as <-. by apply fire_grows.
        - injection Hs as <-. by apply elapse_grows. }
      split; [by eapply smoothStep_trans|by eapply sameAlarmShape_trans]. }
  intros c c' Hwf%reachable_wf Hr.
  destruct (Hrun c c' Hwf Hr) as [G S]. split; [done|]. split; [done|].
  destruct S as [_ ->]. destruct Hwf as (Hst & _).
  destruct (started_inv c Hst) as (?&?&?&?&?&?&?&?&?&?&?&->). done.
Qed.

End Growth.

Lemma logs_only_grow_witness :
  reachable intrinsicValue (mounted electronicProps) /\
  exists c',
    run intrinsicValue (mounted electronicProps)
      [SetMuted true; Fire 1 zeroDraws; Elapse 1; SetProfile "Hostile"]
    = Some c' /\
    smoothStep (fun _ => True) (mounted electronicProps) c'.
Proof.
  assert (reachable intrinsicValue (mounted electronicProps)) as H
      by (exists modern, electronicProps, []; reflexivity).
  split; [exact H|].
  destruct (run_wf intrinsicValue
              [SetMuted true; Fire 1 zeroDraws; Elapse 1; SetProfile "Hostile"]
              (mounted electronicProps) (reachable_wf _ _ H)) as (c' & E & _).
  exists c'. split; [exact E|].
  exact (proj1 (logs_only_grow intrinsicValue _ _ c' H E)).
Defined.

(** ** The drone gain: the pulse of 'Industrial' and a change of profile *)

Lemma droneGrows_same c c' :
  droneGain c' = droneGain c -> clock c' = clock c -> droneGrows c c'.
Proof.
  intros Hd Hc. split; [done|]. intros p' Hp. exists p', [].
  rewrite <- Hd. split; [done|]. by rewrite app_nil_r.
Qed.

Lemma droneGrows_refs c c' : refs c' = refs c -> droneGrows c c'.
Proof.
  intros E. apply droneGrows_same; unfold droneGain, clock; by rewrite E.
Qed.

Lemma droneGrows_trans a b c :
  droneGrows a b -> droneGrows b c -> droneGrows a c.
Proof.
  intros [Hc1 H1] [Hc2 H2]. split; [congruence|]. intros p3 Hp3.
  destruct (H2 _ Hp3) as (p2 & new2 & Hp2 & E2 & F2).
  destruct (H1 _ Hp2) as (p1 & new1 & Hp1 & E1 & F1).
  exists p1, (new1 ++ new2). split; [done|].
  split; [by rewrite E2, E1, app_assoc|].
  apply Forall_app. split; [done|].
  eapply Forall_impl; [exact F2|]. intros e He. simpl in He.
  by rewrite <- Hc1.
Qed.

Lemma droneTimesOk_grows c c' :
  droneGrows c c' -> droneTimesOk c -> droneTimesOk c'.
Proof.
  intros [Hc Hg] Hok p' e Hp' He. rewrite Hc.
  destruct (Hg _ Hp') as (p & new & Hp & E & F).
  rewrite E in He. apply elem_of_app in He as [He|He].
  - by eapply Hok.
  - rewrite Forall_forall in F. by apply F.
Qed.

Lemma runProfileEffect_drone c c' :
  started c = true -> runProfileEffect c = Some c' ->
  clock c' = clock c /\
  scheduled (droneGain c')
  = scheduled (droneGain c) ++ [SetTarget 0.2 (clock c) 0.5] /\
  is_Some (droneGain c').
Proof.
  intros H Hrun.
  assert (is_Some (droneGain c') /\ clock c' = clock c) as [Hs Hc].
  { destruct (runProfileEffect_refs c c' H Hrun) as (f & n & b & d & E & _).
    unfold droneGain, clock. rewrite E. simpl. split; [by eexists|].
    by destruct (refs c). }
  split; [done|]. split; [|done].
  destruct (specTable (profile (props c))) as [row|] eqn:Hrow.
  - destruct (runProfileEffect_table c row H Hrow)
      as (c2 & E2 & _ & _ & Hd & _).
    rewrite Hrun in E2. by injection E2 as <-.
  - destruct (runProfileEffect_unknown c H Hrow)
      as (c2 & E2 & _ & _ & Hd & _).
    rewrite Hrun in E2. by injection E2 as <-.
Qed.

Lemma droneGrows_profile c c' :
  started c = true -> runProfileEffect c = Some c' -> droneGrows c c'.
Proof.
  intros H Hrun.
  destruct (runProfileEffect_drone c c' H Hrun) as (Hc & Hd & _).
  split; [done|]. intros p' Hp'.
  assert (is_Some (droneGain c)) as [p Hp].
  { open_started c H. by eexists. }
  exists p, [SetTarget 0.2 (clock c) 0.5]. split; [done|].
  rewrite Hp, Hp' in Hd. simpl in Hd. split; [done|].
  repeat constructor. simpl. lra.
Qed.

Lemma rerender_droneGrows p' c c' :
  started c = true -> rerender p' c = Some c' -> droneGrows c c'.
Proof.
  apply (rerender_stages droneGrows).
  - apply droneGrows_trans.
  - apply droneGrows_refs.
  - intros d Hd. destruct (muteEffect_refs d Hd) as [g E].
    apply droneGrows_same; unfold droneGain, clock; rewrite E;
      by destruct (refs d).
  - intros d Hd. destruct (panEffect_refs d Hd) as [g E].
    apply droneGrows_same; unfold droneGain, clock; rewrite E;
      by destruct (refs d).
  - intros d Hd. destruct (runStatusEffect_refs d Hd) as [g E].
    apply droneGrows_same; unfold droneGain, clock; rewrite E;
      by destruct (refs d).
  - apply droneGrows_profile.
Qed.

Section Drone.
Variable computedValue : AudioParam -> Q -> Q.

Lemma industrialTick_drone c :
  started c = true ->
  clock (industrialTick c) = clock c /\
  scheduled (droneGain (industrialTick c))
  = scheduled (droneGain c)
    ++ [SetValue 0.15 (clock c); LinearRamp 0.25 (clock c + 0.1);
        LinearRamp 0.15 (clock c + 0.5)] /\
  is_Some (droneGain (industrialTick c)) /\
  props (industrialTick c) = props c /\
  (value <$> droneGain (industrialTick c)) = (value <$> droneGain c).
Proof.
  intros H. open_started c H.
  unfold industrialTick, droneGain, scheduled, clock. cbn.
  rewrite <- !app_assoc. repeat split. by eexists.
Qed.

Lemma fire_droneGrows h rnd c :
  started c = true -> droneGrows c (fire computedValue h rnd c).
Proof.
  intros H. unfold fire.
  destruct (intervals (window c) !! h) as [iv|]; [|by apply droneGrows_refs].
  destruct (callback iv).
  - open_started c H. by apply droneGrows_same.
  - open_started c H. by apply droneGrows_same.
  - destruct (industrialTick_drone c H) as (Hc & Hd & _).
    split; [done|]. intros p' Hp'.
    assert (is_Some (droneGain c)) as [p Hp].
    { open_started c H. by eexists. }
    eexists p, _. split; [done|].
    rewrite Hp, Hp' in Hd. simpl in Hd. split; [exact Hd|].
    repeat constructor; simpl; lra.
  - destruct (electronicTick computedValue rnd c) as [c'|] eqn:E;
      [|by apply droneGrows_refs].
    simpl. apply droneGrows_same.
    + open_started c H. unfold electronicTick in E.
      cbn [refs audioCtxRef oscBankRef] in E.
      destruct (bankAt _ _); cbn [mbind option_bind] in E; [|discriminate].
      by injection E as <-.
    + by destruct (electronicTick_bank _ _ _ _ E) as (_ & ? & _).
  - open_started c H. by apply droneGrows_same.
Qed.

Lemma elapse_droneTimesOk dt c : droneTimesOk c -> droneTimesOk (elapse dt c).
Proof.
  assert (droneGain (elapse dt c) = droneGain c) as Hd.
  { open_component c. unfold elapse; simpl.
    destruct ctx; [|done]. by destruct (Qle_bool 0 dt). }
  intros Hok q e Hq He.
  destruct (elapse_frame dt c) as (_ & _ & _ & _ & _ & _ & Hle).
  rewrite Hd in Hq. specialize (Hok q e Hq He). lra.
Qed.

Lemma mount_droneTimesOk gl p c : mount gl p = Some c -> droneTimesOk c.
Proof.
  intros Hm. rewrite (mount_unfold gl p (mount_Some gl p c Hm)) in Hm.
  revert Hm. set (c0 := withRefs (graphOf p) (unmounted p)). intros Hm.
  assert (started c0 = true) as H0 by done.
  assert (droneTimesOk c0) as Hok0.
  { intros q e Hq He. unfold droneGain in Hq. simpl in Hq.
    injection Hq as <-. simpl in He. by apply elem_of_nil in He. }
  destruct (muteEffect_frame c0) as (_ & _ & _ & _ & S1).
  destruct (panEffect_frame (muteEffect c0)) as (_ & _ & _ & _ & S2).
  destruct (runStatusEffect_frame (panEffect (muteEffect c0)))
    as (_ & _ & _ & _ & _ & S3).
  assert (started (muteEffect c0) = true) as H1 by congruence.
  assert (started (panEffect (muteEffect c0)) = true) as H2 by congruence.
  assert (started (runStatusEffect (panEffect (muteEffect c0))) = true)
    as H3 by congruence.
  eapply droneTimesOk_grows; [by eapply droneGrows_profile|].
  eapply droneTimesOk_grows.
  { destruct (runStatusEffect_refs _ H2) as [g E].
    apply droneGrows_same; unfold droneGain, clock; rewrite E;
      by destruct (refs _). }
  eapply droneTimesOk_grows.
  { destruct (panEffect_refs _ H1) as [g E].
    apply droneGrows_same; unfold droneGain, clock; rewrite E;
      by destruct (refs _). }
  eapply droneTimesOk_grows; [|exact Hok0].
  destruct (muteEffect_refs _ H0) as [g E].
  apply droneGrows_same; unfold droneGain, clock; rewrite E;
    by destruct (refs _).
Qed.

Lemma run_droneTimesOk acts : forall c c',
  wf c -> droneTimesOk c -> run computedValue c acts = Some c' ->
  droneTimesOk c'.
Proof.
  induction acts as [|a acts IH]; intros c c' Hwf Hok Hr; simpl in Hr.
  - by injection Hr as <-.
  - destruct (step_wf computedValue c a Hwf) as (c1 & Hs & Hwf1).
    rewrite Hs in Hr. simpl in Hr. pose proof Hwf as (Hst & _).
    apply (IH c1); [done| |done].
    destruct a as [x|x|x|x|h rnd|dt]; simpl in Hs.
    1-4: eapply droneTimesOk_grows; [by eapply rerender_droneGrows|done].
    + injection Hs as <-.
      eapply droneTimesOk_grows; [by apply fire_droneGrows|done].
    + injection Hs as <-. by apply elapse_droneTimesOk.
Qed.

Lemma reachable_droneTimesOk c :
  reachable computedValue c -> droneTimesOk c.
Proof.
  intros (g & p & acts & H).
  destruct (mount g p) as [c0|] eqn:E; [|done]. simpl in H.
  destruct (mount_wf g p (mount_Some g p c0 E)) as (c1 & E1 & _ & Hwf).
  assert (c1 = c0) as -> by congruence.
  eapply run_droneTimesOk; [exact Hwf| |exact H].
  by eapply mount_droneTimesOk.
Qed.

End Drone.

Lemma elapse_clock dt c :
  started c = true -> (0 <= dt)%Q ->
  clock (elapse dt c) = (clock c + dt)%Q /\
  droneGain (elapse dt c) = droneGain c /\
  props (elapse dt c) = props c.
Proof.
  intros H Hdt. open_started c H. unfold elapse. cbn.
  apply Qle_bool_iff in Hdt. rewrite Hdt. done.
Qed.

Section Pulse.
Variable computedValue : AudioParam -> Q -> Q.

(** X7.  A pulse of 'Industrial' outlasts a change of profile that comes less
    than half a second after it: the change sends the drone gain toward 0.2,
    but the ramp of the pulse ends later than that call starts, so the last
    event of the timeline is the ramp and the gain settles at 0.15. *)
Theorem pulse_outlasts_profile_change c h rnd dt x :
  reachable computedValue c ->
  intervals (window c) !! h
  = Some {| callback := IndustrialPulse; delay := 1000 |} ->
  (0 <= dt)%Q -> (dt < 0.5)%Q -> profile (props c) <> x ->
  exists c' p',
    setProfile x (elapse dt (fire computedValue h rnd c)) = Some c' /\
    droneGain c' = Some p' /\
    target p' = Some 0.2%Q /\
    finalEvent (events p') = Some (LinearRamp 0.15 (clock c + 0.5)) /\
    settledValue p' = 0.15%Q.
Proof.
  intros Hre Hh Hdt0 Hdt Hne.
  pose proof (reachable_wf _ _ Hre) as Hwf. pose proof Hwf as (Hst & _).
  pose proof (reachable_droneTimesOk _ _ Hre) as Hok.
  pose proof (fire_wf computedValue h rnd c Hwf) as Hwf1.
  assert (fire computedValue h rnd c = industrialTick c) as Hf.
  { unfold fire. by rewrite Hh. }
  rewrite Hf in *. set (c1 := industrialTick c) in *.
  destruct (industrialTick_drone c Hst) as (Hc1 & Hd1 & _ & Hp1 & _).
  fold c1 in Hc1, Hd1, Hp1. pose proof Hwf1 as (Hst1 & _).
  destruct (elapse_clock dt c1 Hst1 Hdt0) as (Hc2 & Hd2 & Hp2).
  pose proof (elapse_wf dt c1 Hwf1) as Hwf2.
  set (c2 := elapse dt c1) in *.
  destruct (setProfile_changed c2 x Hwf2) as (c3 & E3 & Hr3 & _ & _ & Hst3 & _);
    [congruence|].
  destruct (runProfileEffect_shape c3 Hst3) as (c' & Hrun & _).
  destruct (runProfileEffect_drone c3 c' Hst3 Hrun) as (_ & Hd & [p' Hp']).
  exists c', p'. split; [congruence|]. split; [done|].
  assert (droneGain c3 = droneGain c2 /\ clock c3 = clock c2) as [Hd3 Hc3]
      by (unfold droneGain, clock; by rewrite Hr3).
  rewrite Hp', Hd3, Hc3, Hd2, Hd1, Hc2, Hc1 in Hd. simpl in Hd.
  set (t := clock c) in *.
  set (old := scheduled (droneGain c)) in *.
  assert (forall a, a ∈ old -> (evTime a <= t + 0.5)%Q) as Hold.
  { intros a Ha. unfold old in Ha. destruct (droneGain c) as [q|] eqn:Eq;
      [|by apply elem_of_nil in Ha]. by eapply Hok. }
  assert (finalEvent (events p') = Some (LinearRamp 0.15 (t + 0.5))) as Hfin.
  { rewrite Hd. unfold finalEvent. rewrite fold_left_app.
    change (fold_left laterEvent ?l None) with (finalEvent l).
    replace (old ++ [SetValue 0.15 t; LinearRamp 0.25 (t + 0.1);
                     LinearRamp 0.15 (t + 0.5)])
      with ((old ++ [SetValue 0.15 t; LinearRamp 0.25 (t + 0.1)])
            ++ [LinearRamp 0.15 (t + 0.5)])
      by (by rewrite <- app_assoc).
    rewrite finalEvent_snoc.
    - simpl. destruct (Qle_bool (t + 0.5) (t + dt)) eqn:E; [|done].
      apply Qle_bool_iff in E. lra.
    - intros a [Ha|Ha]%elem_of_app; [by apply Hold|].
      apply elem_of_cons in Ha as [->|Ha]; [simpl; lra|].
      apply list_elem_of_singleton in Ha as ->. simpl. lra. }
  split; [|split; [done|]].
  - unfold target. rewrite Hd, last_snoc. done.
  - unfold settledValue. by rewrite Hfin.
Qed.

End Pulse.

Lemma pulse_outlasts_profile_change_witness :
  reachable intrinsicValue (mounted industrialProps) /\
  exists c' p',
    setProfile "Void"
      (elapse 0.25 (fire intrinsicValue 1 zeroDraws (mounted industrialProps)))
    = Some c' /\
    droneGain c' = Some p' /\ target p' = Some 0.2%Q /\
    settledValue p' = 0.15%Q.
Proof.
  assert (reachable intrinsicValue (mounted industrialProps)) as H
      by (exists modern, industrialProps, []; reflexivity).
  split; [exact H|].
  destruct (pulse_outlasts_profile_change intrinsicValue
              (mounted industrialProps) 1 zeroDraws 0.25 "Void" H)
    as (c' & p' & E & Hd & Ht & _ & Hs);
    [reflexivity|done|reflexivity|done|].
  exists c', p'. exact (conj E (conj Hd (conj Ht Hs))).
Defined.

Section Ticks.
Variable computedValue : AudioParam -> Q -> Q.

(** X8.  A tick of the routine of 'Natural' schedules one exponential ramp of
    the filter cutoff, ending 1.5 s after the tick at [200 + 800 r] for its
    draw [r], which for a draw in [0, 1) lies in [200, 1000), so never at a
    value that the platform rejects; nothing else of the graph is written. *)
Theorem natural_drift_in_range c h rnd iv :
  started c = true ->
  intervals (window c) !! h = Some iv -> callback iv = NaturalDrift ->
  (0 <= rnd 0%nat)%Q -> (rnd 0%nat < 1)%Q ->
  let c' := fire computedValue h rnd c in
  let v := (200 + rnd 0%nat * 800)%Q in
  scheduled (cutoff c')
  = scheduled (cutoff c) ++ [ExponentialRamp v (clock c + 1.5)] /\
  (200 <= v)%Q /\ (v < 1000)%Q /\
  (exists f, refs c' = withNoiseFilter f (refs c)) /\
  resonance c' = resonance c /\ filterType c' = filterType c /\
  (value <$> cutoff c') = (value <$> cutoff c) /\
  window c' = window c /\ props c' = props c.
Proof.
  intros H Hh Hcb H0 H1 c' v. subst c' v. unfold fire. rewrite Hh, Hcb.
  open_started c H. unfold naturalTick.
  cbn [refs audioCtxRef noiseFilterRef].
  split; [reflexivity|]. split; [lra|]. split; [lra|].
  split; [eexists; reflexivity|]. done.
Qed.

(** X9.  A tick of the routine of 'Hostile' sends every oscillator of the
    bank, with a draw [r] of its own, toward the frequency it has at the tick
    plus [(r - 0.5) * 20], so less than 10 Hz away from it, by a smoothed
    approach of time constant 0.05; waveforms and everything outside the bank
    stay. *)
Theorem hostile_jitter_in_range c h rnd iv :
  started c = true ->
  intervals (window c) !! h = Some iv -> callback iv = HostileJitter ->
  (forall i, (0 <= rnd i)%Q /\ (rnd i < 1)%Q) ->
  let c' := fire computedValue h rnd c in
  (forall i p, bankFrequency i c = Some p ->
     exists v,
       v = (computedValue p (clock c) + (rnd i - 0.5) * 20)%Q /\
       bankFrequency i c'
       = Some (schedule (SetTarget v (clock c) 0.05) p) /\
       (computedValue p (clock c) - 10 <= v)%Q /\
       (v < computedValue p (clock c) + 10)%Q /\
       bankType i c' = bankType i c) /\
  length (oscBankRef (refs c')) = 3%nat /\
  (exists b, refs c' = withOscBank b (refs c)) /\
  window c' = window c /\ props c' = props c.
Proof.
  intros H Hh Hcb Hrnd c'. subst c'. unfold fire. rewrite Hh, Hcb.
  open_started c H. unfold hostileTick.
  cbn [refs audioCtxRef oscBankRef]. split.
  - intros i p Hp. destruct (Hrnd i) as [Hi0 Hi1].
    exists (computedValue p (currentTime ctx) + (rnd i - 0.5) * 20)%Q.
    unfold bankFrequency, bankType, clock in *.
    destruct i as [|[|[|i]]]; cbn in Hp |- *; [| | |done];
      injection Hp as <-;
      (split; [reflexivity|]; split; [reflexivity|]; split; [lra|];
       split; [lra|]; done).
  - split; [reflexivity|]. split; [by eexists|]. done.
Qed.

End Ticks.

Lemma natural_drift_in_range_witness :
  started (mounted naturalProps) = true /\
  scheduled (cutoff (fire intrinsicValue 1 halfDraws (mounted naturalProps)))
  = scheduled (cutoff (mounted naturalProps))
    ++ [ExponentialRamp (200 + halfDraws 0 * 800)
          (clock (mounted naturalProps) + 1.5)].
Proof.
  split; [reflexivity|].
  refine (proj1
    (natural_drift_in_range intrinsicValue (mounted naturalProps) 1
       halfDraws {| callback := NaturalDrift; delay := 2000 |}
       _ _ _ _ _)); [reflexivity|reflexivity|reflexivity|done|done].
Defined.

Lemma hostile_jitter_in_range_witness :
  started (mounted hostileProps) = true /\
  length (oscBankRef
            (refs (fire intrinsicValue 2 halfDraws (mounted hostileProps))))
  = 3%nat.
Proof.
  split; [reflexivity|].
  refine (proj1 (proj2
    (hostile_jitter_in_range intrinsicValue (mounted hostileProps) 2
       halfDraws {| callback := HostileJitter; delay := 50 |}
       _ _ _ _))); [reflexivity|reflexivity|reflexivity|].
  intros i. split; done.
Defined.

(** ** The controls are independent *)

Ltac settle :=
  repeat first
    [ reflexivity
    | progress cbn
    | progress rewrite ?setMuted_unfold, ?setScrollPosition_unfold
    | match goal with E : ?b = _ |- context [?b] => rewrite E end ].

Lemma runProfileEffect_retouched p' g n c :
  started c = true -> profile p' = profile (props c) ->
  runProfileEffect (retouched p' g n c)
  = retouched p' g n <$> runProfileEffect c.
Proof.
  intros H Hp. open_started c H. destruct p' as [x' st' q' m'].
  destruct props0 as [x0 st q0 m0]. simpl in Hp. subst x'.
  unfold runProfileEffect, profileEffect, retouched.
  cbn [props refs profile audioCtxRef noiseFilterRef noiseGainRef
       droneGainRef oscBankRef length Nat.ltb Nat.leb withProps withRefs
       withSpatialPanner withMainGain window].
  repeat (destruct (String.eqb x0 _); [reflexivity|]). reflexivity.
Qed.

Lemma runCleanup_retouched k p' g n c :
  runCleanup k (retouched p' g n c) = retouched p' g n (runCleanup k c).
Proof. by destruct k as [|[h|]]. Qed.

Lemma setProfile_retouched x p' g n c :
  started c = true -> profile p' = profile (props c) ->
  setProfile x (retouched p' g n c)
  = retouched (withProfile x p') g n <$> setProfile x c.
Proof.
  intros H Hp. rewrite !setProfile_unfold. cbv zeta.
  change (props (retouched p' g n c)) with p'. rewrite Hp.
  destruct (String.eqb (profile (props c)) x); [reflexivity|].
  change (profileCleanup (withProps _ (retouched p' g n c)))
    with (profileCleanup c).
  change (withProps ?a (retouched p' g n c))
    with (retouched (withProfile x p') g n (withProps (withProfile x (props c)) c)).
  rewrite runCleanup_retouched.
  destruct (runCleanup_frame (profileCleanup c)
              (withProps (withProfile x (props c)) c)) as (Hpr & Hr & _).
  apply runProfileEffect_retouched;
    [etrans; [apply started_refs; exact Hr|exact H]
    |symmetry; exact (f_equal profile Hpr)].
Qed.

(** What a change of profile leaves alone. *)
Lemma setProfile_keeps x c :
  started c = true ->
  exists d, setProfile x c = Some d /\ started d = true /\
    props d = withProfile x (props c) /\
    mainGainRef (refs d) = mainGainRef (refs c) /\
    spatialPannerRef (refs d) = spatialPannerRef (refs c) /\
    audioCtxRef (refs d) = audioCtxRef (refs c).
Proof.
  intros H. rewrite setProfile_unfold. cbv zeta.
  destruct (String.eqb (profile (props c)) x).
  { eexists. split; [reflexivity|]. by repeat split. }
  set (c1 := runCleanup _ _).
  assert (refs c1 = refs c /\ props c1 = withProfile x (props c)) as [Hr Hp].
  { unfold c1. by destruct (profileCleanup _) as [|[h|]]. }
  assert (started c1 = true) as H1 by (by rewrite (started_refs _ _ Hr)).
  destruct (runProfileEffect_shape c1 H1) as (d & Hd & Hpd & _ & _ & _ & _ & Hsd & _).
  destruct (runProfileEffect_refs c1 d H1 Hd) as (f & ng & b & dg & E & _).
  exists d. split; [done|]. split; [done|]. split; [congruence|].
  rewrite E, <- Hr. by destruct (refs c1).
Qed.

Lemma setMuted_retouched m c :
  started c = true ->
  exists g n, forall d,
    started d = true ->
    mainGainRef (refs d) = mainGainRef (refs c) ->
    spatialPannerRef (refs d) = spatialPannerRef (refs c) ->
    audioCtxRef (refs d) = audioCtxRef (refs c) ->
    isMuted (props d) = isMuted (props c) ->
    setMuted m d
    = Some (retouched {| profile := profile (props d);
                         status := status (props d);
                         scrollPos := scrollPos (props d);
                         isMuted := m |} g n d).
Proof.
  intros H. open_started c H. destruct props0 as [x0 st q0 m0].
  exists (if Bool.eqb m0 m then mg
          else onGain (setTargetAtTime (if m then 0 else 0.4)
                         (currentTime ctx) 0.1) mg), sp.
  intros d Hd Hg Hn Hc Hm. rewrite setMuted_unfold. cbv zeta.
  destruct (started_inv d Hd)
    as (ctx' & mg' & nf' & ng' & b0' & b1' & b2' & dg' & sp' & ao' & ag' & E).
  destruct d as [[x1 st1 q1 m1] rd wd skd pkd]. simpl in E. subst rd.
  simpl in Hg, Hn, Hc, Hm. simplify_eq. simpl.
  by destruct (Bool.eqb _ m).
Qed.

Lemma setScrollPosition_retouched q c :
  started c = true ->
  exists g n, forall d,
    started d = true ->
    mainGainRef (refs d) = mainGainRef (refs c) ->
    spatialPannerRef (refs d) = spatialPannerRef (refs c) ->
    audioCtxRef (refs d) = audioCtxRef (refs c) ->
    scrollPos (props d) = scrollPos (props c) ->
    setScrollPosition q d
    = Some (retouched {| profile := profile (props d);
                         status := status (props d);
                         scrollPos := q;
                         isMuted := isMuted (props d) |} g n d).
Proof.
  intros H. open_started c H. destruct props0 as [x0 st q0 m0].
  exists mg, (if Qeq_bool q0 q then sp
              else onPan (setTargetAtTime (q / 50 - 1)
                            (currentTime ctx) 0.1) sp).
  intros d Hd Hg Hn Hc Hm. rewrite setScrollPosition_unfold. cbv zeta.
  destruct (started_inv d Hd)
    as (ctx' & mg' & nf' & ng' & b0' & b1' & b2' & dg' & sp' & ao' & ag' & E).
  destruct d as [[x1 st1 q1 m1] rd wd skd pkd]. simpl in E. subst rd.
  simpl in Hg, Hn, Hc, Hm. simplify_eq. simpl.
  by destruct (Qeq_bool _ q).
Qed.

(** X10.  The mute and the scroll control do not depend on the order in which
    they are called, between them and with the status and the profile control.
    *)
Theorem mute_scroll_commute c m q s x :
  started c = true ->
  setMuted m c ≫= setScrollPosition q = setScrollPosition q c ≫= setMuted m
  /\ setMuted m c ≫= setStatus s = setStatus s c ≫= setMuted m
  /\ setScrollPosition q c ≫= setStatus s
     = setStatus s c ≫= setScrollPosition q
  /\ setMuted m c ≫= setProfile x = setProfile x c ≫= setMuted m
  /\ setScrollPosition q c ≫= setProfile x
     = setProfile x c ≫= setScrollPosition q.
Proof.
  intros H.
  assert (forall (f : Component -> option Component) p1,
            (exists g n, forall d,
               started d = true ->
               mainGainRef (refs d) = mainGainRef (refs c) ->
               spatialPannerRef (refs d) = spatialPannerRef (refs c) ->
               audioCtxRef (refs d) = audioCtxRef (refs c) ->
               isMuted (props d) = isMuted (props c) ->
               scrollPos (props d) = scrollPos (props c) ->
               f d = Some (retouched (p1 (props d)) g n d)) ->
            (forall p, profile (p1 p) = profile p) ->
            (forall p, p1 (withProfile x p) = withProfile x (p1 p)) ->
            f c ≫= setProfile x = setProfile x c ≫= f) as Hprofile.
  { intros f p1 (g & n & Hf) Hp1 Hp1x.
    rewrite (Hf c) by done. simpl.
    rewrite setProfile_retouched by (done || apply Hp1).
    destruct (setProfile_keeps x c H) as (d & -> & Hd & Hpd & Hg & Hn & Hc).
    simpl. rewrite (Hf d) by (done || by rewrite Hpd).
    by rewrite Hpd, Hp1x. }
  split; [|split; [|split; [|split]]].
  4: { apply (Hprofile (setMuted m)
                (fun p => {| profile := profile p; status := status p;
                             scrollPos := scrollPos p; isMuted := m |}));
       [|done|done].
       destruct (setMuted_retouched m c H) as (g & n & Hf).
       exists g, n. intros d Hd Hg Hn Hc Hm Hq. by apply Hf. }
  4: { apply (Hprofile (setScrollPosition q)
                (fun p => {| profile := profile p; status := status p;
                             scrollPos := q; isMuted := isMuted p |}));
       [|done|done].
       destruct (setScrollPosition_retouched q c H) as (g & n & Hf).
       exists g, n. intros d Hd Hg Hn Hc Hm Hq. by apply Hf. }
  all: clear Hprofile;
    rewrite ?setMuted_unfold, ?setScrollPosition_unfold, ?setStatus_unfold;
    cbv zeta; simpl;
    rewrite ?setMuted_unfold, ?setScrollPosition_unfold, ?setStatus_unfold;
    cbv zeta;
    open_started c H; clear H; destruct props0 as [x0 st q0 m0].
  - f_equal. simpl.
    destruct (Bool.eqb m0 m) eqn:Em, (Qeq_bool q0 q) eqn:Eq; settle.
  - f_equal. simpl.
    destruct (Bool.eqb m0 m) eqn:Em, (BotLockStatus_eqb st s) eqn:Es;
      unfold runStatusEffect, statusEffect; settle.
    all: destruct sk0 as [|[h|]]; settle;
      destruct (BotLockStatus_eqb s OVERRIDE); settle.
  - f_equal. simpl.
    destruct (Qeq_bool q0 q) eqn:Eq, (BotLockStatus_eqb st s) eqn:Es;
      unfold runStatusEffect, statusEffect; settle.
    all: destruct sk0 as [|[h|]]; settle;
      destruct (BotLockStatus_eqb s OVERRIDE); settle.
Qed.


Lemma mute_scroll_commute_witness :
  started (mounted electronicProps) = true /\
  setMuted true (mounted electronicProps) ≫= setScrollPosition 80
  = setScrollPosition 80 (mounted electronicProps) ≫= setMuted true.
Proof.
  split; [reflexivity|].
  exact (proj1 (mute_scroll_commute (mounted electronicProps) true 80
                  OVERRIDE "Void" eq_refl)).
Defined.


(** ** The retry wrapper, for any budget, and the errors it retries *)

Lemma foldr_add_app (l1 l2 : list Z) :
  foldr Z.add 0%Z (l1 ++ l2) = (foldr Z.add 0 l1 + foldr Z.add 0 l2)%Z.
Proof. induction l1 as [|a l1 IH]; simpl; lia. Qed.

Lemma backoff_total k : forall d,
  foldr Z.add 0%Z (backoff k d) = (d * (2 ^ Z.of_nat k - 1))%Z.
Proof.
  induction k as [|k IH]; intros d; [simpl; lia|].
  cbn [backoff foldr]. rewrite IH, Nat2Z.inj_succ, Z.pow_succ_r by lia. lia.
Qed.

Section RetryBudget.
Variables (E T : Type) (message : E -> MessageAccess).

Lemma withRetry_warnings (fn : nat -> Outcome E T) : forall retries delay w,
  exists k,
    (k <= retries)%nat /\
    calls (withRetry message fn retries delay w).1 = (calls w + S k)%nat /\
    sleeps (withRetry message fn retries delay w).1
    = sleeps w ++ backoff k delay /\
    warnings (withRetry message fn retries delay w).1
    = warnings w ++ zip (backoff k delay) (countdown retries k).
Proof.
  induction retries as [|n IH]; intros delay w; simpl.
  - exists 0%nat. destruct (fn (calls w)) as [v|e];
      [|destruct (isQuotaError message e)]; simpl; rewrite !app_nil_r;
      repeat split; lia.
  - destruct (fn (calls w)) as [v|e].
    { exists 0%nat. simpl. rewrite !app_nil_r. repeat split; lia. }
    destruct (isQuotaError message e) as [[|]|].
    + destruct (IH (delay * 2)%Z
                  (slept delay (warned delay (S n) (called w))))
        as (k & Hk & Hc & Hs & Hw).
      exists (S k). split; [lia|]. split; [rewrite Hc; simpl; lia|].
      split; [rewrite Hs; simpl; by rewrite <- app_assoc|].
      rewrite Hw. simpl. by rewrite <- app_assoc.
    + exists 0%nat. simpl. rewrite !app_nil_r. repeat split; lia.
    + exists 0%nat. simpl. rewrite !app_nil_r. repeat split; lia.
Qed.

(** X11.  For any budget [n] and first delay [d], [withRetry] makes [k + 1]
    attempts for some [k <= n], waits [d (2^k - 1)] ms in all, so at most
    [d (2^n - 1)] ms, and warns once per retry, naming the wait that follows
    and the attempts left: [n], [n - 1], ...  What the caller gets is made
    from the last attempt: its value; its error where the message of the
    error is missing or a string; the TypeError of the catch block where the
    error is null or undefined or its message of another kind. *)
Theorem retry_budget (fn : nat -> Outcome E T) (n : nat) (d : Z) w :
  (0 <= d)%Z ->
  exists k,
    (k <= n)%nat /\
    calls (withRetry message fn n d w).1 = (calls w + S k)%nat /\
    totalWait (withRetry message fn n d w).1
    = (totalWait w + d * (2 ^ Z.of_nat k - 1))%Z /\
    (totalWait (withRetry message fn n d w).1
     <= totalWait w + d * (2 ^ Z.of_nat n - 1))%Z /\
    warnings (withRetry message fn n d w).1
    = warnings w ++ zip (backoff k d) (countdown n k) /\
    (withRetry message fn n d w).2
    = match fn (calls w + k)%nat with
      | Resolved v => Resolved v
      | Rejected e =>
          match message e with
          | Absent | Text _ => Rejected (Original e)
          | Unreadable | NotSearchable => Rejected (TypeErrorOn e)
          end
      end.
Proof.
  intros Hd.
  destruct (withRetry_warnings fn n d w) as (k & Hk & Hc & Hs & Hw).
  destruct (withRetry_spec E T message fn n d w)
    as (k' & _ & _ & Hc' & Hr & _).
  assert (k' = k) as -> by lia.
  exists k. split; [done|]. split; [done|].
  assert (totalWait (withRetry message fn n d w).1
          = (totalWait w + d * (2 ^ Z.of_nat k - 1))%Z) as Ht.
  { unfold totalWait. by rewrite Hs, foldr_add_app, backoff_total. }
  split; [done|]. split; [|split; [done|]].
  - rewrite Ht.
    assert (2 ^ Z.of_nat k <= 2 ^ Z.of_nat n)%Z
      by (apply Z.pow_le_mono_r; lia).
    nia.
  - rewrite Hr. unfold passedOn, rethrown, isQuotaError.
    destruct (fn (calls w + k)%nat) as [v|e]; [done|].
    by destruct (message e).
Qed.

(** X12.  An error is retried exactly when it has a message that is a string
    in which '429', 'quota' or 'EXHAUSTED' occurs, as written; an error
    without a message never is; and classifying throws exactly for an error
    that is null or undefined or whose message is of another kind. *)
Theorem quota_errors (e : E) :
  (isQuotaError message e = Some true <->
   exists m, message e = Text m /\
     (occursIn "429" m \/ occursIn "quota" m \/ occursIn "EXHAUSTED" m)) /\
  (message e = Absent -> isQuotaError message e = Some false) /\
  (isQuotaError message e = None <->
   message e = Unreadable \/ message e = NotSearchable).
Proof.
  split; [apply isQuotaError_true|]. split; [|apply isQuotaError_None].
  unfold isQuotaError. by intros ->.
Qed.

End RetryBudget.

Lemma retry_budget_witness :
  (0 <= 500)%Z /\
  exists k, (k <= 4)%nat /\
    totalWait (withRetry Text alwaysLimited 4 500 idle).1
    = (totalWait idle + 500 * (2 ^ Z.of_nat k - 1))%Z.
Proof.
  split; [lia|].
  destruct (retry_budget string nat Text alwaysLimited 4 500 idle)
    as (k & Hk & _ & Ht & _); [lia|].
  exists k. exact (conj Hk Ht).
Defined.

(** ** The image request *)

Lemma firstInline_scan pre part d post :
  Forall (fun p => inlineData p = None) pre -> inlineData part = Some d ->
  firstInline (pre ++ part :: post)
  = Some ("data:image/png;base64," ++ interpolated (data d))%string.
Proof.
  intros Hpre Hd. induction Hpre as [|p pre Hp _ IH]; simpl.
  - by rewrite Hd.
  - by rewrite Hp.
Qed.

Lemma firstInline_none ps :
  Forall (fun p => inlineData p = None) ps -> firstInline ps = None.
Proof.
  intros H. induction H as [|p ps Hp _ IH]; simpl; [done|by rewrite Hp].
Qed.

(** X13.  When the backend answers the first request, [generate360View] makes
    no second one and waits for nothing.  The result is the data of the first
    part that has inline data, as a PNG data URL ('undefined' in place of
    missing data); an answer without such a part (no candidates, an empty
    list, a first candidate without content or parts, parts without inline
    data) is rejected with 'No image data received', which is not
    retried. *)
Theorem generate360View_answered generateContent w response :
  generateContent (calls w) = Resolved response ->
  (generate360View generateContent w).1 = called w /\
  (forall pre part d post,
     responseParts response = pre ++ part :: post ->
     Forall (fun p => inlineData p = None) pre ->
     inlineData part = Some d ->
     (generate360View generateContent w).2
     = Resolved ("data:image/png;base64," ++ interpolated (data d))%string)
  /\
  (Forall (fun p => inlineData p = None) (responseParts response) ->
   (generate360View generateContent w).2
   = Rejected
       (Original
          (ThrownError
             {| err_message := Some "No image data received"%string |}))) /\
  ((candidates response = None \/ candidates response = Some [] \/
    (exists c cs, candidates response = Some (c :: cs) /\
       (content c = None \/ exists ct, content c = Some ct /\ parts ct = None)))
   -> responseParts response = []).
Proof.
  intros Hr. unfold generate360View, withRetryDefault, imageOf.
  cbn [withRetry]. rewrite Hr.
  split; [|split; [|split]].
  - by destruct (firstInline _).
  - intros pre part d post E Hpre Hd.
    by rewrite E, (firstInline_scan pre part d post Hpre Hd).
  - intros Hall. by rewrite (firstInline_none _ Hall).
  - unfold responseParts.
    intros [->|[->|(c & cs & -> & [Hc|(ct & Hc & Hp)])]]; simpl; try done.
    + by rewrite Hc.
    + rewrite Hc. simpl. by rewrite Hp.
Qed.

Lemma generate360View_answered_witness :
  (generate360View (fun _ => Resolved imageAnswer) idle).1 = called idle /\
  (generate360View (fun _ => Resolved imageAnswer) idle).2
  = Resolved "data:image/png;base64,QUJD"%string.
Proof.
  destruct (generate360View_answered (fun _ => Resolved imageAnswer) idle
              imageAnswer eq_refl) as (Hw & Hfirst & _).
  split; [exact Hw|].
  apply (Hfirst [{| inlineData := None |}]
           {| inlineData := Some {| data := Some "QUJD"%string |} |}
           {| data := Some "QUJD"%string |} []); [reflexivity| |reflexivity].
  by repeat constructor.
Defined.

(** X14.  Whatever the backend does, [generate360View] asks it at most three
    times; each request but the last was rejected by the backend with a quota
    error (an answer without image never causes a retry), and the result is
    made from the last request alone: the image of its answer, or 'No image
    data received'; the rejection of the backend where its message is missing
    or a string; the TypeError of the catch block where the backend rejected
    with null or undefined or with a message of another kind. *)
Theorem generate360View_attempts generateContent w :
  exists k,
    (k <= 2)%nat /\
    calls (generate360View generateContent w).1 = (calls w + S k)%nat /\
    sleeps (generate360View generateContent w).1
    = sleeps w ++ take k [2000; 4000]%Z /\
    (forall j, (j < k)%nat ->
       exists e, generateContent (calls w + j)%nat = Rejected e /\
                 isQuotaError messageOf e = Some true) /\
    (generate360View generateContent w).2
    = match generateContent (calls w + k)%nat with
      | Resolved response =>
          match firstInline (responseParts response) with
          | Some url => Resolved url
          | None =>
              Rejected
                (Original
                   (ThrownError
                      {| err_message :=
                           Some "No image data received"%string |}))
          end
      | Rejected ThrownNullish => Rejected (TypeErrorOn ThrownNullish)
      | Rejected ThrownOdd => Rejected (TypeErrorOn ThrownOdd)
      | Rejected (ThrownError e) => Rejected (Original (ThrownError e))
      end.
Proof.
  unfold generate360View, withRetryDefault.
  set (fn := fun k : nat => match generateContent k with
                            | Resolved response => imageOf response
                            | Rejected error => Rejected error
                            end).
  destruct (withRetry_spec JsThrown string messageOf fn 2 2000 w)
    as (k & Hk & Hs & Hc & Hr & Hq & _).
  exists k. split; [done|]. split; [done|]. split.
  { rewrite Hs. f_equal. by destruct k as [|[|[|k]]]; [| | |lia]. }
  split.
  - intros j Hj. destruct (Hq j Hj) as (e & He & Hqe). exists e.
    split; [|done]. unfold fn, imageOf in He. cbv beta in He.
    destruct (generateContent (calls w + j)) as [r|e'] eqn:Eg;
      [exfalso|by injection He as ->].
    destruct (firstInline _); [done|].
    injection He as <-. discriminate Hqe.
  - rewrite Hr. unfold fn, imageOf, passedOn.
    destruct (generateContent (calls w + k)) as [r|[|[[m|]]|]]; try done.
    by destruct (firstInline _).
Qed.

(** ** The noise source *)

Lemma fill_lookup (sample : nat -> Q) (n : nat) : forall a output i,
  foldl (fun out i => <[i := sample i]> out) output (seq a n) !! i
  = if decide (a <= i < a + n /\ i < length output)%nat
    then Some (sample i) else output !! i.
Proof.
  induction n as [|n IH]; intros a output i; simpl.
  - case_decide; [lia|done].
  - rewrite IH, length_insert.
    destruct (decide (i = a)) as [->|Hne].
    + case_decide as H1; case_decide as H2; try lia.
      * by rewrite list_lookup_insert_eq by lia.
      * by rewrite list_insert_ge by lia.
    + rewrite list_lookup_insert_ne by done.
      case_decide; case_decide; try done; lia.
Qed.

Lemma fill_length (sample : nat -> Q) (l : list nat) : forall output,
  length (foldl (fun out i => <[i := sample i]> out) output l)
  = length output.
Proof.
  induction l as [|a l IH]; intros output; simpl; [done|].
  by rewrite IH, length_insert.
Qed.

Lemma roundToQuarter_mono x y :
  (x <= y)%Q -> (roundToQuarter x <= roundToQuarter y)%Q.
Proof.
  intros H. unfold roundToQuarter. rewrite !Qred_correct.
  assert (Qfloor (x * 4 + 0.5) <= Qfloor (y * 4 + 0.5))%Z as Hz
      by (apply Qfloor_resp_le; lra).
  rewrite Zle_Qle in Hz. unfold Qdiv.
  apply Qmult_le_compat_r; [exact Hz|done].
Qed.

(** X15.  One call of [onaudioprocess] overwrites the first 4096 samples of
    the output channel, sample [i] with its own draw [r] mapped to
    [2 r - 1] and rounded to single precision by the store, and nothing
    else: the channel keeps its length, later samples stay, and a shorter
    channel is not extended.  For draws in [0, 1) the samples lie in
    [-1, 1], the rounding being monotone and -1 and 1 single-precision
    values; the upper end is closed, as a draw close to 1 rounds up to
    it. *)
Theorem noise_fills_buffer fround rnd output :
  (forall x y, (x <= y)%Q -> (fround x <= fround y)%Q) ->
  (fround (-1) == -1)%Q -> (fround 1 == 1)%Q ->
  (forall i, (0 <= rnd i)%Q /\ (rnd i < 1)%Q) ->
  length (onaudioprocess fround rnd output) = length output /\
  (forall i, (i < bufferSize)%nat -> (i < length output)%nat ->
     exists x, onaudioprocess fround rnd output !! i = Some x /\
       x = fround (rnd i * 2 - 1)%Q /\ (-1 <= x)%Q /\ (x <= 1)%Q) /\
  (forall i, (bufferSize <= i)%nat ->
     onaudioprocess fround rnd output !! i = output !! i).
Proof.
  intros Hmono Hlo Hhi Hrnd. unfold onaudioprocess.
  split; [apply fill_length|]. split.
  - intros i Hi Hl.
    rewrite (fill_lookup (fun i => fround (rnd i * 2 - 1)%Q)).
    rewrite decide_True by lia.
    eexists. split; [reflexivity|]. split; [reflexivity|].
    destruct (Hrnd i) as [H0 H1].
    assert (fround (-1) <= fround (rnd i * 2 - 1))%Q as Ha
        by (apply Hmono; lra).
    assert (fround (rnd i * 2 - 1) <= fround 1)%Q as Hb
        by (apply Hmono; lra).
    split; lra.
  - intros i Hi.
    rewrite (fill_lookup (fun i => fround (rnd i * 2 - 1)%Q)).
    by rewrite decide_False by lia.
Qed.

Lemma noise_fills_buffer_witness :
  (roundToQuarter (-1) == -1)%Q /\ (roundToQuarter 1 == 1)%Q /\
  onaudioprocess roundToQuarter nearlyOne [7; 7; 7]%Q !! 0%nat = Some 1%Q.
Proof.
  split; [reflexivity|]. split; [reflexivity|].
  destruct (noise_fills_buffer roundToQuarter nearlyOne [7; 7; 7]%Q
              roundToQuarter_mono) as (_ & Hfill & _);
    [reflexivity|reflexivity|intros i; split; done|].
  destruct (Hfill 0%nat) as (x & -> & -> & _);
    [unfold bufferSize; lia|simpl; lia|].
  reflexivity.
Defined.

(** ** The event log of [BotInterface] *)

Lemma take_app_take {A} (l1 l2 : list A) : forall n m,
  (n <= m)%nat -> take n (l1 ++ take m l2) = take n (l1 ++ l2).
Proof.
  induction l1 as [|a l1 IH]; intros n m Hnm; simpl.
  - rewrite take_take. f_equal. lia.
  - destruct n as [|n]; [done|]. simpl. f_equal. apply IH. lia.
Qed.

Lemma logsAfter_from (runs : list (string * BotLockStatus)) : forall logs,
  (length logs <= 4)%nat ->
  foldl (fun logs run => logEffect run.1 run.2 logs) logs runs
  = take 4 (reverse (map (fun run => logLine run.1 run.2) runs) ++ logs).
Proof.
  induction runs as [|run runs IH]; intros logs Hl; simpl.
  - by rewrite take_ge.
  - rewrite IH by (unfold logEffect; simpl; rewrite length_take; lia).
    rewrite reverse_cons, <- app_assoc. unfold logEffect. simpl.
    change (logLine run.1 run.2 :: take 3 logs)
      with (take 4 (logLine run.1 run.2 :: logs)).
    by rewrite take_app_take.
Qed.

(** X16.  The log shows the lines of the last four runs of the status effect,
    newest first, filled up with the two initial lines while fewer than four
    have run; it never holds more than four lines, and from the fourth run on
    the initial lines are gone. *)
Theorem log_keeps_last_four runs :
  logsAfter runs
  = take 4 (reverse (map (fun run => logLine run.1 run.2) runs)
            ++ initialLogs) /\
  (length (logsAfter runs) <= 4)%nat /\
  length (logsAfter runs) = Nat.min 4 (length runs + 2) /\
  ((4 <= length runs)%nat ->
   logsAfter runs
   = take 4 (reverse (map (fun run => logLine run.1 run.2) runs))).
Proof.
  assert (logsAfter runs
          = take 4 (reverse (map (fun run => logLine run.1 run.2) runs)
                    ++ initialLogs)) as E
      by (apply logsAfter_from; simpl; lia).
  split; [done|]. rewrite E. split; [rewrite length_take; lia|]. split.
  - rewrite length_take, length_app, length_reverse, length_map. simpl. lia.
  - intros H. rewrite take_app_le; [done|].
    rewrite length_reverse, length_map. lia.
Qed.
